(** * The pod admission controller of aws-orbit-workbench

    A shallow embedding of
    [images/admission-controller/src/aws_orbit_admission_controller/pod.py]:
    the selector filter, the container selector, the override/merge pass on
    the pod and on its containers, the webhook response and the request
    handler, with the properties of the admission decision engine proved
    (or refuted) on them.

    Documents (pods, pod-settings, namespace-settings, requests, responses)
    are JSON values as Python holds them: dicts are finite maps from strings,
    lists are lists.  Exceptions are explicit; code that mutates its
    arguments in place is written in a state monad in which a raised
    exception keeps the mutations made before it. *)

From stdpp Require Import base gmap list strings.
From stdpp Require Import sorting.
From stdpp Require Import pretty.
From Stdlib Require Import ZArith Ascii.

#[local] Set Warnings "-register-all".
#[local] Open Scope Z_scope.

(** ** JSON documents *)

Inductive json :=
  | JNull
  | JBool (b : bool)
  | JNum (n : Z)
  | JStr (s : string)
  | JList (l : list json)
  | JDict (d : gmap string json).

#[global] Instance json_inhabited : Inhabited json := populate JNull.

(** ** Exceptions *)

Inductive exn :=
  | KeyError (k : string)
  | TypeError
  | AttributeError
  | LibraryError (what : string)
  | NotFoundError
  | ApiError (what : string).

Inductive outcome (A : Type) :=
  | Ret (a : A)
  | Raise (e : exn).
Arguments Ret {A} a.
Arguments Raise {A} e.

Definition obind {A B} (o : outcome A) (f : A → outcome B) : outcome B :=
  match o with
  | Ret a => f a
  | Raise e => Raise e
  end.

Declare Scope outcome_scope.
Delimit Scope outcome_scope with out.
Notation "'let?' x ':=' c 'in' k" := (obind c (fun x => k))
  (at level 10, x pattern, c at level 100, k at level 200) : outcome_scope.
#[local] Open Scope outcome_scope.

Fixpoint omapM {A B} (f : A → outcome B) (l : list A) : outcome (list B) :=
  match l with
  | [] => Ret []
  | x :: l =>
      let? y := f x in
      let? ys := omapM f l in
      Ret (y :: ys)
  end.

Fixpoint ofilterM {A} (f : A → outcome bool) (l : list A) : outcome (list A) :=
  match l with
  | [] => Ret []
  | x :: l =>
      let? b := f x in
      let? ys := ofilterM f l in
      Ret (if b then x :: ys else ys)
  end.

(** ** The Python operations the module uses on documents *)

Module Py.

(** [a == b].  Dicts compare by content whatever their order, and a
    boolean equals the integer 0 or 1 it stands for. *)
Fixpoint eq (a b : json) {struct a} : bool :=
  match a, b with
  | JNull, JNull => true
  | JBool x, JBool y => bool_decide (x = y)
  | JBool x, JNum n | JNum n, JBool x => bool_decide (n = if x then 1 else 0)
  | JNum n, JNum m => bool_decide (n = m)
  | JStr s, JStr t => bool_decide (s = t)
  | JList l, JList l' =>
      (fix go (l l' : list json) : bool :=
         match l, l' with
         | [], [] => true
         | x :: l, y :: l' => eq x y && go l l'
         | _, _ => false
         end) l l'
  | JDict d, JDict d' =>
      map_fold (fun _ (b : bool) acc => b && acc) true
        (merge (fun o o' => match o, o' with
                            | Some x, Some y => Some (eq x y)
                            | None, None => None
                            | _, _ => Some false
                            end) d d')
  | _, _ => false
  end.

(** [x in l] for a list [l]. *)
Definition mem (x : json) (l : list json) : bool := existsb (eq x) l.

(** [bool(v)]. *)
Definition truthy (v : json) : bool :=
  match v with
  | JNull => false
  | JBool b => b
  | JNum n => negb (bool_decide (n = 0))
  | JStr s => negb (bool_decide (s = ""))
  | JList l => negb (bool_decide (l = []))
  | JDict d => negb (bool_decide (dom d = ∅))
  end.

(** [v[k]] for a string [k]. *)
Definition getitem (v : json) (k : string) : outcome json :=
  match v with
  | JDict d => match d !! k with Some x => Ret x | None => Raise (KeyError k) end
  | _ => Raise TypeError
  end.

(** [v.get(k, default)] for a string [k]. *)
Definition get (v : json) (k : string) (default : json) : outcome json :=
  match v with
  | JDict d => Ret (match d !! k with Some x => x | None => default end)
  | _ => Raise AttributeError
  end.

(** [v.get(k, default)] where the key [k] is itself a document. *)
Definition get_by (v : json) (k : json) (default : json) : outcome json :=
  match v with
  | JDict d =>
      match k with
      | JStr s => get v s default
      | JList _ | JDict _ => Raise TypeError
      | _ => Ret default
      end
  | _ => Raise AttributeError
  end.

Fixpoint substring (t s : string) : bool :=
  String.prefix t s ||
  match s with
  | EmptyString => false
  | String _ s' => substring t s'
  end.

(** [x in v]. *)
Definition contains (v : json) (x : json) : outcome bool :=
  match v with
  | JList l => Ret (mem x l)
  | JDict d =>
      match x with
      | JStr s => Ret (bool_decide (is_Some (d !! s)))
      | JList _ | JDict _ => Raise TypeError
      | _ => Ret false
      end
  | JStr s =>
      match x with
      | JStr t => Ret (substring t s)
      | _ => Raise TypeError
      end
  | _ => Raise TypeError
  end.

Fixpoint chars (s : string) : list json :=
  match s with
  | EmptyString => []
  | String c s' => JStr (String c EmptyString) :: chars s'
  end.

(** The elements [for x in v] visits.  A dict yields its keys, here in
    the order of the map: the order in which a Python dict was filled is
    not part of a document. *)
Definition iter (v : json) : outcome (list json) :=
  match v with
  | JList l => Ret l
  | JStr s => Ret (chars s)
  | JDict d => Ret (JStr <$> (map_to_list d).*1)
  | _ => Raise TypeError
  end.

(** [v.items()]. *)
Definition items (v : json) : outcome (list (string * json)) :=
  match v with
  | JDict d => Ret (map_to_list d)
  | _ => Raise AttributeError
  end.

(** [{**a, **b}]: the keys of both, the values of [b] winning. *)
Definition merge (a b : json) : outcome json :=
  match a, b with
  | JDict da, JDict db => Ret (JDict (db ∪ da))
  | _, _ => Raise TypeError
  end.

(** [v[k] = x], giving the updated [v]. *)
Definition setitem (v : json) (k : string) (x : json) : outcome json :=
  match v with
  | JDict d => Ret (JDict (<[k := x]> d))
  | _ => Raise TypeError
  end.

(** [v.extend(it)], giving the updated [v]. *)
Definition extend (v : json) (it : json) : outcome json :=
  match v with
  | JList l => let? xs := iter it in Ret (JList (l ++ xs))
  | _ => Raise AttributeError
  end.

End Py.

(** ** In-place mutation: a state monad in which exceptions keep the state *)

Definition M (S A : Type) : Type := S → outcome A * S.

Definition ret {S A} (a : A) : M S A := fun s => (Ret a, s).

Definition bind {S A B} (m : M S A) (f : A → M S B) : M S B :=
  fun s =>
    match m s with
    | (Ret a, s') => f a s'
    | (Raise e, s') => (Raise e, s')
    end.

(** An expression that reads nothing of the state. *)
Definition lift {S A} (o : outcome A) : M S A := fun s => (o, s).

(** An expression evaluated on the current state. *)
Definition reads {S A} (f : S → outcome A) : M S A := fun s => (f s, s).

(** A statement that replaces the state, unless evaluating it raises. *)
Definition updates {S} (f : S → outcome S) : M S unit :=
  fun s =>
    match f s with
    | Ret s' => (Ret tt, s')
    | Raise e => (Raise e, s)
    end.

Declare Scope stmt_scope.
Delimit Scope stmt_scope with stmt.
Notation "'let!' x ':=' c 'in' k" := (bind c (fun x => k))
  (at level 10, x pattern, c at level 100, k at level 200) : stmt_scope.
Notation "c ';;' k" := (bind c (fun _ => k))
  (at level 100, k at level 200, right associativity) : stmt_scope.
#[local] Open Scope stmt_scope.

Fixpoint for_each {S A} (l : list A) (body : A → M S unit) : M S unit :=
  match l with
  | [] => ret tt
  | x :: l => body x ;; for_each l body
  end.

(** [m] run on the object [doc[k]], an alias into [doc]: what [m] changes of
    it stays changed in [doc], also when [m] raises. *)
Definition within (k : string) {A} (m : M json A) : M json A :=
  fun doc =>
    match doc with
    | JDict d =>
        match d !! k with
        | Some sub => let '(r, sub') := m sub in (r, JDict (<[k := sub']> d))
        | None => (Raise (KeyError k), doc)
        end
    | _ => (Raise TypeError, doc)
    end.

(** ** The libraries the module calls *)

Class Libraries := {
  (** [re.compile(p)], and for the compiled pattern [r] and a name [s]
      whether [r.match(s)] finds a match *)
  re_compile : json → outcome (json → outcome bool);
  (** [jsonpath_ng.parse(p)], and for the parsed path [q] and a document
      [doc] the list [[match.value for match in q.find(doc)]] *)
  jsonpath_parse : json → outcome (json → outcome (list json));
  (** the operations of [jsonpatch.JsonPatch.from_diff(a, b)] *)
  from_diff : json → json → list json;
  (** [str(patch)], the JSON text of the operations *)
  patch_text : list json → string;
  (** [base64.b64encode(s.encode()).decode()] *)
  b64encode : string → string;
}.

(** ** [filter_pod_settings] *)

Definition is_none (v : json) : bool :=
  match v with JNull => true | _ => false end.

(** The body of the loop over [matchLabels]. *)
Definition match_labels_body (pod_labels : json) (kv : string * json) : outcome unit :=
  let? v := Py.get pod_labels kv.1 JNull in
  if negb (Py.eq v kv.2)
  then Ret tt    (* continue: on to the next label of the same pod-setting *)
  else Ret tt.

(** The body of the loop over [matchExpressions]. *)
Definition match_expressions_body (pod_labels : json) (match_expression : json)
    : outcome unit :=
  (* [pod_labels.get] is looked up before its argument is evaluated *)
  let? _ := Py.get pod_labels "key" JNull in
  let? key := Py.getitem match_expression "key" in
  let? pod_label_value := Py.get_by pod_labels key JNull in
  let? operator := Py.getitem match_expression "operator" in
  let? values := Py.get match_expression "values" (JList []) in
  if Py.eq operator (JStr "Exists") && is_none pod_label_value then Ret tt
  else if Py.eq operator (JStr "NotExists") && negb (is_none pod_label_value) then Ret tt
  else
    let? c_in :=
      (if Py.eq operator (JStr "In")
       then let? b := Py.contains values pod_label_value in Ret (negb b)
       else Ret false) in
    if c_in then Ret tt
    else
      let? c_notin :=
        (if Py.eq operator (JStr "NotIn")
         then Py.contains values pod_label_value
         else Ret false) in
      if c_notin
      then Ret tt    (* continue: on to the next expression of the same pod-setting *)
      else Ret tt.

Fixpoint oiter {A} (body : A → outcome unit) (l : list A) : outcome unit :=
  match l with
  | [] => Ret tt
  | x :: l => let? _ := body x in oiter body l
  end.

(** The body of the loop over the pod-settings: whether this pod-setting is
    appended to [filtered_pod_settings]. *)
Definition pod_setting_appended (pod_setting namespace pod : json) : outcome bool :=
  let? metadata := Py.getitem pod_setting "metadata" in
  let? ps_namespace := Py.getitem metadata "namespace" in
  if negb (Py.eq ps_namespace namespace) then Ret false
  else
    let? pod_metadata := Py.getitem pod "metadata" in
    let? pod_labels := Py.get pod_metadata "labels" (JDict ∅) in
    let? spec := Py.getitem pod_setting "spec" in
    let? selector := Py.getitem spec "podSelector" in
    let? match_labels := Py.get selector "matchLabels" (JDict ∅) in
    let? labels := Py.items match_labels in
    let? _ := oiter (match_labels_body pod_labels) labels in
    let? spec := Py.getitem pod_setting "spec" in
    let? selector := Py.getitem spec "podSelector" in
    let? match_expressions := Py.get selector "matchExpressions" (JList []) in
    let? expressions := Py.iter match_expressions in
    let? _ := oiter (match_expressions_body pod_labels) expressions in
    Ret true.

(** The positions in [l], counted from [i], of the elements [keep] accepts. *)
Fixpoint positions_from {A} (i : nat) (keep : A → outcome bool) (l : list A)
    : outcome (list nat) :=
  match l with
  | [] => Ret []
  | x :: l =>
      let? b := keep x in
      let? r := positions_from (S i) keep l in
      Ret (if b then i :: r else r)
  end.

(** The list returned holds the appended pod-setting objects themselves, not
    copies: each is given by its position in [pod_settings]. *)
Definition filter_pod_settings (pod_settings : list json) (namespace pod : json)
    : outcome (list nat) :=
  positions_from 0%nat (fun pod_setting => pod_setting_appended pod_setting namespace pod)
    pod_settings.

(** ** [filter_pod_containers] *)

(** The containers selected are the container objects of the pod
    themselves: each is given by its position in [containers]. *)
Definition filter_pod_containers `{Libraries} (containers pod container_selector : json)
    : outcome (list nat) :=
  let? has_regex := Py.contains container_selector (JStr "regex") in
  if has_regex then
    let? regex := Py.getitem container_selector "regex" in
    let? container_selector_regex :=
      re_compile (if Py.eq regex (JStr "*") then JStr ".*" else regex) in
    let? cs := Py.iter containers in
    positions_from 0%nat
      (fun c =>
         let? name := Py.get c "name" (JStr "") in
         container_selector_regex name)
      cs
  else
    let? has_jsonpath := Py.contains container_selector (JStr "jsonpath") in
    if has_jsonpath then
      let? path := Py.getitem container_selector "jsonpath" in
      let? container_selector_jsonpath := jsonpath_parse path in
      let? cs := Py.iter containers in
      positions_from 0%nat
        (fun c =>
           let? name := Py.get c "name" (JStr "") in
           let? values := container_selector_jsonpath pod in
           Ret (Py.mem name values))
        cs
    else Ret [].

(** ** The merge strategies, as statements on the object they change *)

(** [if field in ps_spec: stmt]. *)
Definition when_in {S} (ps_spec : json) (field : string) (stmt : M S unit) : M S unit :=
  let! has := lift (Py.contains ps_spec (JStr field)) in
  if has then stmt else ret tt.

(** [obj[k] = v]. *)
Definition setitem (k : string) (v : json) : M json unit :=
  updates (fun obj => Py.setitem obj k v).

(** [obj[field] = ps_spec.get(field, None)]. *)
Definition replace_with_get (field : string) (ps_spec : json) : M json unit :=
  let! v := lift (Py.get ps_spec field JNull) in
  setitem field v.

(** [obj[field] = ps_spec[field]]. *)
Definition replace_with_item (field : string) (ps_spec : json) : M json unit :=
  let! v := lift (Py.getitem ps_spec field) in
  setitem field v.

(** [obj[field] = {**obj.get(field, {}), **ps_spec.get(field, {})}].  The
    display unpacks its first operand before it evaluates the second. *)
Definition key_merge (field : string) (ps_spec : json) : M json unit :=
  let! old := reads (fun obj => Py.get obj field (JDict ∅)) in
  let! _ := lift (Py.merge (JDict ∅) old) in
  let! new := lift (Py.get ps_spec field (JDict ∅)) in
  let! merged := lift (Py.merge old new) in
  setitem field merged.

(** [obj[field].extend(ps_spec.get(field, []))]. *)
Definition extend_field (field : string) (ps_spec : json) : M json unit :=
  let! l := reads (fun obj => Py.getitem obj field) in
  let! incoming := lift (Py.get ps_spec field (JList [])) in
  let! l' := lift (Py.extend l incoming) in
  setitem field l'.

(** [pv["name"] not in [psv["name"] for psv in ps_spec.get(field, [])]]. *)
Definition name_not_incoming (field : string) (ps_spec : json) (pv : json) : outcome bool :=
  let? name := Py.getitem pv "name" in
  let? incoming := Py.get ps_spec field (JList []) in
  let? psvs := Py.iter incoming in
  let? names := omapM (fun psv => Py.getitem psv "name") psvs in
  Ret (negb (Py.mem name names)).

(** [obj[field] = [pv for pv in obj.get(field, []) if pv["name"] not in ...]]
    followed by [obj[field].extend(ps_spec.get(field, []))]. *)
Definition replace_or_append (field : string) (ps_spec : json) : M json unit :=
  let! old := reads (fun obj => Py.get obj field (JList [])) in
  let! pvs := lift (Py.iter old) in
  let! kept := lift (ofilterM (name_not_incoming field ps_spec) pvs) in
  setitem field (JList kept) ;;
  extend_field field ps_spec.

(** ** [apply_settings_to_container] *)

(** The two objects the merge pass may change: the pod-setting (an object of
    the process-wide list) and the pod, or one container of the pod. *)
Record heap := Heap { pod_setting : json; target : json }.

Definition on_setting {A} (m : M json A) : M heap A :=
  fun h => let '(r, ps) := m (pod_setting h) in (r, Heap ps (target h)).

Definition on_target {A} (m : M json A) : M heap A :=
  fun h => let '(r, t) := m (target h) in (r, Heap (pod_setting h) t).

Definition env_entry (name : string) (value : json) : json :=
  JDict {[ "name" := JStr name; "value" := value ]}.

Definition not_user_context (e : json) : outcome bool :=
  let? name := Py.getitem e "name" in
  Ret (negb (Py.mem name [JStr "USERNAME"; JStr "USEREMAIL"])).

(** The [injectUserContext] block, a statement on the object [ps_spec]. *)
Definition inject_user_context (ns_spec : json) : M json unit :=
  let! flag := reads (fun ps_spec => Py.get ps_spec "injectUserContext" (JBool false)) in
  if Py.truthy flag then
    let! env := reads (fun ps_spec => Py.get ps_spec "env" (JList [])) in
    let! es := lift (Py.iter env) in
    let! kept := lift (ofilterM not_user_context es) in
    setitem "env" (JList kept) ;;
    let! l := reads (fun ps_spec => Py.getitem ps_spec "env") in
    let! user := lift (Py.getitem ns_spec "user") in
    let! email := lift (Py.getitem ns_spec "email") in
    let! l' := lift (Py.extend l (JList [env_entry "USERNAME" user; env_entry "USEREMAIL" email])) in
    setitem "env" l'
  else ret tt.

(** A merge strategy: the statement that [field] and [ps_spec] give. *)
Definition strategy : Type := string → json → M json unit.

(** [if field in ps_spec: <the strategy's statement>]. *)
Definition override (ps_spec : json) (fs : string * strategy) : M json unit :=
  when_in ps_spec fs.1 (fs.2 fs.1 ps_spec).

(** The statements after the [injectUserContext] block, in their order:
    the fields of the container and how each is merged. *)
Definition fields_before_envFrom : list (string * strategy) :=
  [ ("image", replace_with_get);
    ("imagePullPolicy", replace_with_get);
    ("lifecycle", key_merge);
    ("command", replace_with_item);
    ("args", replace_with_item);
    ("env", replace_or_append) ].

Definition container_fields : list (string * strategy) :=
  fields_before_envFrom ++
  [ ("envFrom", extend_field);
    ("volumeMounts", replace_or_append) ].

(** The body of [apply_settings_to_container] with the merge statements of
    [fields]; [target] is the container. *)
Definition settings_to_container (fields : list (string * strategy))
    (namespace_setting : json) : M heap unit :=
  let! ns_spec := lift (Py.getitem namespace_setting "spec") in
  let! _ := reads (fun h => Py.getitem (pod_setting h) "spec") in
  on_setting (within "spec" (inject_user_context ns_spec)) ;;
  let! ps_spec := reads (fun h => Py.getitem (pod_setting h) "spec") in
  on_target (for_each fields (override ps_spec)).

Definition apply_settings_to_container : json → M heap unit :=
  settings_to_container container_fields.

(** ** [apply_settings_to_pod] *)

(** The container object at position [i] of [pod["spec"][field]]. *)
Definition container_at (pod : json) (field : string) (i : nat) : option json :=
  match pod with
  | JDict d =>
      match d !! "spec" with
      | Some (JDict spec) =>
          match spec !! field with
          | Some (JList cs) => cs !! i
          | _ => None
          end
      | _ => None
      end
  | _ => None
  end.

Definition with_container (pod : json) (field : string) (i : nat) (c : json) : json :=
  match pod with
  | JDict d =>
      match d !! "spec" with
      | Some (JDict spec) =>
          match spec !! field with
          | Some (JList cs) =>
              JDict (<["spec" := JDict (<[field := JList (<[i := c]> cs)]> spec)]> d)
          | _ => pod
          end
      | _ => pod
      end
  | _ => pod
  end.

(** [m] run with the container at position [i] of [pod["spec"][field]] as
    its target; the container is an alias into the pod. *)
Definition at_container (field : string) (i : nat) (m : M heap unit) : M heap unit :=
  fun h =>
    match container_at (target h) field i with
    | Some c =>
        let '(r, h') := m (Heap (pod_setting h) c) in
        (r, Heap (pod_setting h') (with_container (target h) field i (target h')))
    | None => (Ret tt, h)
    end.

(** The loop over the selected containers of [pod_spec[field]]; [whole]
    tells whether the path expression is evaluated on the pod or, as for the
    init-containers, on its spec. *)
Definition apply_to_selected `{Libraries} (namespace_setting : json) (field : string)
    (whole : bool) : M heap unit :=
  let! pod_spec := reads (fun h => Py.getitem (target h) "spec") in
  let! containers := lift (Py.get pod_spec field (JList [])) in
  let! pod := reads (fun h => Ret (if whole then target h else pod_spec)) in
  let! ps_spec := reads (fun h => Py.getitem (pod_setting h) "spec") in
  let! container_selector := lift (Py.get ps_spec "containerSelector" (JDict ∅)) in
  let! selected := lift (filter_pod_containers containers pod container_selector) in
  for_each selected
    (fun i => at_container field i (apply_settings_to_container namespace_setting)).

(** The statements on the pod before the container loops, in their order:
    the object of the pod that holds the field, the field and how it is
    merged. *)
Definition pod_fields : list (string * (string * strategy)) :=
  [ ("spec", ("serviceAccountName", replace_with_get));
    ("metadata", ("labels", key_merge));
    ("metadata", ("annotations", key_merge));
    ("spec", ("nodeSelector", key_merge));
    ("spec", ("securityContext", key_merge));
    ("spec", ("volumes", replace_or_append)) ].

(** [if field in ps_spec: <the strategy's statement on pod[part]>]. *)
Definition pod_override (ps_spec : json) (pfs : string * (string * strategy))
    : M json unit :=
  when_in ps_spec pfs.2.1 (within pfs.1 (pfs.2.2 pfs.2.1 ps_spec)).

(** [target] is the pod. *)
Definition apply_settings_to_pod `{Libraries} (namespace_setting : json) : M heap unit :=
  let! ps_spec := reads (fun h => Py.getitem (pod_setting h) "spec") in
  let! _ := reads (fun h => Py.getitem (target h) "spec") in
  on_target (for_each pod_fields (pod_override ps_spec)) ;;
  apply_to_selected namespace_setting "initContainers" false ;;
  apply_to_selected namespace_setting "containers" true.

(** ** [get_response] *)

(** The document handed to [jsonify].  [patch] is the list of operations of
    the [JsonPatch] object, which is false when it has none. *)
Definition get_response `{Libraries} (uid : json) (patch : option (list json)) : json :=
  match patch with
  | Some (op :: ops) =>
      JDict {[ "response" :=
        JDict {[ "allowed" := JBool true;
                 "uid" := uid;
                 "patch" := JStr (b64encode (patch_text (op :: ops)));
                 "patchtype" := JStr "JSONPatch" ]} ]}
  | _ =>
      JDict {[ "response" :=
        JDict {[ "allowed" := JBool true;
                 "uid" := uid ]} ]}
  end.

(** ** [process_request] *)

Definition ORBIT_SYSTEM_NAMESPACE : json := JStr "orbit-system".

(** What the control plane answers to the dynamic client. *)
Record cluster := Cluster {
  (** [get_client()]: loading the configuration and building the client *)
  client : outcome unit;
  (** [api.get().to_dict().get("items", [])] for the kind [PodSetting] *)
  pod_setting_items : outcome (list json);
  (** [api.get(name=name, namespace=namespace).to_dict()] for the kind
      [NamespaceSetting], [Raise NotFoundError] when there is none *)
  namespace_setting_doc : json → json → outcome json;
}.

Inductive call :=
  | GetClient
  | ListPodSettings
  | GetNamespaceSetting (namespace name : json).

(** The state of the process that a request can change. *)
Record process := Process {
  (** the module global of that name; [None] until the first fetch *)
  ORBIT_SYSTEM_POD_SETTINGS : option (list json);
  (** the calls made to the control plane, latest first *)
  calls : list call;
  (** the exceptions passed to [logger.exception], latest first *)
  logged : list exn;
}.

Definition record_call (c : call) : M process unit :=
  fun p => (Ret tt, Process (ORBIT_SYSTEM_POD_SETTINGS p) (c :: calls p) (logged p)).

Definition logger_exception (e : exn) : M process unit :=
  fun p => (Ret tt, Process (ORBIT_SYSTEM_POD_SETTINGS p) (calls p) (e :: logged p)).

Definition set_pod_settings (l : list json) : M process unit :=
  fun p => (Ret tt, Process (Some l) (calls p) (logged p)).

Definition get_client (k : cluster) : M process unit :=
  record_call GetClient ;;
  lift (client k).

Definition get_pod_settings (k : cluster) : M process (list json) :=
  record_call ListPodSettings ;;
  lift (pod_setting_items k).

Definition get_namespace_setting (k : cluster) (namespace name : json)
    : M process (option json) :=
  record_call (GetNamespaceSetting namespace name) ;;
  match namespace_setting_doc k namespace name with
  | Ret doc => ret (Some doc)
  | Raise NotFoundError => ret None
  | Raise e => lift (Raise e)
  end.

(** The [for] loop inside [try], on the process-wide list and on
    [modified_pod]: the exception that ended it, if one did. *)
Fixpoint apply_pod_settings `{Libraries} (namespace_setting : json)
    (team_pod_settings : list nat) (pod_settings : list json) (modified_pod : json)
    : option exn * (list json * json) :=
  match team_pod_settings with
  | [] => (None, (pod_settings, modified_pod))
  | i :: rest =>
      match pod_settings !! i with
      | Some ps =>
          let '(r, h) := apply_settings_to_pod namespace_setting (Heap ps modified_pod) in
          let pod_settings' := <[i := pod_setting h]> pod_settings in
          match r with
          | Ret _ => apply_pod_settings namespace_setting rest pod_settings' (target h)
          | Raise e => (Some e, (pod_settings', target h))
          end
      | None => apply_pod_settings namespace_setting rest pod_settings modified_pod
      end
  end.

Definition process_request `{Libraries} (k : cluster) (request : json) : M process json :=
  let! dry_run := lift (Py.get request "dryRun" (JBool false)) in
  if Py.truthy dry_run then
    let! uid := lift (Py.getitem request "uid") in
    ret (get_response uid None)
  else
    let! pod := lift (Py.getitem request "object") in
    let modified_pod := pod in
    get_client k ;;
    let! cached := reads (fun p => Ret (ORBIT_SYSTEM_POD_SETTINGS p)) in
    let! pod_settings :=
      match cached with
      | None => get_pod_settings k
      | Some l => ret l
      end in
    set_pod_settings pod_settings ;;
    let! name := lift (Py.getitem request "namespace") in
    let! namespace_setting := get_namespace_setting k ORBIT_SYSTEM_NAMESPACE name in
    match namespace_setting with
    | None =>
        let! uid := lift (Py.getitem request "uid") in
        ret (get_response uid None)
    | Some namespace_setting =>
        let! ns_spec := lift (Py.getitem namespace_setting "spec") in
        let! team_namespace := lift (Py.getitem ns_spec "team") in
        let! team_pod_settings :=
          lift (filter_pod_settings pod_settings team_namespace pod) in
        let '(raised, (pod_settings', modified_pod')) :=
          apply_pod_settings namespace_setting team_pod_settings pod_settings modified_pod in
        set_pod_settings pod_settings' ;;
        match raised with
        | Some e => logger_exception e
        | None => ret tt
        end ;;
        let patch := from_diff pod modified_pod' in
        let! uid := lift (Py.getitem request "uid") in
        ret (get_response uid (Some patch))
    end.

(** ** Stand-ins for the libraries, and the documents of the examples

    The theorems hold for every [Libraries]; the examples run the
    definitions with a pattern matcher that knows literal prefixes and
    [.*], a path language without any expression, a differ that replaces
    the whole document, the JSON text of the operations and base64. *)

Module Examples.

Definition literal_match (pat : string) (name : json) : outcome bool :=
  match name with
  | JStr s => Ret (bool_decide (pat = ".*") || String.prefix pat s)
  | _ => Raise TypeError
  end.

Definition dquote : string := String (ascii_of_nat 34) EmptyString.

Definition quoted (s : string) : string := dquote +:+ s +:+ dquote.

Fixpoint dumps (v : json) : string :=
  match v with
  | JNull => "null"
  | JBool true => "true"
  | JBool false => "false"
  | JNum n => pretty n
  | JStr s => quoted s
  | JList l =>
      "[" +:+
      (fix go (l : list json) : string :=
         match l with
         | [] => ""
         | [x] => dumps x
         | x :: l' => dumps x +:+ ", " +:+ go l'
         end) l +:+ "]"
  | JDict d =>
      "{" +:+
      map_fold (fun k x acc =>
                  quoted k +:+ ": " +:+ dumps x +:+
                  (if bool_decide (acc = "") then "" else ", " +:+ acc)) "" d +:+ "}"
  end.

Definition alphabet : list ascii :=
  String.list_ascii_of_string
    "ABCDEFGHIJKLMNOPQRSTUVWXYZabcdefghijklmnopqrstuvwxyz0123456789+/".

Definition sextet (n : N) : ascii := nth (N.to_nat n) alphabet "="%char.

Fixpoint b64_groups (bytes : list N) : list N :=
  match bytes with
  | a :: b :: c :: rest =>
      [a / 4; (a mod 4) * 16 + b / 16; (b mod 16) * 4 + c / 64; c mod 64]%N
        ++ b64_groups rest
  | [a; b] => [a / 4; (a mod 4) * 16 + b / 16; (b mod 16) * 4; 64]%N
  | [a] => [a / 4; (a mod 4) * 16; 64; 64]%N
  | [] => []
  end.

Definition base64 (s : string) : string :=
  String.string_of_list_ascii
    (sextet <$> b64_groups (N_of_ascii <$> String.list_ascii_of_string s)).

#[export] Instance stand_in : Libraries := {|
  re_compile p :=
    match p with
    | JStr pat => Ret (literal_match pat)
    | _ => Raise TypeError
    end;
  jsonpath_parse p := Raise (LibraryError "jsonpath_ng");
  from_diff a b :=
    if Py.eq a b then []
    else [JDict {[ "op" := JStr "replace"; "path" := JStr ""; "value" := b ]}];
  patch_text ops := dumps (JList ops);
  b64encode := base64;
|}.

Definition obj (l : list (string * json)) : json := JDict (list_to_map l).

Definition named (name value : string) : json :=
  obj [("name", JStr name); ("value", JStr value)].

(** The namespace-setting of [team-a]. *)
Definition ns_team_a : json :=
  obj [("spec", obj [("team", JStr "team-a"); ("user", JStr "alice");
                     ("email", JStr "a@x.com")])].

(** A pod of [team-a] labelled [app=web]. *)
Definition pod_web : json :=
  obj [("metadata", obj [("name", JStr "p"); ("labels", obj [("app", JStr "web")])]);
       ("spec", obj [("containers",
                      JList [obj [("name", JStr "main"); ("image", JStr "img")]])])].

(** A pod-setting for the pods labelled [app=ml]. *)
Definition setting_ml : json :=
  obj [("metadata", obj [("namespace", JStr "team-a"); ("name", JStr "ml")]);
       ("spec", obj [("podSelector", obj [("matchLabels", obj [("app", JStr "ml")])]);
                     ("labels", obj [("injected", JStr "true")])])].

(** A pod-setting for the pods whose label [app] is one of [ml], [etl]. *)
Definition setting_in : json :=
  obj [("metadata", obj [("namespace", JStr "team-a"); ("name", JStr "in")]);
       ("spec", obj [("podSelector",
                      obj [("matchExpressions",
                            JList [obj [("key", JStr "app"); ("operator", JStr "In");
                                        ("values", JList [JStr "ml"; JStr "etl"])]])]);
                     ("labels", obj [("batch", JStr "true")])])].

Definition fresh : process := Process None [] [].

(** The container of [pod_web]. *)
Definition container_main : gmap string json :=
  list_to_map [("name", JStr "main"); ("image", JStr "img")].

(** The spec of a pod-setting for every container, with an image, an
    environment variable and an [envFrom] source. *)
Definition spec_envFrom : gmap string json :=
  list_to_map
    [("podSelector", obj [("matchLabels", obj [("app", JStr "web")])]);
     ("containerSelector", obj [("regex", JStr "*")]);
     ("image", JStr "img:2");
     ("env", JList [named "FOO" "1"]);
     ("envFrom", JList [obj [("configMapRef", obj [("name", JStr "cm")])]])].

Definition setting_envFrom : json :=
  obj [("metadata", obj [("namespace", JStr "team-a"); ("name", JStr "from")]);
       ("spec", JDict spec_envFrom)].

(** A pod-setting that labels the pods labelled [app=web]. *)
Definition setting_label : json :=
  obj [("metadata", obj [("namespace", JStr "team-a"); ("name", JStr "label")]);
       ("spec", obj [("podSelector", obj [("matchLabels", obj [("app", JStr "web")])]);
                     ("labels", obj [("injected", JStr "true")])])].

(** A pod-setting that gives every container of the pods labelled [app=web]
    the user of the namespace. *)
Definition setting_user : json :=
  obj [("metadata", obj [("namespace", JStr "team-a"); ("name", JStr "user")]);
       ("spec", obj [("podSelector", obj [("matchLabels", obj [("app", JStr "web")])]);
                     ("containerSelector", obj [("regex", JStr "*")]);
                     ("env", JList [named "FOO" "1"]);
                     ("injectUserContext", JBool true)])].

(** [setting_user] once it has been applied for [ns_team_a]. *)
Definition setting_user_applied : json :=
  obj [("metadata", obj [("namespace", JStr "team-a"); ("name", JStr "user")]);
       ("spec", obj [("podSelector", obj [("matchLabels", obj [("app", JStr "web")])]);
                     ("containerSelector", obj [("regex", JStr "*")]);
                     ("env", JList [named "FOO" "1"; named "USERNAME" "alice";
                                    named "USEREMAIL" "a@x.com"]);
                     ("injectUserContext", JBool true)])].


(** A control plane that knows the namespace-setting of [team-a] and lists
    [items]. *)
Definition cluster_of (items : list json) : cluster :=
  Cluster (Ret tt) (Ret items)
    (fun namespace name =>
       if Py.eq name (JStr "team-a") then Ret ns_team_a else Raise NotFoundError).


(** The admission request for [pod_web]. *)
Definition request_web : gmap string json :=
  list_to_map [("uid", JStr "u1"); ("namespace", JStr "team-a"); ("object", pod_web)].

(** A pod-setting whose [env] names the variable [A] twice. *)
Definition setting_twice : json :=
  obj [("metadata", obj [("namespace", JStr "team-a"); ("name", JStr "twice")]);
       ("spec", obj [("podSelector", obj [("matchLabels", obj [("app", JStr "web")])]);
                     ("containerSelector", obj [("regex", JStr "*")]);
                     ("env", JList [named "A" "1"; named "A" "2"])])].

(** [pod_web] with [env] as the list [l] in its container. *)
Definition pod_web_env (l : list json) : json :=
  obj [("metadata", obj [("name", JStr "p"); ("labels", obj [("app", JStr "web")])]);
       ("spec", obj [("containers",
                      JList [obj [("name", JStr "main"); ("image", JStr "img");
                                  ("env", JList l)]])])].

(** A pod-setting that sets the variable [A]. *)
Definition setting_once : json :=
  obj [("metadata", obj [("namespace", JStr "team-a"); ("name", JStr "once")]);
       ("spec", obj [("podSelector", obj [("matchLabels", obj [("app", JStr "web")])]);
                     ("containerSelector", obj [("regex", JStr "*")]);
                     ("env", JList [named "A" "1"])])].

(** An [envFrom] source. *)
Definition config_map : json := obj [("configMapRef", obj [("name", JStr "cm")])].

(** [pod_web] whose container has the fields given besides its name. *)
Definition pod_web_with (fields : list (string * json)) : json :=
  obj [("metadata", obj [("name", JStr "p"); ("labels", obj [("app", JStr "web")])]);
       ("spec", obj [("containers", JList [obj (("name", JStr "main") :: fields)])])].

(** A pod-setting of another namespace. *)
Definition setting_other : json :=
  obj [("metadata", obj [("namespace", JStr "team-b"); ("name", JStr "other")]);
       ("spec", obj [("podSelector", obj [("matchLabels", obj [("app", JStr "web")])]);
                     ("labels", obj [("injected", JStr "b")])])].

(** A pod-setting of [team-a] without spec. *)
Definition setting_no_spec : json :=
  obj [("metadata", obj [("namespace", JStr "team-a"); ("name", JStr "empty")])].

(** The libraries of [stand_in] with a path language in which every path
    finds [values]. *)
Definition finds (values : list json) : Libraries := {|
  re_compile := re_compile (Libraries := stand_in);
  jsonpath_parse p := Ret (fun doc => Ret values);
  from_diff := from_diff (Libraries := stand_in);
  patch_text := patch_text (Libraries := stand_in);
  b64encode := b64encode (Libraries := stand_in);
|}.

(** Two containers, and one without name. *)
Definition containers_three : list json :=
  [obj [("name", JStr "main"); ("image", JStr "img")];
   obj [("name", JStr "side"); ("image", JStr "envoy")];
   obj [("image", JStr "anonymous")]].

(** A container with fields of every kind. *)
Definition container_full : json :=
  obj [("name", JStr "main"); ("image", JStr "img");
       ("ports", JList [obj [("containerPort", JNum 80)]]);
       ("lifecycle", obj [("preStop", obj [("exec", JStr "old")]);
                          ("postStart", obj [("exec", JStr "keep")])]);
       ("env", JList [named "FOO" "0"; named "BAR" "1"]);
       ("volumeMounts", JList [obj [("name", JStr "data"); ("mountPath", JStr "/old")];
                               obj [("name", JStr "tmp"); ("mountPath", JStr "/tmp")]])].

(** A pod with fields of every kind around [container_full]. *)
Definition pod_full : json :=
  obj [("apiVersion", JStr "v1"); ("kind", JStr "Pod");
       ("metadata", obj [("name", JStr "p");
                         ("labels", obj [("app", JStr "web"); ("injected", JStr "false")])]);
       ("spec", obj [("serviceAccountName", JStr "default");
                     ("restartPolicy", JStr "Always");
                     ("nodeSelector", obj [("zone", JStr "a")]);
                     ("volumes", JList [obj [("name", JStr "data"); ("hostPath", JStr "/h")];
                                        obj [("name", JStr "tmp"); ("emptyDir", obj [])]]);
                     ("initContainers", JList [obj [("name", JStr "init");
                                                    ("image", JStr "busybox")]]);
                     ("containers", JList [container_full])])].

(** A pod-setting that gives every field but [envFrom]. *)
Definition setting_full : json :=
  obj [("metadata", obj [("namespace", JStr "team-a"); ("name", JStr "full")]);
       ("spec", obj [("podSelector", obj [("matchLabels", obj [("app", JStr "web")])]);
                     ("containerSelector", obj [("regex", JStr "ma")]);
                     ("serviceAccountName", JStr "sa");
                     ("labels", obj [("injected", JStr "true")]);
                     ("annotations", obj [("owner", JStr "team-a")]);
                     ("nodeSelector", obj [("pool", JStr "gpu")]);
                     ("securityContext", obj [("runAsUser", JNum 1000)]);
                     ("volumes", JList [obj [("name", JStr "data"); ("emptyDir", obj [])]]);
                     ("image", JStr "img:2");
                     ("imagePullPolicy", JStr "Always");
                     ("lifecycle", obj [("preStop", obj [("exec", JStr "new")])]);
                     ("command", JList [JStr "run"]);
                     ("args", JList [JStr "-v"]);
                     ("env", JList [named "FOO" "1"; named "USERNAME" "bob"]);
                     ("volumeMounts", JList [obj [("name", JStr "data");
                                                  ("mountPath", JStr "/new")]]);
                     ("injectUserContext", JBool true)])].

(** A namespace-setting without user. *)
Definition ns_no_user : json :=
  obj [("spec", obj [("team", JStr "team-a")])].

(** A control plane that fails to list the pod-settings. *)
Definition cluster_unlisted : cluster :=
  Cluster (Ret tt) (Raise (ApiError "500"))
    (fun namespace name => Ret ns_team_a).

(** [request_web] without uid. *)
Definition request_no_uid : gmap string json :=
  list_to_map [("namespace", JStr "team-a"); ("object", pod_web)].

End Examples.

(** ** Notions the statements use *)

(** The allow response without patch. *)
Definition allow (uid : json) : json :=
  JDict {[ "response" := JDict {[ "allowed" := JBool true; "uid" := uid ]} ]}.

(** The calls a request that is not a dry run makes, latest first. *)
Definition calls_of_lookup (p : process) (name : json) : list call :=
  GetNamespaceSetting ORBIT_SYSTEM_NAMESPACE name ::
  match ORBIT_SYSTEM_POD_SETTINGS p with
  | Some _ => []
  | None => [ListPodSettings]
  end ++ GetClient :: calls p.

(** The pod-setting list after the second step: the one held, or the one
    fetched. *)
Definition settings_listed (k : cluster) (p : process) (l : list json) : Prop :=
  match ORBIT_SYSTEM_POD_SETTINGS p with
  | Some held => held = l
  | None => pod_setting_items k = Ret l
  end.

(** [request.get("dryRun", False)] is false. *)
Definition not_dry_run (r : gmap string json) : Prop :=
  Py.truthy (default (JBool false) (r !! "dryRun")) = false.

(** A measure of documents that decreases from a list or a dict to its
    elements. *)
Fixpoint weight (v : json) : nat :=
  match v with
  | JList l => S (foldr (fun x acc => weight x + acc)%nat 0%nat l)
  | JDict d => S (map_fold (fun _ x acc => weight x + acc)%nat 0%nat d)
  | _ => 1%nat
  end.

(** [m] keeps [P], whatever its outcome. *)
Definition keeps {S A} (P : S → Prop) (m : M S A) : Prop :=
  ∀ s r s', m s = (r, s') → P s → P s'.

(** The object is a dict that agrees with [d0] on every key but [f]. *)
Definition same_but (f : string) (d0 : gmap string json) (obj : json) : Prop :=
  ∃ d, obj = JDict d ∧ ∀ k, k ≠ f → d !! k = d0 !! k.

(** A merge strategy writes the field it is given, and nothing else. *)
Definition writes_own_field (st : strategy) : Prop :=
  ∀ f ps_spec d0, keeps (same_but f d0) (st f ps_spec).

(** A dict without the key [f]. *)
Definition lacks (f : string) (obj : json) : Prop :=
  ∃ d, obj = JDict d ∧ d !! f = None.


(** The pod-setting without the field [env] of its spec. *)
Definition without_spec_env (ps : json) : json :=
  match ps with
  | JDict d =>
      match d !! "spec" with
      | Some (JDict spec) => JDict (<["spec" := JDict (delete "env" spec)]> d)
      | _ => ps
      end
  | _ => ps
  end.

(** [ps_spec.get("injectUserContext", False)] is true for the pod-setting. *)
Definition injects_user_context (ps : json) : bool :=
  match Py.getitem ps "spec" with
  | Ret ps_spec =>
      match Py.get ps_spec "injectUserContext" (JBool false) with
      | Ret flag => Py.truthy flag
      | Raise _ => false
      end
  | Raise _ => false
  end.

(** The value of the key [k] of [obj], when [obj] is a dict that has it. *)
Definition field_of (obj : json) (k : string) : option json :=
  match obj with
  | JDict d => d !! k
  | _ => None
  end.

(** The names of the entries of a name-keyed list. *)
Definition names_of (l : list json) : list json :=
  omap (fun e => field_of e "name") l.

(** No two entries of the list [obj[f]] have the same name. *)
Definition field_distinct (obj : json) (f : string) : Prop :=
  ∀ l, field_of obj f = Some (JList l) → NoDup (names_of l).

(** The names of the name-keyed fields of a pod-setting, of a container and
    of a pod are distinct. *)
Definition setting_distinct (ps : json) : Prop :=
  ∀ ps_spec, field_of ps "spec" = Some ps_spec →
    field_distinct ps_spec "volumes" ∧ field_distinct ps_spec "env" ∧
    field_distinct ps_spec "volumeMounts".

Definition container_distinct (c : json) : Prop :=
  field_distinct c "env" ∧ field_distinct c "volumeMounts".

Definition containers_distinct (pod_spec : json) (field : string) : Prop :=
  ∀ cs c, field_of pod_spec field = Some (JList cs) → c ∈ cs → container_distinct c.

Definition spec_distinct (pod_spec : json) : Prop :=
  field_distinct pod_spec "volumes" ∧
  containers_distinct pod_spec "initContainers" ∧
  containers_distinct pod_spec "containers".

Definition pod_distinct (pod : json) : Prop :=
  ∀ pod_spec, field_of pod "spec" = Some pod_spec → spec_distinct pod_spec.

(** A merge strategy leaves the fields it is not given as they are. *)
Definition leaves_other_fields (st : strategy) : Prop :=
  ∀ f ps_spec g v, g ≠ f → keeps (fun obj => field_of obj g = v) (st f ps_spec).

(** The invariant of the calls on a container. *)
Definition container_call_distinct (h : heap) : Prop :=
  setting_distinct (pod_setting h) ∧ container_distinct (target h).

(** The invariant of the calls on a pod. *)
Definition pod_call_distinct (h : heap) : Prop :=
  setting_distinct (pod_setting h) ∧ pod_distinct (target h).

(** Running [m] again from [s] changes nothing, when it completes. *)
Definition settled {S} (m : M S unit) (s : S) : Prop :=
  ∀ s', m s = (Ret tt, s') → s' = s.

(** Once [m] has completed, it is settled on every state whose cell [cell]
    is the one [m] left. *)
Definition settles {S V} (cell : S → V) (m : M S unit) : Prop :=
  ∀ s s', m s = (Ret tt, s') → ∀ s2, cell s2 = cell s' → settled m s2.

(** The pod-setting has been through the [injectUserContext] block for the
    namespace-setting. *)
Definition injected (namespace_setting ps : json) : Prop :=
  ∃ ns_spec ps0,
    Py.getitem namespace_setting "spec" = Ret ns_spec ∧
    within "spec" (inject_user_context ns_spec) ps0 = (Ret tt, ps).

(** The pod-setting has nothing for [envFrom]. *)
Definition no_envFrom (ps : json) : Prop :=
  ∀ ps_spec, field_of ps "spec" = Some ps_spec → field_of ps_spec "envFrom" = None.

(** The container is as the pod-setting leaves it: applying the pod-setting
    to it changes neither. *)
Definition container_done (ns : json) (ps c : json) : Prop :=
  settled (apply_settings_to_container ns) (Heap ps c).

(** The field [f] of the object [pod[part]]. *)
Definition pod_cell (pod : json) (part f : string) : option json :=
  match field_of pod part with
  | Some sub => field_of sub f
  | None => None
  end.

(** What the container selector reads of the containers: for each, what
    [c.get("name", "")] gives. *)
Definition container_names (containers : json) : outcome (list (outcome json)) :=
  let? cs := Py.iter containers in
  Ret ((fun c => Py.get c "name" (JStr "")) <$> cs).

(** The list [pod_spec.get(field, [])] of the pod. *)
Definition containers_of (pod : json) (field : string) : json :=
  default (JList []) (pod_cell pod "spec" field).

(** The loop of [apply_to_selected] over the selected containers. *)
Definition container_loop (ns : json) (field : string) (selected : list nat)
    : M heap unit :=
  for_each selected (fun i => at_container field i (apply_settings_to_container ns)).

(** The container selector of the pod-setting is a path expression. *)
Definition selects_by_path (selector : json) : Prop :=
  Py.contains selector (JStr "regex") = Ret false ∧
  Py.contains selector (JStr "jsonpath") = Ret true.

(** [ps_spec.get("containerSelector", {})] of the pod-setting. *)
Definition selector_of (ps : json) : outcome json :=
  let? ps_spec := Py.getitem ps "spec" in
  Py.get ps_spec "containerSelector" (JDict ∅).

(** The pod-setting is of the namespace: what the first test of the loop
    of [filter_pod_settings] reads. *)
Definition in_namespace (namespace pod_setting : json) : Prop :=
  ∃ metadata ps_namespace,
    Py.getitem pod_setting "metadata" = Ret metadata ∧
    Py.getitem metadata "namespace" = Ret ps_namespace ∧
    Py.eq ps_namespace namespace = true.

(** The fields of the pod that [apply_settings_to_pod] assigns: the
    object of the pod that holds each, and its key. *)
Definition pod_written : list (string * string) :=
  ((fun pfs : string * (string * strategy) => (pfs.1, pfs.2.1)) <$> pod_fields)
  ++ [("spec", "initContainers"); ("spec", "containers")].

(** [e["name"] not in names], false when [e] has no name to read. *)
Definition name_not_in (names : list json) (e : json) : bool :=
  match Py.getitem e "name" with
  | Ret name => negb (Py.mem name names)
  | Raise _ => false
  end.

(** * Properties *)

(** ** Running statements *)

Lemma obind_Ret {A B} (o : outcome A) (f : A → outcome B) b :
  obind o f = Ret b → ∃ a, o = Ret a ∧ f a = Ret b.
Proof. destruct o; simpl; [eauto | discriminate]. Qed.

Lemma bind_Ret {S A B} (m : M S A) (f : A → M S B) s b s' :
  bind m f s = (Ret b, s') → ∃ a s1, m s = (Ret a, s1) ∧ f a s1 = (Ret b, s').
Proof.
  unfold bind. destruct (m s) as [[a|e] s1]; [eauto | discriminate].
Qed.

Lemma bind_run {S A B} (m : M S A) (f : A → M S B) s r s' :
  bind m f s = (r, s') →
  (∃ a s1, m s = (Ret a, s1) ∧ f a s1 = (r, s')) ∨
  (∃ e, m s = (Raise e, s') ∧ r = Raise e).
Proof.
  unfold bind. destruct (m s) as [[a|e] s1]; intros Hr.
  - left; eauto.
  - right. injection Hr as <- <-. eauto.
Qed.

Lemma lift_run {S A} (o : outcome A) (s : S) r s' :
  lift o s = (r, s') → r = o ∧ s' = s.
Proof. unfold lift. intros [= <- <-]. done. Qed.

Lemma reads_run {S A} (f : S → outcome A) (s : S) r s' :
  reads f s = (r, s') → r = f s ∧ s' = s.
Proof. unfold reads. intros [= <- <-]. done. Qed.

Lemma ret_run {S A} (a : A) (s : S) r s' :
  ret a s = (r, s') → r = Ret a ∧ s' = s.
Proof. unfold ret. intros [= <- <-]. done. Qed.

Lemma updates_Ret {S} (f : S → outcome S) s u s' :
  updates f s = (Ret u, s') → f s = Ret s'.
Proof. unfold updates. destruct (f s); intros Hr; by simplify_eq. Qed.

(** Break a successful run into the runs of its statements. *)
Ltac run_inv :=
  repeat match goal with
    | H : bind _ _ _ = (Ret _, _) |- _ =>
        let a := fresh "a" in let s := fresh "s" in
        let H1 := fresh "Hrun" in let H2 := fresh "Hrun" in
        apply bind_Ret in H as (a & s & H1 & H2)
    | H : lift _ _ = (_, _) |- _ => apply lift_run in H as [? ?]; subst
    | H : reads _ _ = (_, _) |- _ => apply reads_run in H as [? ?]; subst
    | H : ret _ _ = (_, _) |- _ => apply ret_run in H as [? ?]; subst
    | H : obind _ _ = Ret _ |- _ =>
        let a := fresh "a" in let H1 := fresh "Hval" in
        apply obind_Ret in H as (a & H1 & H)
    | H : Ret _ = Ret _ |- _ => injection H as H; subst
    | H : Raise _ = Ret _ |- _ => discriminate H
    | H : Ret _ = Raise _ |- _ => discriminate H
    end.

(** ** The selector filter *)

(** Whenever the loop body completes for a pod-setting, whether it is
    appended depends on its namespace alone. *)
Lemma pod_setting_appended_by_namespace pod_setting namespace pod b :
  pod_setting_appended pod_setting namespace pod = Ret b →
  ∃ metadata ps_namespace,
    Py.getitem pod_setting "metadata" = Ret metadata ∧
    Py.getitem metadata "namespace" = Ret ps_namespace ∧
    b = Py.eq ps_namespace namespace.
Proof.
  unfold pod_setting_appended. intros Hb.
  apply obind_Ret in Hb as (metadata & Hm & Hb).
  apply obind_Ret in Hb as (ps_namespace & Hn & Hb).
  exists metadata, ps_namespace. split; [done|]. split; [done|].
  destruct (Py.eq ps_namespace namespace); simpl in Hb.
  - run_inv. done.
  - by injection Hb.
Qed.

(** C1.  The filter does not do what the claim says.  For the pod labelled
    [app=web], the pod-setting whose [matchLabels] asks for [app=ml] and the
    pod-setting whose [matchExpressions] asks for [app In (ml, etl)] are both
    in the list returned: the [continue] of a failed label or expression
    only moves to the next label or expression. *)
Theorem filter_pod_settings_keeps_unmatched :
  filter_pod_settings [Examples.setting_ml; Examples.setting_in]
    (JStr "team-a") Examples.pod_web
  = Ret [0; 1]%nat.
Proof. vm_compute. reflexivity. Qed.

(** ** The response *)

Lemma get_response_no_patch `{Libraries} uid : get_response uid None = allow uid.
Proof. reflexivity. Qed.

Lemma get_response_empty_patch `{Libraries} uid : get_response uid (Some []) = allow uid.
Proof. reflexivity. Qed.


(** C9.  A response with a patch says [allowed: true], echoes the uid and
    carries the encoded patch, but the marker is written under the key
    [patchtype]: the response has no field [patchType]. *)
Theorem get_response_patchtype_key `{Libraries} uid op ops :
  ∃ r, get_response uid (Some (op :: ops)) = JDict {[ "response" := JDict r ]} ∧
       r !! "allowed" = Some (JBool true) ∧
       r !! "uid" = Some uid ∧
       r !! "patch" = Some (JStr (b64encode (patch_text (op :: ops)))) ∧
       r !! "patchtype" = Some (JStr "JSONPatch") ∧
       r !! "patchType" = None.
Proof.
  simpl. eexists. split; [reflexivity|]. by simplify_map_eq.
Qed.

(** ** The request handler: the paths without mutation *)

(** C7.  A dry-run request is answered with an allow response without
    patch, and the state of the process is the one before: no call to the
    control plane is made and the pod-setting list is not populated. *)
Theorem process_request_dry_run `{Libraries} k (r : gmap string json) uid p :
  r !! "dryRun" = Some (JBool true) →
  r !! "uid" = Some uid →
  process_request k (JDict r) p = (Ret (allow uid), p).
Proof.
  intros Hdry Huid. unfold process_request, bind, lift; simpl.
  rewrite Hdry; simpl. rewrite Huid. reflexivity.
Qed.

Lemma process_request_dry_run_witness :
  process_request (H := Examples.stand_in) (Cluster (Ret tt) (Ret []) (fun _ _ => Raise NotFoundError))
    (Examples.obj [("uid", JStr "u1"); ("dryRun", JBool true);
                   ("namespace", JStr "team-a"); ("object", Examples.pod_web)])
    Examples.fresh
  = (Ret (allow (JStr "u1")), Examples.fresh).
Proof. apply process_request_dry_run; reflexivity. Defined.




(** ** Python equality is reflexive *)

Lemma weight_list_elem x l : x ∈ l → (weight x < weight (JList l))%nat.
Proof.
  simpl. induction 1 as [x l|x y l _ IH]; simpl in *; lia.
Qed.

Lemma weight_dict_elem (d : gmap string json) k x :
  d !! k = Some x → (weight x < weight (JDict d))%nat.
Proof.
  simpl. revert k x.
  induction d as [|i y d Hi Hfold IH] using map_first_key_ind; intros k x Hk.
  - by rewrite lookup_empty in Hk.
  - rewrite map_fold_insert_first_key by done.
    destruct (decide (i = k)) as [->|Hne].
    + rewrite lookup_insert_eq in Hk. injection Hk as ->. lia.
    + rewrite lookup_insert_ne in Hk by done. specialize (IH _ _ Hk). lia.
Qed.


Lemma json_nested_ind (P : json → Prop) :
  P JNull → (∀ b, P (JBool b)) → (∀ n, P (JNum n)) → (∀ s, P (JStr s)) →
  (∀ l, Forall P l → P (JList l)) →
  (∀ d : gmap string json, map_Forall (fun _ => P) d → P (JDict d)) →
  ∀ v, P v.
Proof.
  intros HN HB HZ HS HL HD v.
  remember (weight v) as n eqn:Hn. revert v Hn.
  induction n as [n IH] using lt_wf_ind. intros v ->.
  destruct v as [| | | |l|d]; auto.
  - apply HL, Forall_forall. intros x Hx.
    eapply IH; [|reflexivity]. by apply weight_list_elem.
  - apply HD. intros k x Hk.
    eapply IH; [|reflexivity]. by eapply weight_dict_elem.
Qed.

Lemma all_true_fold (m : gmap string bool) :
  map_Forall (fun _ b => b = true) m →
  map_fold (fun _ (b : bool) acc => b && acc) true m = true.
Proof.
  induction m as [|i b m Hi Hfold IH] using map_first_key_ind; intros Hall.
  - by rewrite map_fold_empty.
  - rewrite map_fold_insert_first_key by done.
    apply map_Forall_insert in Hall as [-> Hall]; [|done].
    by rewrite IH.
Qed.

Lemma py_eq_refl v : Py.eq v v = true.
Proof.
  induction v as [|b|n|s|l IH|d IH] using json_nested_ind; simpl;
    try done; try by apply bool_decide_eq_true.
  - induction IH as [|x l Hx _ IHl]; [done|]. by rewrite Hx, IHl.
  - apply all_true_fold. intros k b. rewrite lookup_merge.
    destruct (d !! k) as [x|] eqn:Hk; simpl; [|done].
    intros [= <-]. by eapply IH.
Qed.

Lemma py_eq_str s v : Py.eq v (JStr s) = true → v = JStr s.
Proof.
  destruct v; simpl; try done. intros Hb. apply bool_decide_eq_true in Hb. by subst.
Qed.

Lemma py_mem_elem x l : x ∈ l → Py.mem x l = true.
Proof.
  unfold Py.mem. induction 1 as [x l|x y l _ IH]; simpl.
  - by rewrite py_eq_refl.
  - by rewrite IH, orb_true_r.
Qed.

(** ** Invariants of statements *)

Lemma keeps_ret {S A} (P : S → Prop) (a : A) : keeps P (ret a).
Proof. intros s r s' Hr HP. apply ret_run in Hr as [_ ->]. done. Qed.

Lemma keeps_lift {S A} (P : S → Prop) (o : outcome A) : keeps P (lift o).
Proof. intros s r s' Hr HP. apply lift_run in Hr as [_ ->]. done. Qed.

Lemma keeps_reads {S A} (P : S → Prop) (f : S → outcome A) : keeps P (reads f).
Proof. intros s r s' Hr HP. apply reads_run in Hr as [_ ->]. done. Qed.

Lemma keeps_bind {S A B} (P : S → Prop) (m : M S A) (f : A → M S B) :
  keeps P m → (∀ a, keeps P (f a)) → keeps P (bind m f).
Proof.
  intros Hm Hf s r s' Hr HP.
  apply bind_run in Hr as [(a & s1 & H1 & H2)|(e & H1 & _)]; [|by eauto].
  eapply Hf; [done|]. by eapply Hm.
Qed.

Lemma keeps_updates {S} (P : S → Prop) (f : S → outcome S) :
  (∀ s s', f s = Ret s' → P s → P s') → keeps P (updates f).
Proof.
  intros Hf s r s' Hr HP. unfold updates in Hr.
  destruct (f s) as [s1|e] eqn:Hs; simplify_eq; eauto.
Qed.

Lemma keeps_for_each {S A} (P : S → Prop) (l : list A) (body : A → M S unit) :
  (∀ x, x ∈ l → keeps P (body x)) → keeps P (for_each l body).
Proof.
  induction l as [|x l IH]; intros Hb; simpl.
  - apply keeps_ret.
  - apply keeps_bind.
    + apply Hb. left.
    + intros _. apply IH. intros y Hy. apply Hb. by right.
Qed.

Lemma keeps_when_in {S} (P : S → Prop) ps_spec field (stmt : M S unit) :
  keeps P stmt → keeps P (when_in ps_spec field stmt).
Proof.
  intros Hs. unfold when_in. apply keeps_bind; [apply keeps_lift|].
  intros [|]; [done|apply keeps_ret].
Qed.

Lemma keeps_on_target {A} (P : json → Prop) (m : M json A) :
  keeps P m → keeps (fun h => P (target h)) (on_target m).
Proof.
  intros Hm h r h' Hr HP. unfold on_target in Hr.
  destruct (m (target h)) as [r1 t] eqn:Ht. simplify_eq. simpl. by eapply Hm.
Qed.

Lemma keeps_on_target_setting {A} (P : json → Prop) (m : M json A) :
  keeps (fun h => P (pod_setting h)) (on_target m).
Proof.
  intros h r h' Hr HP. unfold on_target in Hr.
  destruct (m (target h)) as [r1 t]. by simplify_eq.
Qed.

Lemma keeps_on_setting {A} (P : json → Prop) (m : M json A) :
  keeps P m → keeps (fun h => P (pod_setting h)) (on_setting m).
Proof.
  intros Hm h r h' Hr HP. unfold on_setting in Hr.
  destruct (m (pod_setting h)) as [r1 t] eqn:Ht. simplify_eq. simpl. by eapply Hm.
Qed.

Lemma keeps_on_setting_target {A} (P : json → Prop) (m : M json A) :
  keeps (fun h => P (target h)) (on_setting m).
Proof.
  intros h r h' Hr HP. unfold on_setting in Hr.
  destruct (m (pod_setting h)) as [r1 t]. by simplify_eq.
Qed.

Lemma same_but_refl f d : same_but f d (JDict d).
Proof. by exists d. Qed.

Lemma keeps_setitem f d0 v : keeps (same_but f d0) (setitem f v).
Proof.
  apply keeps_updates. intros s s' Hs (d & -> & Hd). simpl in Hs. simplify_eq.
  eexists. split; [done|]. intros k Hk. rewrite lookup_insert_ne by done. auto.
Qed.

Lemma keeps_within {A} (P : json → Prop) k (m : M json A) :
  (∀ d sub r sub', d !! k = Some sub → m sub = (r, sub') →
     P (JDict d) → P (JDict (<[k := sub']> d))) →
  keeps P (within k m).
Proof.
  intros Hm s r s' Hr HP. unfold within in Hr.
  destruct s as [| | | | |d]; try by simplify_eq.
  destruct (d !! k) as [sub|] eqn:Hk; [|by simplify_eq].
  destruct (m sub) as [r1 sub'] eqn:Hsub. simplify_eq. eauto.
Qed.

Ltac keeps_tac :=
  repeat first
    [ apply keeps_setitem | apply keeps_lift | apply keeps_reads | apply keeps_ret
    | apply keeps_bind; [|intros ?] ].

Lemma replace_with_get_writes : writes_own_field replace_with_get.
Proof. intros f sp d0. unfold replace_with_get. keeps_tac. Qed.

Lemma replace_with_item_writes : writes_own_field replace_with_item.
Proof. intros f sp d0. unfold replace_with_item. keeps_tac. Qed.

Lemma key_merge_writes : writes_own_field key_merge.
Proof. intros f sp d0. unfold key_merge. keeps_tac. Qed.

Lemma extend_field_writes : writes_own_field extend_field.
Proof. intros f sp d0. unfold extend_field. keeps_tac. Qed.

Lemma replace_or_append_writes : writes_own_field replace_or_append.
Proof.
  intros f sp d0. unfold replace_or_append. keeps_tac.
Qed.

Lemma container_fields_write :
  Forall (fun fs : string * strategy => writes_own_field fs.2) container_fields.
Proof.
  repeat constructor; simpl;
    auto using replace_with_get_writes, replace_with_item_writes, key_merge_writes,
      extend_field_writes, replace_or_append_writes.
Qed.

Lemma keeps_lacks (f : string) (st : strategy) g ps_spec :
  writes_own_field st → g ≠ f → keeps (lacks f) (st g ps_spec).
Proof.
  intros Hst Hne s r s' Hr (d & -> & Hd).
  destruct (Hst g ps_spec d _ _ _ Hr (same_but_refl _ _)) as (d' & -> & Hd').
  exists d'. split; [done|]. rewrite Hd' by done. done.
Qed.

Lemma for_each_app {S A} (l1 l2 : list A) (body : A → M S unit) s :
  for_each (l1 ++ l2) body s = (for_each l1 body ;; for_each l2 body) s.
Proof.
  revert s. induction l1 as [|x l1 IH]; intros s; simpl.
  - done.
  - unfold bind. destruct (body x s) as [[[]|e] s1]; [|done].
    rewrite IH. done.
Qed.

(** The [injectUserContext] block writes the field [env] of [ps_spec]. *)
Lemma inject_user_context_writes ns_spec d0 :
  keeps (same_but "env" d0) (inject_user_context ns_spec).
Proof.
  unfold inject_user_context. apply keeps_bind; [apply keeps_reads|].
  intros flag. destruct (Py.truthy flag); keeps_tac.
Qed.

Lemma inject_keeps_field f (spec : gmap string json) r ps ps' ns_spec :
  f ≠ "env" →
  Py.getitem ps "spec" = Ret (JDict spec) →
  within "spec" (inject_user_context ns_spec) ps = (r, ps') →
  ∃ spec', Py.getitem ps' "spec" = Ret (JDict spec') ∧ spec' !! f = spec !! f.
Proof.
  intros Hne Hspec Hr. unfold within in Hr.
  destruct ps as [| | | | |d]; try done. simpl in Hspec.
  destruct (d !! "spec") as [sub|] eqn:Hsub; [|discriminate Hspec]. simplify_eq.
  destruct (inject_user_context ns_spec (JDict spec)) as [r1 sub'] eqn:Hi.
  simplify_eq.
  destruct (inject_user_context_writes ns_spec spec _ _ _ Hi (same_but_refl _ _))
    as (spec' & -> & Hs).
  exists spec'. simpl. rewrite lookup_insert_eq. split; [done|]. by apply Hs.
Qed.

(** ** The [envFrom] statement *)

Lemma extend_field_lacking f ps_spec obj :
  lacks f obj → extend_field f ps_spec obj = (Raise (KeyError f), obj).
Proof.
  intros (d & -> & Hd). unfold extend_field, bind, reads. simpl. by rewrite Hd.
Qed.

Lemma contains_key (spec : gmap string json) f :
  Py.contains (JDict spec) (JStr f) = Ret (bool_decide (is_Some (spec !! f))).
Proof. done. Qed.

Lemma for_each_keeps_lacks ps_spec (fields : list (string * strategy)) f :
  Forall (fun fs : string * strategy => writes_own_field fs.2) fields →
  f ∉ fields.*1 →
  keeps (lacks f) (for_each fields (override ps_spec)).
Proof.
  intros Hw Hf. apply keeps_for_each. intros [g st] Hin.
  unfold override. apply keeps_when_in. simpl.
  apply keeps_lacks.
  - rewrite Forall_forall in Hw. by apply (Hw _ Hin).
  - intros ->. apply Hf. apply list_elem_of_fmap. by exists (f, st).
Qed.

Lemma fields_before_envFrom_write :
  Forall (fun fs : string * strategy => writes_own_field fs.2) fields_before_envFrom.
Proof.
  repeat constructor; simpl;
    auto using replace_with_get_writes, replace_with_item_writes, key_merge_writes,
      replace_or_append_writes.
Qed.

(** The statements from the [envFrom] one on, for a container without
    [envFrom] and a pod-setting with it. *)
Lemma envFrom_statement_raises (spec : gmap string json) obj :
  is_Some (spec !! "envFrom") → lacks "envFrom" obj →
  for_each [("envFrom", extend_field); ("volumeMounts", replace_or_append)]
    (override (JDict spec)) obj
  = (Raise (KeyError "envFrom"), obj).
Proof.
  intros Hs Hl. simpl. unfold override at 1. unfold when_in, bind, lift. simpl.
  rewrite bool_decide_eq_true_2 by done.
  by rewrite extend_field_lacking.
Qed.

Lemma container_fields_raise (spec : gmap string json) obj r obj' :
  is_Some (spec !! "envFrom") → lacks "envFrom" obj →
  for_each container_fields (override (JDict spec)) obj = (r, obj') →
  lacks "envFrom" obj' ∧
  match r with
  | Ret _ => False
  | Raise e =>
      for_each fields_before_envFrom (override (JDict spec)) obj = (Raise e, obj') ∨
      e = KeyError "envFrom" ∧
      for_each fields_before_envFrom (override (JDict spec)) obj = (Ret tt, obj')
  end.
Proof.
  intros Hs Hl. unfold container_fields. rewrite for_each_app. intros Hr.
  apply bind_run in Hr as [([] & obj1 & H1 & H2)|(e & H1 & ->)].
  - assert (lacks "envFrom" obj1) as Hl1.
    { eapply for_each_keeps_lacks; [apply fields_before_envFrom_write| |done..].
      compute_done. }
    rewrite envFrom_statement_raises in H2 by done. simplify_eq. eauto.
  - split; [|by left].
    eapply for_each_keeps_lacks; [apply fields_before_envFrom_write| |done..].
    compute_done.
Qed.

(** The runs of the body of [apply_settings_to_container]: it raises
    before the merge statements, whatever they are, or it runs them with the
    [ps_spec] that the [injectUserContext] block leaves. *)
Lemma settings_to_container_cases ns ps c :
  (∃ e ps1, ∀ fields,
     settings_to_container fields ns (Heap ps c) = (Raise e, Heap ps1 c)) ∨
  (∃ ns_spec ps1 spec1,
     Py.getitem ns "spec" = Ret ns_spec ∧
     within "spec" (inject_user_context ns_spec) ps = (Ret tt, ps1) ∧
     Py.getitem ps1 "spec" = Ret spec1 ∧
     ∀ fields,
       settings_to_container fields ns (Heap ps c)
       = let '(r, c') := for_each fields (override spec1) c in (r, Heap ps1 c')).
Proof.
  unfold settings_to_container, bind, lift, reads, on_setting, on_target.
  cbn [pod_setting target].
  destruct (Py.getitem ns "spec") as [ns_spec|e]; [|by left; eauto].
  destruct (Py.getitem ps "spec") as [spec|e] eqn:Hspec; [|by left; eauto].
  destruct (within "spec" (inject_user_context ns_spec) ps) as [[[]|e] ps1] eqn:Hin;
    [|by left; eauto].
  cbn [pod_setting target].
  destruct (Py.getitem ps1 "spec") as [spec1|e] eqn:Hspec1; [|by left; eauto].
  right. exists ns_spec, ps1, spec1. done.
Qed.

(** C10.  When the spec of the pod-setting has the field [envFrom] and the
    container has no key [envFrom], [apply_settings_to_container] never
    returns: it raises, and the container it leaves still has no [envFrom].
    When the statements before the [envFrom] one complete, the exception is
    the [KeyError] of [container["envFrom"]]. *)
Theorem envFrom_needs_container_envFrom ns ps (spec cd : gmap string json) :
  Py.getitem ps "spec" = Ret (JDict spec) →
  is_Some (spec !! "envFrom") →
  cd !! "envFrom" = None →
  (∃ e h', apply_settings_to_container ns (Heap ps (JDict cd)) = (Raise e, h') ∧
           lacks "envFrom" (target h')) ∧
  (∀ h1, settings_to_container fields_before_envFrom ns (Heap ps (JDict cd)) = (Ret tt, h1) →
         apply_settings_to_container ns (Heap ps (JDict cd))
         = (Raise (KeyError "envFrom"), h1)).
Proof.
  intros Hspec Hfrom Hcd.
  assert (lacks "envFrom" (JDict cd)) as Hl by (by exists cd).
  unfold apply_settings_to_container.
  destruct (settings_to_container_cases ns ps (JDict cd))
    as [(e & ps1 & Hrun)|(ns_spec & ps1 & sp1 & Hns & Hin & Hsp1 & Hrun)].
  - rewrite !Hrun. split; [by eauto|]. intros h1 [=].
  - rewrite !Hrun.
    destruct (inject_keeps_field "envFrom" spec (Ret tt) ps ps1 ns_spec)
      as (spec1 & Hs1 & Hk); [done..|].
    rewrite Hsp1 in Hs1. injection Hs1 as ->.
    assert (is_Some (spec1 !! "envFrom")) as Hfrom1 by (by rewrite Hk).
    destruct (for_each container_fields (override (JDict spec1)) (JDict cd))
      as [r c'] eqn:Hall.
    destruct (container_fields_raise spec1 _ _ _ Hfrom1 Hl Hall) as [Hl' Hr].
    destruct r as [[]|e]; [done|]. split; [by eauto|].
    intros h1 Hpre. destruct Hr as [Hr|[-> Hr]]; rewrite Hr in Hpre; by simplify_eq.
Qed.

Lemma envFrom_needs_container_envFrom_witness :
  apply_settings_to_container Examples.ns_team_a
    (Heap Examples.setting_envFrom (JDict Examples.container_main))
  = (Raise (KeyError "envFrom"),
     Heap Examples.setting_envFrom
       (Examples.obj [("name", JStr "main"); ("image", JStr "img:2");
                      ("env", JList [Examples.named "FOO" "1"])])).
Proof.
  apply (proj2 (envFrom_needs_container_envFrom Examples.ns_team_a
                  Examples.setting_envFrom Examples.spec_envFrom
                  Examples.container_main eq_refl
                  (ex_intro _ _ eq_refl) eq_refl)).
  vm_compute. reflexivity.
Defined.

(** ** What applying a pod-setting changes of the pod-setting *)

Lemma inject_run_env ns_spec ps r ps' :
  within "spec" (inject_user_context ns_spec) ps = (r, ps') →
  without_spec_env ps' = without_spec_env ps.
Proof.
  unfold within. intros Hr.
  destruct ps as [| | | | |d]; try by simplify_eq.
  destruct (d !! "spec") as [sub|] eqn:Hsub; [|by simplify_eq].
  destruct (inject_user_context ns_spec sub) as [r1 sub'] eqn:Hi. simplify_eq.
  destruct sub as [| | | | |spec];
    try (unfold inject_user_context, bind, reads in Hi; simpl in Hi; simplify_eq;
         by rewrite insert_id).
  destruct (inject_user_context_writes ns_spec spec _ _ _ Hi (same_but_refl _ _))
    as (spec' & -> & Hs).
  simpl. rewrite lookup_insert_eq, Hsub. rewrite insert_insert_eq.
  do 3 f_equal. apply map_eq. intros k.
  destruct (decide (k = "env")) as [->|Hne].
  - by rewrite !lookup_delete_eq.
  - rewrite !lookup_delete_ne by done. by apply Hs.
Qed.


Section setting_invariant.
Context (Q : json → Prop) (namespace_setting : json).
Hypothesis inject_keeps : ∀ ns_spec, keeps Q (within "spec" (inject_user_context ns_spec)).

Lemma settings_to_container_keeps fields :
  keeps (fun h => Q (pod_setting h)) (settings_to_container fields namespace_setting).
Proof.
  unfold settings_to_container.
  apply keeps_bind; [apply keeps_lift|]. intros ns_spec.
  apply keeps_bind; [apply keeps_reads|]. intros _.
  apply keeps_bind; [by apply keeps_on_setting|]. intros _.
  apply keeps_bind; [apply keeps_reads|]. intros ps_spec.
  apply keeps_on_target_setting.
Qed.

Lemma at_container_keeps field i (m : M heap unit) :
  keeps (fun h => Q (pod_setting h)) m →
  keeps (fun h => Q (pod_setting h)) (at_container field i m).
Proof.
  intros Hm h r h' Hr HQ. unfold at_container in Hr.
  destruct (container_at (target h) field i) as [c|]; [|by simplify_eq].
  destruct (m (Heap (pod_setting h) c)) as [r1 h1] eqn:Hrun. simplify_eq. simpl.
  by apply (Hm _ _ _ Hrun).
Qed.

Lemma apply_to_selected_keeps `{Libraries} field whole :
  keeps (fun h => Q (pod_setting h)) (apply_to_selected namespace_setting field whole).
Proof.
  unfold apply_to_selected.
  do 4 (apply keeps_bind; [first [apply keeps_reads|apply keeps_lift]|]; intros ?).
  apply keeps_bind; [apply keeps_lift|]. intros ?.
  apply keeps_bind; [apply keeps_lift|]. intros sel.
  apply keeps_for_each. intros i _. apply at_container_keeps.
  apply settings_to_container_keeps.
Qed.

End setting_invariant.






(** ** The request handler: applying the selected pod-settings *)












(** ** Distinct names in the name-keyed fields *)

(** ** Name-keyed lists *)

Lemma names_of_app l1 l2 : names_of (l1 ++ l2) = names_of l1 ++ names_of l2.
Proof. apply omap_app. Qed.

Lemma ofilterM_sublist {A} (f : A → outcome bool) l kept :
  ofilterM f l = Ret kept → sublist kept l.
Proof.
  revert kept. induction l as [|x l IH]; intros kept Hk; simpl in Hk.
  - by simplify_eq.
  - apply obind_Ret in Hk as (b & Hb & Hk).
    apply obind_Ret in Hk as (ys & Hys & Hk). simplify_eq.
    destruct b; [apply sublist_skip|apply sublist_cons]; auto.
Qed.

Lemma ofilterM_kept {A} (f : A → outcome bool) l kept x :
  ofilterM f l = Ret kept → x ∈ kept → f x = Ret true.
Proof.
  revert kept. induction l as [|y l IH]; intros kept Hk Hx; simpl in Hk.
  - simplify_eq. by apply elem_of_nil in Hx.
  - apply obind_Ret in Hk as (b & Hb & Hk).
    apply obind_Ret in Hk as (ys & Hys & Hk). simplify_eq.
    destruct b; [|by eauto].
    apply elem_of_cons in Hx as [->|Hx]; [done|by eauto].
Qed.

Lemma names_of_sublist l1 l2 : sublist l1 l2 → sublist (names_of l1) (names_of l2).
Proof.
  induction 1 as [|x l1 l2 _ IH|x l1 l2 _ IH]; simpl.
  - constructor.
  - unfold names_of in *. simpl. destruct (field_of x "name"); [by constructor|done].
  - unfold names_of in *. simpl. destruct (field_of x "name"); [by constructor|done].
Qed.

Lemma names_of_elem n l :
  n ∈ names_of l → ∃ e, e ∈ l ∧ field_of e "name" = Some n.
Proof.
  unfold names_of. rewrite list_elem_of_omap. intros (e & He & Hn). eauto.
Qed.

Lemma getitem_field_of v k x : Py.getitem v k = Ret x → field_of v k = Some x.
Proof.
  destruct v as [| | | | |d]; simpl; try done.
  destruct (d !! k); intros; by simplify_eq.
Qed.

Lemma omapM_names l names :
  omapM (fun psv => Py.getitem psv "name") l = Ret names → names_of l = names.
Proof.
  revert names. induction l as [|x l IH]; intros names Hn; simpl in Hn.
  - by simplify_eq.
  - apply obind_Ret in Hn as (y & Hy & Hn).
    apply obind_Ret in Hn as (ys & Hys & Hn). simplify_eq.
    unfold names_of. simpl. rewrite (getitem_field_of _ _ _ Hy). f_equal. by apply IH.
Qed.

(** The elements a loop visits are the elements of the list when the value
    is a list; otherwise they are strings, which have no name. *)
Lemma iter_names v l :
  Py.iter v = Ret l → v = JList l ∨ names_of l = [].
Proof.
  destruct v as [| | |s|l'|d]; simpl; intros Hl; simplify_eq; auto; right.
  - induction s as [|c s IH]; [done|]. unfold names_of in *. simpl. done.
  - unfold names_of. induction (map_to_list d).*1 as [|k ks IH]; [done|]. simpl. done.
Qed.

Lemma merged_names_distinct f ps_spec pvs kept incoming its :
  ofilterM (name_not_incoming f ps_spec) pvs = Ret kept →
  Py.get ps_spec f (JList []) = Ret incoming →
  Py.iter incoming = Ret its →
  NoDup (names_of pvs) → NoDup (names_of its) →
  NoDup (names_of (kept ++ its)).
Proof.
  intros Hkept Hin Hits Hpvs Hnew. rewrite names_of_app. apply NoDup_app.
  split; [|split; [|done]].
  - apply (sublist_NoDup _ (names_of pvs)); [done|].
    by eapply names_of_sublist, ofilterM_sublist.
  - intros n Hn Hn'.
    apply names_of_elem in Hn as (pv & Hpv & Hname).
    pose proof (ofilterM_kept _ _ _ _ Hkept Hpv) as Hkeep.
    unfold name_not_incoming in Hkeep. rewrite Hin in Hkeep. simpl in Hkeep.
    rewrite Hits in Hkeep. simpl in Hkeep.
    apply obind_Ret in Hkeep as (name & Hget & Hkeep).
    apply obind_Ret in Hkeep as (names & Hnames & Hkeep).
    apply getitem_field_of in Hget. rewrite Hname in Hget. simplify_eq.
    apply omapM_names in Hnames. subst names.
    rewrite (py_mem_elem _ _ Hn') in Hkeep. done.
Qed.

Lemma field_of_setitem_ne obj obj' f g x :
  Py.setitem obj f x = Ret obj' → g ≠ f → field_of obj' g = field_of obj g.
Proof.
  destruct obj; simpl; intros; simplify_eq. simpl. by rewrite lookup_insert_ne.
Qed.

Lemma field_of_setitem obj obj' f x :
  Py.setitem obj f x = Ret obj' → field_of obj' f = Some x.
Proof.
  destruct obj; simpl; intros; simplify_eq. simpl. by rewrite lookup_insert_eq.
Qed.

Lemma get_distinct obj f v l :
  field_distinct obj f →
  Py.get obj f (JList []) = Ret v → Py.iter v = Ret l → NoDup (names_of l).
Proof.
  intros Hobj Hv Hl. destruct (iter_names _ _ Hl) as [-> | ->]; [|constructor].
  destruct obj as [| | | | |d]; simpl in Hv; try done.
  destruct (d !! f) as [x|] eqn:Hf; simplify_eq.
  - by apply Hobj.
  - constructor.
Qed.

Lemma updates_run {S} (f : S → outcome S) s r s' :
  updates f s = (r, s') →
  (r = Ret tt ∧ f s = Ret s') ∨ (∃ e, r = Raise e ∧ f s = Raise e ∧ s' = s).
Proof.
  unfold updates. destruct (f s) as [s1|e]; intros; simplify_eq; [left|right]; eauto.
Qed.

Lemma setitem_run k v obj r obj' :
  setitem k v obj = (r, obj') →
  (r = Ret tt ∧ Py.setitem obj k v = Ret obj') ∨ (∃ e, r = Raise e ∧ obj' = obj).
Proof.
  intros Hr. unfold setitem in Hr.
  apply updates_run in Hr as [[-> Hr]|(e & -> & _ & ->)]; eauto.
Qed.

Lemma field_distinct_setitem obj obj' f l :
  Py.setitem obj f (JList l) = Ret obj' → NoDup (names_of l) → field_distinct obj' f.
Proof.
  intros Hset Hl l' Hl'. rewrite (field_of_setitem _ _ _ _ Hset) in Hl'. by simplify_eq.
Qed.

(** The name-keyed merge keeps the names of the field distinct, at every
    point of it, when those of the incoming list are. *)
Lemma replace_or_append_distinct f ps_spec :
  field_distinct ps_spec f →
  keeps (fun obj => field_distinct obj f) (replace_or_append f ps_spec).
Proof.
  intros Hspec obj r obj' Hrun Hobj. unfold replace_or_append in Hrun.
  apply bind_run in Hrun as [(old & s1 & H1 & Hrun)|(e & H1 & ->)];
    apply reads_run in H1 as [Hold ->]; [|done].
  apply bind_run in Hrun as [(pvs & s1 & H1 & Hrun)|(e & H1 & ->)];
    apply lift_run in H1 as [Hpvs ->]; [|done].
  apply bind_run in Hrun as [(kept & s1 & H1 & Hrun)|(e & H1 & ->)];
    apply lift_run in H1 as [Hkept ->]; [|done].
  symmetry in Hold, Hpvs, Hkept.
  assert (NoDup (names_of pvs)) as Hdpvs by (by eapply get_distinct).
  assert (NoDup (names_of kept)) as Hdkept.
  { apply (sublist_NoDup _ (names_of pvs)); [done|].
    by eapply names_of_sublist, ofilterM_sublist. }
  apply bind_run in Hrun as [([] & obj1 & H1 & Hrun)|(e & H1 & ->)];
    apply setitem_run in H1 as [[Heq Hset]|(e' & Heq & ->)]; try done.
  assert (field_distinct obj1 f) as Hobj1 by (by eapply field_distinct_setitem).
  unfold extend_field in Hrun.
  apply bind_run in Hrun as [(l & s1 & H1 & Hrun)|(e & H1 & ->)];
    apply reads_run in H1 as [Hl ->]; [|done].
  symmetry in Hl. apply getitem_field_of in Hl.
  rewrite (field_of_setitem _ _ _ _ Hset) in Hl. simplify_eq.
  apply bind_run in Hrun as [(incoming & s1 & H1 & Hrun)|(e & H1 & ->)];
    apply lift_run in H1 as [Hin ->]; [|done].
  apply bind_run in Hrun as [(l' & s1 & H1 & Hrun)|(e & H1 & ->)];
    apply lift_run in H1 as [Hl' ->]; [|done].
  symmetry in Hin, Hl'. simpl in Hl'.
  apply obind_Ret in Hl' as (its & Hits & Hl'). simplify_eq.
  apply setitem_run in Hrun as [[_ Hset2]|(e' & _ & ->)]; [|done].
  eapply field_distinct_setitem; [done|].
  apply (merged_names_distinct f ps_spec pvs kept incoming its); try done.
  by apply (get_distinct ps_spec f incoming).
Qed.

Lemma keeps_and {S A} (P Q : S → Prop) (m : M S A) :
  keeps P m → keeps Q m → keeps (fun s => P s ∧ Q s) m.
Proof. intros HP HQ s r s' Hr [? ?]. split; eauto. Qed.

Lemma keeps_iff {S A} (P Q : S → Prop) (m : M S A) :
  (∀ s, P s ↔ Q s) → keeps P m → keeps Q m.
Proof. intros HPQ HP s r s' Hr HQ. apply HPQ. eapply HP; [done|]. by apply HPQ. Qed.

Lemma keeps_setitem_other f g v x :
  g ≠ f → keeps (fun obj => field_of obj g = v) (setitem f x).
Proof.
  intros Hne. apply keeps_updates. intros s s' Hs <-.
  by eapply field_of_setitem_ne.
Qed.

Ltac leaves_tac :=
  repeat first
    [ apply keeps_setitem_other; done | apply keeps_lift | apply keeps_reads
    | apply keeps_ret | apply keeps_bind; [|intros ?] ].

Lemma replace_with_get_leaves : leaves_other_fields replace_with_get.
Proof. intros f sp g v Hne. unfold replace_with_get. leaves_tac. Qed.

Lemma replace_with_item_leaves : leaves_other_fields replace_with_item.
Proof. intros f sp g v Hne. unfold replace_with_item. leaves_tac. Qed.

Lemma key_merge_leaves : leaves_other_fields key_merge.
Proof. intros f sp g v Hne. unfold key_merge. leaves_tac. Qed.

Lemma extend_field_leaves : leaves_other_fields extend_field.
Proof. intros f sp g v Hne. unfold extend_field. leaves_tac. Qed.

Lemma replace_or_append_leaves : leaves_other_fields replace_or_append.
Proof.
  intros f sp g v Hne. unfold replace_or_append.
  do 4 (apply keeps_bind; [leaves_tac|intros ?]). by apply extend_field_leaves.
Qed.

(** A property of one field is kept by a strategy given another field. *)
Lemma keeps_field_property (Q : option json → Prop) (st : strategy) f g ps_spec :
  leaves_other_fields st → g ≠ f →
  keeps (fun obj => Q (field_of obj g)) (st f ps_spec).
Proof.
  intros Hst Hne obj r obj' Hr HQ.
  by rewrite (Hst f ps_spec g (field_of obj g) Hne obj r obj' Hr eq_refl).
Qed.

Lemma field_distinct_other (st : strategy) f g ps_spec :
  leaves_other_fields st → g ≠ f →
  keeps (fun obj => field_distinct obj g) (st f ps_spec).
Proof.
  intros Hst Hne.
  apply (keeps_field_property (fun o => ∀ l, o = Some (JList l) → NoDup (names_of l)));
    done.
Qed.

Lemma container_fields_distinct ps_spec :
  field_distinct ps_spec "env" → field_distinct ps_spec "volumeMounts" →
  keeps container_distinct (for_each container_fields (override ps_spec)).
Proof.
  intros Henv Hvm. apply keeps_for_each. intros [f st] Hin.
  unfold override. apply keeps_when_in. simpl.
  unfold container_fields, fields_before_envFrom in Hin. simpl in Hin.
  repeat (apply elem_of_cons in Hin as [[= -> ->]|Hin]);
    [..|by apply elem_of_nil in Hin];
    (apply keeps_and;
     first [ by apply replace_or_append_distinct
           | apply field_distinct_other;
             [ first [ apply replace_with_get_leaves | apply replace_with_item_leaves
                     | apply key_merge_leaves | apply extend_field_leaves
                     | apply replace_or_append_leaves ]
             | done ] ]).
Qed.

(** The [injectUserContext] block keeps the names of [env] distinct. *)
Lemma not_user_context_name e n :
  not_user_context e = Ret true → field_of e "name" = Some n →
  n ≠ JStr "USERNAME" ∧ n ≠ JStr "USEREMAIL".
Proof.
  unfold not_user_context. intros Hk Hn.
  apply obind_Ret in Hk as (name & Hget & Hk). apply getitem_field_of in Hget.
  rewrite Hn in Hget. injection Hget as <-. injection Hk as Hk.
  apply negb_true_iff in Hk.
  split; intros ->; simpl in Hk; by rewrite ?orb_true_r in Hk.
Qed.

Lemma inject_user_context_distinct ns_spec :
  keeps (fun ps_spec => field_distinct ps_spec "env") (inject_user_context ns_spec).
Proof.
  intros obj r obj' Hrun Hobj. unfold inject_user_context in Hrun.
  apply bind_run in Hrun as [(flag & s1 & H1 & Hrun)|(e & H1 & ->)];
    apply reads_run in H1 as [Hflag ->]; [|done].
  destruct (Py.truthy flag); [|by apply ret_run in Hrun as [_ ->]].
  apply bind_run in Hrun as [(env & s1 & H1 & Hrun)|(e & H1 & ->)];
    apply reads_run in H1 as [Henv ->]; [|done].
  apply bind_run in Hrun as [(es & s1 & H1 & Hrun)|(e & H1 & ->)];
    apply lift_run in H1 as [Hes ->]; [|done].
  apply bind_run in Hrun as [(kept & s1 & H1 & Hrun)|(e & H1 & ->)];
    apply lift_run in H1 as [Hkept ->]; [|done].
  symmetry in Henv, Hes, Hkept.
  assert (NoDup (names_of es)) as Hdes by (by eapply get_distinct).
  assert (NoDup (names_of kept)) as Hdkept.
  { apply (sublist_NoDup _ (names_of es)); [done|].
    by eapply names_of_sublist, ofilterM_sublist. }
  apply bind_run in Hrun as [([] & obj1 & H1 & Hrun)|(e & H1 & ->)];
    apply setitem_run in H1 as [[Heq Hset]|(e' & Heq & ->)]; try done.
  assert (field_distinct obj1 "env") as Hobj1 by (by eapply field_distinct_setitem).
  apply bind_run in Hrun as [(l & s1 & H1 & Hrun)|(e & H1 & ->)];
    apply reads_run in H1 as [Hl ->]; [|done].
  symmetry in Hl. apply getitem_field_of in Hl.
  rewrite (field_of_setitem _ _ _ _ Hset) in Hl. simplify_eq.
  apply bind_run in Hrun as [(user & s1 & H1 & Hrun)|(e & H1 & ->)];
    apply lift_run in H1 as [Huser ->]; [|done].
  apply bind_run in Hrun as [(email & s1 & H1 & Hrun)|(e & H1 & ->)];
    apply lift_run in H1 as [Hemail ->]; [|done].
  apply bind_run in Hrun as [(l' & s1 & H1 & Hrun)|(e & H1 & ->)];
    apply lift_run in H1 as [Hl' ->]; [|done].
  simpl in Hl'. simplify_eq.
  apply setitem_run in Hrun as [[_ Hset2]|(e' & _ & ->)]; [|done].
  eapply field_distinct_setitem; [done|].
  rewrite names_of_app. apply NoDup_app. split; [done|]. split.
  - intros n Hn Hn'. apply names_of_elem in Hn as (e & He & Hname).
    destruct (not_user_context_name e n) as [Hu Hm]; [by eapply ofilterM_kept|done|].
    unfold names_of, env_entry in Hn'. simpl in Hn'.
    rewrite !lookup_insert_eq in Hn'. simpl in Hn'.
    rewrite !elem_of_cons, elem_of_nil in Hn'.
    destruct Hn' as [->|[->|[]]]; done.
  - unfold names_of, env_entry. simpl. rewrite !lookup_insert_eq.
    apply NoDup_cons. split; [|apply NoDup_singleton].
    rewrite elem_of_cons, elem_of_nil. intros [[=]|[]].
Qed.

Lemma keeps_within_field {A} (Q : json → Prop) k (m : M json A) :
  keeps Q m →
  keeps (fun obj => ∀ sub, field_of obj k = Some sub → Q sub) (within k m).
Proof.
  intros Hm obj r obj' Hr HQ. unfold within in Hr.
  destruct obj as [| | | | |d]; try by simplify_eq.
  destruct (d !! k) as [sub|] eqn:Hk; [|by simplify_eq].
  destruct (m sub) as [r1 sub'] eqn:Hsub. simplify_eq.
  intros sub2. simpl. rewrite lookup_insert_eq. intros [= <-].
  eapply Hm; [done|]. by apply HQ.
Qed.

Lemma keeps_within_other {A} k g v (m : M json A) :
  g ≠ k → keeps (fun obj => field_of obj g = v) (within k m).
Proof.
  intros Hne obj r obj' Hr <-. unfold within in Hr.
  destruct obj as [| | | | |d]; try by simplify_eq.
  destruct (d !! k) as [sub|] eqn:Hk; [|by simplify_eq].
  destruct (m sub) as [r1 sub'] eqn:Hsub. simplify_eq.
  simpl. by rewrite lookup_insert_ne.
Qed.

Lemma inject_user_context_leaves ns_spec g v :
  g ≠ "env" → keeps (fun obj => field_of obj g = v) (inject_user_context ns_spec).
Proof.
  intros Hne. unfold inject_user_context.
  apply keeps_bind; [apply keeps_reads|]. intros flag.
  destruct (Py.truthy flag); leaves_tac.
Qed.

Lemma inject_keeps_setting_distinct ns_spec :
  keeps setting_distinct (within "spec" (inject_user_context ns_spec)).
Proof.
  apply keeps_within_field.
  repeat apply keeps_and.
  - apply (keeps_iff (fun obj => (fun o => ∀ l, o = Some (JList l) → NoDup (names_of l))
                                   (field_of obj "volumes"))); [done|].
    intros obj r obj' Hr HQ.
    by rewrite (inject_user_context_leaves ns_spec "volumes" _ ltac:(done) _ _ _ Hr eq_refl).
  - apply inject_user_context_distinct.
  - intros obj r obj' Hr HQ. unfold field_distinct.
    by rewrite (inject_user_context_leaves ns_spec "volumeMounts" _ ltac:(done) _ _ _ Hr
                  eq_refl).
Qed.

Lemma apply_settings_to_container_distinct ns :
  keeps container_call_distinct (apply_settings_to_container ns).
Proof.
  intros h r h' Hrun [Hps Hc]. split.
  - revert Hps. eapply (settings_to_container_keeps setting_distinct); [|done].
    apply inject_keeps_setting_distinct.
  - destruct h as [ps c]. unfold apply_settings_to_container in Hrun.
    destruct (settings_to_container_cases ns ps c)
      as [(e & ps1 & Hcase)|(ns_spec & ps1 & spec1 & Hns & Hin & Hsp1 & Hcase)];
      rewrite Hcase in Hrun.
    + by simplify_eq.
    + destruct (for_each container_fields (override spec1) c) as [r1 c'] eqn:Hall.
      simplify_eq. simpl in *.
      pose proof (inject_keeps_setting_distinct ns_spec _ _ _ Hin Hps) as Hps1.
      destruct (Hps1 spec1) as (_ & Henv & Hvm); [by apply getitem_field_of|].
      exact (container_fields_distinct spec1 Henv Hvm _ _ _ Hall Hc).
Qed.

Lemma container_at_Some pod field i c :
  container_at pod field i = Some c →
  ∃ d spec cs, pod = JDict d ∧ d !! "spec" = Some (JDict spec) ∧
    spec !! field = Some (JList cs) ∧ cs !! i = Some c.
Proof.
  unfold container_at. intros Hc.
  destruct pod as [| | | | |d]; try done.
  destruct (d !! "spec") as [[| | | | |spec]|] eqn:Hspec; try done.
  destruct (spec !! field) as [[| | | |cs|]|] eqn:Hf; try done.
  by exists d, spec, cs.
Qed.

Lemma elem_of_insert_cases {A} (l : list A) i x y :
  y ∈ <[i := x]> l → y = x ∨ y ∈ l.
Proof.
  revert i. induction l as [|z l IH]; intros [|i]; simpl; intros Hy;
    try by apply elem_of_nil in Hy.
  - apply elem_of_cons in Hy as [->|Hy]; [by left|right; by right].
  - apply elem_of_cons in Hy as [->|Hy]; [right; by left|].
    destruct (IH _ Hy); [by left|right; by right].
Qed.

Lemma at_container_distinct field i (m : M heap unit) :
  field = "initContainers" ∨ field = "containers" →
  keeps container_call_distinct m →
  keeps pod_call_distinct (at_container field i m).
Proof.
  intros Hfield Hm h r h' Hr [Hps Hpod]. unfold at_container in Hr.
  destruct (container_at (target h) field i) as [c|] eqn:Hc; [|by simplify_eq].
  destruct (m (Heap (pod_setting h) c)) as [r1 h1] eqn:Hrun. simplify_eq.
  apply container_at_Some in Hc as (d & spec & cs & Hd & Hspec & Hcs & Hi).
  destruct (Hpod (JDict spec)) as (Hvol & Hinit & Hcont); [by rewrite Hd|].
  assert (container_distinct c) as Hdc.
  { destruct Hfield as [-> | ->]; [eapply Hinit|eapply Hcont]; try done;
      by eapply list_elem_of_lookup_2. }
  destruct (Hm _ _ _ Hrun) as [Hps1 Hc1]; [done|]. simpl in Hc1.
  split; [done|]. simpl. unfold with_container. rewrite Hd, Hspec, Hcs.
  intros pod_spec. simpl. rewrite lookup_insert_eq. intros [= <-].
  assert (∀ c0, c0 ∈ <[i := target h1]> cs → container_distinct c0) as Hnew.
  { intros c0 Hc0. apply elem_of_insert_cases in Hc0 as [->|Hc0]; [done|].
    destruct Hfield as [-> | ->]; [eapply Hinit|eapply Hcont]; done. }
  split; [|split].
  - intros l. simpl. destruct Hfield as [-> | ->];
      rewrite lookup_insert_ne by done; apply Hvol.
  - intros cs' c0. simpl. destruct Hfield as [-> | ->].
    + rewrite lookup_insert_eq. intros [= <-]. apply Hnew.
    + rewrite lookup_insert_ne by done. apply Hinit.
  - intros cs' c0. simpl. destruct Hfield as [-> | ->].
    + rewrite lookup_insert_ne by done. apply Hcont.
    + rewrite lookup_insert_eq. intros [= <-]. apply Hnew.
Qed.

Lemma apply_to_selected_distinct `{Libraries} ns field whole :
  field = "initContainers" ∨ field = "containers" →
  keeps pod_call_distinct (apply_to_selected ns field whole).
Proof.
  intros Hfield. unfold apply_to_selected.
  do 4 (apply keeps_bind; [first [apply keeps_reads|apply keeps_lift]|]; intros ?).
  apply keeps_bind; [apply keeps_lift|]. intros ?.
  apply keeps_bind; [apply keeps_lift|]. intros sel.
  apply keeps_for_each. intros i _. apply at_container_distinct; [done|].
  apply apply_settings_to_container_distinct.
Qed.

Lemma containers_distinct_other (st : strategy) f g ps_spec :
  leaves_other_fields st → g ≠ f →
  keeps (fun obj => containers_distinct obj g) (st f ps_spec).
Proof.
  intros Hst Hne.
  apply (keeps_field_property
           (fun o => ∀ cs c, o = Some (JList cs) → c ∈ cs → container_distinct c));
    done.
Qed.

Lemma pod_fields_distinct ps_spec :
  field_distinct ps_spec "volumes" →
  keeps pod_distinct (for_each pod_fields (pod_override ps_spec)).
Proof.
  intros Hvol. apply keeps_for_each. intros [part [f st]] Hin.
  unfold pod_override. apply keeps_when_in. simpl.
  unfold pod_fields in Hin.
  repeat (apply elem_of_cons in Hin as [[= -> -> ->]|Hin]);
    [..|by apply elem_of_nil in Hin].
  all: first
    [ (* a field of the metadata *)
      intros obj r obj' Hr HQ; unfold pod_distinct;
      by rewrite (keeps_within_other "metadata" "spec" _ _ ltac:(done) obj r obj' Hr eq_refl)
    | (* a field of the spec *)
      apply (keeps_within_field spec_distinct);
      repeat apply keeps_and;
      first [ by apply replace_or_append_distinct
            | apply field_distinct_other;
              [ first [ apply replace_with_get_leaves | apply key_merge_leaves
                      | apply replace_or_append_leaves ] | done ]
            | apply containers_distinct_other;
              [ first [ apply replace_with_get_leaves | apply key_merge_leaves
                      | apply replace_or_append_leaves ] | done ] ] ].
Qed.

Lemma apply_settings_to_pod_distinct `{Libraries} ns :
  keeps pod_call_distinct (apply_settings_to_pod ns).
Proof.
  intros h r h' Hrun [Hps Hpod]. unfold apply_settings_to_pod in Hrun.
  apply bind_run in Hrun as [(ps_spec & s1 & H1 & Hrun)|(e & H1 & ->)];
    apply reads_run in H1 as [Hspec ->]; [|done].
  symmetry in Hspec. apply getitem_field_of in Hspec.
  destruct (Hps _ Hspec) as (Hvol & _ & _).
  match type of Hrun with
  | ?m _ = _ => assert (keeps pod_call_distinct m) as Hk
  end; [|exact (Hk _ _ _ Hrun (conj Hps Hpod))].
  apply keeps_bind; [apply keeps_reads|]. intros _.
  apply keeps_bind; [|intros _].
  { apply keeps_and; [apply keeps_on_target_setting|].
    by apply keeps_on_target, pod_fields_distinct. }
  apply keeps_bind; [|intros _]; apply apply_to_selected_distinct; auto.
Qed.

(** C6 (amended).  When no two entries of the pod-setting's [volumes],
    [env] and [volumeMounts] share a name, and no two entries of the pod's
    [volumes] and of the [env] and [volumeMounts] of each of its containers
    and init-containers do, the same holds of the pod after the pod-setting
    has been applied, whatever the outcome of the application. *)
Theorem name_keyed_fields_stay_distinct `{Libraries} ns ps pod :
  setting_distinct ps → pod_distinct pod →
  pod_distinct (target (apply_settings_to_pod ns (Heap ps pod)).2).
Proof.
  intros Hps Hpod.
  destruct (apply_settings_to_pod ns (Heap ps pod)) as [r h'] eqn:Hrun. simpl.
  by destruct (apply_settings_to_pod_distinct ns _ _ _ Hrun (conj Hps Hpod)).
Qed.

Lemma names_twice (n : json) l : ¬ NoDup (n :: n :: l).
Proof. intros Hd. apply NoDup_cons in Hd as [Hn _]. apply Hn. left. Qed.

Lemma env_twice_not_distinct l x rest :
  names_of l = x :: x :: rest → ¬ pod_distinct (Examples.pod_web_env l).
Proof.
  intros Hl Hd.
  destruct (Hd (Examples.obj
                  [("containers",
                    JList [Examples.obj [("name", JStr "main"); ("image", JStr "img");
                                         ("env", JList l)]])]))
    as (_ & _ & Hc); [reflexivity|].
  destruct (Hc _ (Examples.obj [("name", JStr "main"); ("image", JStr "img");
                                ("env", JList l)]) eq_refl) as [Henv _]; [left|].
  specialize (Henv l eq_refl). rewrite Hl in Henv. by apply names_twice in Henv.
Qed.

(** C6 as stated fails: the merge removes the entries of the pod that an
    incoming entry replaces, and nothing else.  A name that the pod-setting
    lists twice is twice in the container, and a name that the container
    lists twice stays twice when the pod-setting does not list it. *)
Lemma apply_settings_to_pod_leaves_duplicates :
  apply_settings_to_pod (H := Examples.stand_in) Examples.ns_team_a
    (Heap Examples.setting_twice Examples.pod_web)
  = (Ret tt, Heap Examples.setting_twice
               (Examples.pod_web_env [Examples.named "A" "1"; Examples.named "A" "2"])) ∧
  ¬ pod_distinct (Examples.pod_web_env [Examples.named "A" "1"; Examples.named "A" "2"]) ∧
  apply_settings_to_pod (H := Examples.stand_in) Examples.ns_team_a
    (Heap Examples.setting_once
       (Examples.pod_web_env [Examples.named "B" "1"; Examples.named "B" "2"]))
  = (Ret tt, Heap Examples.setting_once
               (Examples.pod_web_env [Examples.named "B" "1"; Examples.named "B" "2";
                                Examples.named "A" "1"])) ∧
  ¬ pod_distinct (Examples.pod_web_env [Examples.named "B" "1"; Examples.named "B" "2";
                                  Examples.named "A" "1"]).
Proof.
  split; [vm_compute; reflexivity|]. split; [by eapply env_twice_not_distinct|].
  split; [vm_compute; reflexivity|]. by eapply env_twice_not_distinct.
Qed.

Lemma distinct_two (a b : string) : a ≠ b → NoDup [JStr a; JStr b].
Proof.
  intros Hne. apply NoDup_cons. split; [|apply NoDup_singleton].
  rewrite elem_of_cons, elem_of_nil. intros [[=]|[]]. done.
Qed.

Lemma name_keyed_fields_stay_distinct_witness :
  pod_distinct
    (target (apply_settings_to_pod (H := Examples.stand_in) Examples.ns_team_a
               (Heap Examples.setting_once
                  (Examples.pod_web_env [Examples.named "A" "0"; Examples.named "B" "2"]))).2).
Proof.
  apply name_keyed_fields_stay_distinct.
  - intros ps_spec Hspec. vm_compute in Hspec. injection Hspec as <-.
    repeat split; intros l Hl; vm_compute in Hl; try discriminate Hl.
    injection Hl as <-. vm_compute. apply NoDup_singleton.
  - intros pod_spec Hspec. vm_compute in Hspec. injection Hspec as <-.
    split; [|split].
    + intros l Hl. vm_compute in Hl. discriminate Hl.
    + intros cs c Hcs. vm_compute in Hcs. discriminate Hcs.
    + intros cs c Hcs Hc. vm_compute in Hcs. injection Hcs as <-.
      apply elem_of_cons in Hc as [->|Hc]; [|by apply elem_of_nil in Hc].
      split; intros l Hl; vm_compute in Hl; [|discriminate Hl].
      injection Hl as <-. vm_compute. by apply distinct_two.
Defined.

(** ** Blocks of statements on cells of their own *)

Section block.
Context {S X K V : Type} (key : X → K) (cell : K → S → V) (body : X → M S unit).
Context (l : list X).
Hypothesis frame :
  ∀ x y v, x ∈ l → y ∈ l → key x ≠ key y → keeps (fun s => cell (key y) s = v) (body x).
Hypothesis settle : ∀ x, x ∈ l → settles (cell (key x)) (body x).

Lemma block_frame (l' : list X) y v :
  l' ⊆ l → y ∈ l → key y ∉ key <$> l' →
  keeps (fun s => cell (key y) s = v) (for_each l' body).
Proof.
  intros Hsub Hy Hk. apply keeps_for_each. intros x Hx.
  apply frame; [by apply Hsub|done|].
  intros Heq. apply Hk. rewrite <- Heq. by apply list_elem_of_fmap_2.
Qed.

Lemma block_settles_from (l' : list X) s s1 :
  l' ⊆ l → NoDup (key <$> l') →
  for_each l' body s = (Ret tt, s1) →
  ∀ s2, (∀ x, x ∈ l' → cell (key x) s2 = cell (key x) s1) →
        settled (for_each l' body) s2.
Proof.
  revert s. induction l' as [|x l' IH]; intros s Hsub Hnd Hrun s2 Hs2 s2' Hrun2.
  - simpl in Hrun2. by apply ret_run in Hrun2 as [_ ->].
  - simpl in Hrun, Hrun2. apply NoDup_cons in Hnd as [Hx Hnd].
    apply bind_Ret in Hrun as ([] & o1 & Hx1 & Hrest).
    apply bind_Ret in Hrun2 as ([] & o2 & Hx2 & Hrest2).
    assert (x ∈ l) as Hxl by (apply Hsub; left).
    assert (l' ⊆ l) as Hsub' by (intros z Hz; apply Hsub; by right).
    assert (cell (key x) s1 = cell (key x) o1) as Hcell.
    { by apply (block_frame l' x (cell (key x) o1) Hsub' Hxl Hx _ _ _ Hrest). }
    assert (o2 = s2) as ->.
    { apply (settle x Hxl _ _ Hx1 s2); [|done]. rewrite <- Hcell. apply Hs2. left. }
    apply (IH o1 Hsub' Hnd Hrest s2); [|done].
    intros z Hz. apply Hs2. by right.
Qed.

Lemma block_settles s s1 :
  NoDup (key <$> l) → for_each l body s = (Ret tt, s1) → settled (for_each l body) s1.
Proof. intros Hnd Hrun. by eapply block_settles_from. Qed.
End block.

(** ** The merge strategies settle their field *)

Lemma settled_ret {S} (s : S) : settled (ret tt) s.
Proof. intros s' Hr. by apply ret_run in Hr as [_ ->]. Qed.

Lemma settles_when_in {S V} (cell : S → V) ps_spec f (m : M S unit) :
  settles cell m → settles cell (when_in ps_spec f m).
Proof.
  intros Hm s s' Hrun s2 Hcell. unfold when_in in *.
  apply bind_Ret in Hrun as (has & s0 & Hhas & Hrun).
  apply lift_run in Hhas as [Hhas ->].
  intros s2' Hrun2.
  apply bind_Ret in Hrun2 as (has2 & s02 & Hhas2 & Hrun2).
  apply lift_run in Hhas2 as [Hhas2 ->].
  assert (has2 = has) as -> by congruence.
  destruct has.
  - exact (Hm _ _ Hrun _ Hcell _ Hrun2).
  - by apply ret_run in Hrun2 as [_ ->].
Qed.

Lemma settles_when_absent {S V} (cell : S → V) ps_spec f (m : M S unit) :
  Py.contains ps_spec (JStr f) = Ret false → settles cell (when_in ps_spec f m).
Proof.
  intros Habs s s' _ s2 _ s2' Hrun2. unfold when_in, bind, lift in Hrun2.
  rewrite Habs in Hrun2. by apply ret_run in Hrun2 as [_ ->].
Qed.

Lemma setitem_Ret k v obj u obj' :
  setitem k v obj = (Ret u, obj') → Py.setitem obj k v = Ret obj'.
Proof. unfold setitem. intros Hr. by apply updates_Ret in Hr. Qed.

Lemma setitem_same obj f v obj' :
  Py.setitem obj f v = Ret obj' → field_of obj f = Some v → obj' = obj.
Proof.
  destruct obj as [| | | | |d]; simpl; intros Hs Hf; simplify_eq.
  by rewrite insert_id.
Qed.

Lemma get_of_field obj f default v :
  field_of obj f = Some v → ∀ w, Py.get obj f default = Ret w → w = v.
Proof.
  destruct obj as [| | | | |d]; simpl; try done. intros -> w Hw. by simplify_eq.
Qed.

Lemma getitem_of_field obj f v :
  field_of obj f = Some v → ∀ w, Py.getitem obj f = Ret w → w = v.
Proof.
  destruct obj as [| | | | |d]; simpl; try done. intros -> w Hw. by simplify_eq.
Qed.

(** Take the first expression off a completed run. *)
Ltac step_lift H x Hx :=
  let s := fresh "s" in
  apply bind_Ret in H as (x & s & Hx & H);
  apply lift_run in Hx as [Hx ->]; symmetry in Hx.

Ltac step_reads H x Hx :=
  let s := fresh "s" in
  apply bind_Ret in H as (x & s & Hx & H);
  apply reads_run in Hx as [Hx ->]; symmetry in Hx.

Ltac step_setitem H o Ho :=
  let u := fresh "u" in
  apply bind_Ret in H as (u & o & Ho & H);
  apply setitem_Ret in Ho.

Lemma replace_with_get_settles f ps_spec :
  settles (fun obj => field_of obj f) (replace_with_get f ps_spec).
Proof.
  intros obj obj' Hrun obj2 Hcell obj2' Hrun2. unfold replace_with_get in *.
  step_lift Hrun v Hv. apply setitem_Ret in Hrun.
  step_lift Hrun2 v2 Hv2. apply setitem_Ret in Hrun2.
  assert (v2 = v) as -> by congruence.
  rewrite (field_of_setitem _ _ _ _ Hrun) in Hcell.
  by eapply setitem_same.
Qed.

Lemma replace_with_item_settles f ps_spec :
  settles (fun obj => field_of obj f) (replace_with_item f ps_spec).
Proof.
  intros obj obj' Hrun obj2 Hcell obj2' Hrun2. unfold replace_with_item in *.
  step_lift Hrun v Hv. apply setitem_Ret in Hrun.
  step_lift Hrun2 v2 Hv2. apply setitem_Ret in Hrun2.
  assert (v2 = v) as -> by congruence.
  rewrite (field_of_setitem _ _ _ _ Hrun) in Hcell.
  by eapply setitem_same.
Qed.

Lemma merge_twice old new merged merged' :
  Py.merge old new = Ret merged → Py.merge merged new = Ret merged' → merged' = merged.
Proof.
  destruct old as [| | | | |d], new as [| | | | |dn]; simpl; intros Hm Hm';
    simplify_eq.
  simpl in Hm'. injection Hm' as <-.
  f_equal. by rewrite (assoc_L (∪)), (idemp_L (∪)).
Qed.

Lemma key_merge_settles f ps_spec :
  settles (fun obj => field_of obj f) (key_merge f ps_spec).
Proof.
  intros obj obj' Hrun obj2 Hcell obj2' Hrun2. unfold key_merge in *.
  step_reads Hrun old Hold. step_lift Hrun unpacked Hun.
  step_lift Hrun new Hnew. step_lift Hrun merged Hm.
  apply setitem_Ret in Hrun.
  step_reads Hrun2 old2 Hold2. step_lift Hrun2 unpacked2 Hun2.
  step_lift Hrun2 new2 Hnew2. step_lift Hrun2 merged2 Hm2.
  apply setitem_Ret in Hrun2.
  assert (new2 = new) as -> by congruence.
  rewrite (field_of_setitem _ _ _ _ Hrun) in Hcell.
  pose proof (get_of_field _ _ _ _ Hcell _ Hold2) as ->.
  rewrite (merge_twice _ _ _ _ Hm Hm2) in Hrun2.
  by eapply setitem_same.
Qed.

Lemma ofilterM_app {A} (f : A → outcome bool) l1 l2 kept :
  ofilterM f (l1 ++ l2) = Ret kept →
  ∃ k1 k2, ofilterM f l1 = Ret k1 ∧ ofilterM f l2 = Ret k2 ∧ kept = k1 ++ k2.
Proof.
  revert kept. induction l1 as [|x l1 IH]; intros kept Hk; simpl in *.
  - by exists [], kept.
  - apply obind_Ret in Hk as (b & Hb & Hk).
    apply obind_Ret in Hk as (ys & Hys & Hk). injection Hk as <-.
    destruct (IH _ Hys) as (k1 & k2 & H1 & H2 & ->).
    rewrite Hb, H1. simpl. exists (if b then x :: k1 else k1), k2.
    by destruct b.
Qed.

Lemma ofilterM_all {A} (f : A → outcome bool) l kept :
  ofilterM f l = Ret kept → Forall (fun x => f x = Ret true) l → kept = l.
Proof.
  revert kept. induction l as [|x l IH]; intros kept Hk Hall; simpl in *.
  - by injection Hk.
  - apply Forall_cons in Hall as [Hx Hall]. rewrite Hx in Hk. simpl in Hk.
    apply obind_Ret in Hk as (ys & Hys & Hk). injection Hk as <-.
    f_equal. by apply IH.
Qed.

Lemma ofilterM_none {A} (f : A → outcome bool) l kept :
  ofilterM f l = Ret kept → (∀ x, x ∈ l → f x = Ret true → False) → kept = [].
Proof.
  revert kept. induction l as [|x l IH]; intros kept Hk Hnone; simpl in *.
  - by injection Hk.
  - apply obind_Ret in Hk as (b & Hb & Hk).
    apply obind_Ret in Hk as (ys & Hys & Hk). injection Hk as <-.
    destruct b; [destruct (Hnone x); [left|done]|].
    apply IH; [done|]. intros y Hy. apply Hnone. by right.
Qed.

Lemma ofilterM_Forall_kept {A} (f : A → outcome bool) l kept :
  ofilterM f l = Ret kept → Forall (fun x => f x = Ret true) kept.
Proof. intros Hk. apply Forall_forall. intros x Hx. by eapply ofilterM_kept. Qed.

(** An incoming entry is not kept by the filter of its own merge. *)
Lemma name_not_incoming_own f ps_spec incoming its x :
  Py.get ps_spec f (JList []) = Ret incoming → Py.iter incoming = Ret its →
  x ∈ its → name_not_incoming f ps_spec x = Ret true → False.
Proof.
  intros Hin Hits Hx Hkeep. unfold name_not_incoming in Hkeep.
  rewrite Hin in Hkeep. simpl in Hkeep. rewrite Hits in Hkeep. simpl in Hkeep.
  apply obind_Ret in Hkeep as (name & Hget & Hkeep).
  apply obind_Ret in Hkeep as (names & Hnames & Hkeep).
  apply getitem_field_of in Hget. apply omapM_names in Hnames. subst names.
  assert (name ∈ names_of its) as Hn.
  { unfold names_of. apply list_elem_of_omap. eauto. }
  rewrite (py_mem_elem _ _ Hn) in Hkeep. done.
Qed.

Lemma replace_or_append_settles f ps_spec :
  settles (fun obj => field_of obj f) (replace_or_append f ps_spec).
Proof.
  intros obj obj' Hrun obj2 Hcell obj2' Hrun2. unfold replace_or_append in *.
  step_reads Hrun old Hold. step_lift Hrun pvs Hpvs. step_lift Hrun kept Hkept.
  step_setitem Hrun o1 Hset1. unfold extend_field in Hrun.
  step_reads Hrun l Hl. step_lift Hrun incoming Hin. step_lift Hrun l' Hl'.
  apply setitem_Ret in Hrun.
  apply getitem_field_of in Hl. rewrite (field_of_setitem _ _ _ _ Hset1) in Hl.
  injection Hl as <-. simpl in Hl'.
  apply obind_Ret in Hl' as (its & Hits & Hl'). injection Hl' as <-.
  rewrite (field_of_setitem _ _ _ _ Hrun) in Hcell.
  step_reads Hrun2 old2 Hold2. step_lift Hrun2 pvs2 Hpvs2. step_lift Hrun2 kept2 Hkept2.
  step_setitem Hrun2 o2 Hset2. unfold extend_field in Hrun2.
  step_reads Hrun2 l2 Hl2. step_lift Hrun2 incoming2 Hin2. step_lift Hrun2 l2' Hl2'.
  apply setitem_Ret in Hrun2.
  apply getitem_field_of in Hl2. rewrite (field_of_setitem _ _ _ _ Hset2) in Hl2.
  injection Hl2 as <-. simpl in Hl2'.
  apply obind_Ret in Hl2' as (its2 & Hits2 & Hl2'). injection Hl2' as <-.
  assert (incoming2 = incoming) as -> by congruence.
  assert (its2 = its) as -> by congruence.
  pose proof (get_of_field _ _ _ _ Hcell _ Hold2) as ->.
  simpl in Hpvs2. injection Hpvs2 as <-.
  apply ofilterM_app in Hkept2 as (k1 & k2 & Hk1 & Hk2 & ->).
  assert (k1 = kept) as -> by (eapply ofilterM_all; [done|by eapply ofilterM_Forall_kept]).
  assert (k2 = []) as ->.
  { eapply ofilterM_none; [done|]. intros x Hx. by eapply name_not_incoming_own. }
  rewrite app_nil_r in *.
  assert (field_of o2 f = Some (JList kept)) as Ho2 by (by eapply field_of_setitem).
  destruct obj2 as [| | | | |d2]; try done. simpl in *. simplify_eq.
  injection Hrun2 as <-. rewrite insert_insert_eq. by rewrite insert_id.
Qed.

(** ** A container once the pod-setting has been applied to it *)

Lemma container_fields_leave :
  Forall (fun fs : string * strategy => leaves_other_fields fs.2) container_fields.
Proof.
  repeat constructor; simpl;
    auto using replace_with_get_leaves, replace_with_item_leaves, key_merge_leaves,
      extend_field_leaves, replace_or_append_leaves.
Qed.

Lemma container_fields_settle ps_spec fs :
  Py.contains ps_spec (JStr "envFrom") = Ret false →
  fs ∈ container_fields →
  settles (fun obj => field_of obj fs.1) (override ps_spec fs).
Proof.
  intros Habs Hin. unfold override.
  unfold container_fields, fields_before_envFrom in Hin. simpl in Hin.
  repeat (apply elem_of_cons in Hin as [->|Hin]); [..|by apply elem_of_nil in Hin];
    simpl;
    first [ by apply settles_when_absent
          | apply settles_when_in;
            first [ apply replace_with_get_settles | apply replace_with_item_settles
                  | apply key_merge_settles | apply replace_or_append_settles ] ].
Qed.

Lemma container_fields_settled ps_spec c c1 :
  Py.contains ps_spec (JStr "envFrom") = Ret false →
  for_each container_fields (override ps_spec) c = (Ret tt, c1) →
  settled (for_each container_fields (override ps_spec)) c1.
Proof.
  intros Habs Hrun.
  apply (block_settles (fun fs : string * strategy => fs.1)
           (fun f obj => field_of obj f) (override ps_spec) container_fields) with c;
    [| |compute_done|done].
  - intros x y v Hx Hy Hne. unfold override. apply keeps_when_in.
    pose proof container_fields_leave as Hl. rewrite Forall_forall in Hl.
    apply (Hl x Hx). congruence.
  - intros x Hx. by apply container_fields_settle.
Qed.

(** The [injectUserContext] block changes nothing when it runs again. *)
Lemma not_user_context_entries user email kept :
  ofilterM not_user_context [env_entry "USERNAME" user; env_entry "USEREMAIL" email]
  = Ret kept → kept = [].
Proof.
  unfold not_user_context, env_entry. simpl. rewrite !lookup_insert_eq. simpl.
  by intros [= <-].
Qed.

Lemma inject_user_context_twice ns_spec ps_spec spec1 spec2 :
  inject_user_context ns_spec ps_spec = (Ret tt, spec1) →
  inject_user_context ns_spec spec1 = (Ret tt, spec2) →
  spec2 = spec1.
Proof.
  intros Hrun Hrun2. unfold inject_user_context in *.
  step_reads Hrun flag Hflag.
  destruct ps_spec as [| | | | |d]; try done. simpl in Hflag. injection Hflag as Hflag.
  destruct (Py.truthy flag) eqn:Hon.
  - step_reads Hrun env Henv. step_lift Hrun es Hes. step_lift Hrun kept Hkept.
    step_setitem Hrun o1 Hset1. step_reads Hrun l Hl.
    step_lift Hrun user Huser. step_lift Hrun email Hemail. step_lift Hrun l' Hl'.
    apply setitem_Ret in Hrun. simpl in Hset1. injection Hset1 as <-.
    simpl in Hl. rewrite lookup_insert_eq in Hl. injection Hl as <-.
    simpl in Hl'. injection Hl' as <-. simpl in Hrun. injection Hrun as <-.
    rewrite insert_insert_eq in *.
    step_reads Hrun2 flag2 Hflag2. simpl in Hflag2.
    rewrite lookup_insert_ne in Hflag2 by done. rewrite Hflag in Hflag2.
    injection Hflag2 as <-. rewrite Hon in Hrun2.
    step_reads Hrun2 env2 Henv2. step_lift Hrun2 es2 Hes2. step_lift Hrun2 kept2 Hkept2.
    step_setitem Hrun2 o2 Hset2. step_reads Hrun2 l2 Hl2.
    step_lift Hrun2 user2 Huser2. step_lift Hrun2 email2 Hemail2.
    step_lift Hrun2 l2' Hl2'. apply setitem_Ret in Hrun2.
    simpl in Henv2. rewrite lookup_insert_eq in Henv2. injection Henv2 as <-.
    simpl in Hes2. injection Hes2 as <-.
    apply ofilterM_app in Hkept2 as (k1 & k2 & Hk1 & Hk2 & ->).
    assert (k1 = kept) as -> by (eapply ofilterM_all; [done|by eapply ofilterM_Forall_kept]).
    apply not_user_context_entries in Hk2 as ->. rewrite app_nil_r in *.
    simpl in Hset2. injection Hset2 as <-.
    simpl in Hl2. rewrite lookup_insert_eq in Hl2. injection Hl2 as <-.
    assert (user2 = user) as -> by congruence.
    assert (email2 = email) as -> by congruence.
    simpl in Hl2'. injection Hl2' as <-. simpl in Hrun2. injection Hrun2 as <-.
    by rewrite !insert_insert_eq.
  - apply ret_run in Hrun as [_ ->].
    step_reads Hrun2 flag2 Hflag2. simpl in Hflag2. rewrite Hflag in Hflag2.
    injection Hflag2 as <-. rewrite Hon in Hrun2. by apply ret_run in Hrun2 as [_ ->].
Qed.

Lemma within_Ret k (m : M json unit) obj obj' :
  within k m obj = (Ret tt, obj') →
  ∃ d sub sub', obj = JDict d ∧ d !! k = Some sub ∧ m sub = (Ret tt, sub') ∧
                obj' = JDict (<[k := sub']> d).
Proof.
  unfold within. intros Hr.
  destruct obj as [| | | | |d]; try done.
  destruct (d !! k) as [sub|] eqn:Hk; [|done].
  destruct (m sub) as [r sub'] eqn:Hm. simplify_eq. by exists d, sub, sub'.
Qed.

Lemma injected_settled ns ps ns_spec :
  injected ns ps → Py.getitem ns "spec" = Ret ns_spec →
  settled (within "spec" (inject_user_context ns_spec)) ps.
Proof.
  intros (ns_spec' & ps0 & Hns & Hin) Hns' ps2 Hin2.
  assert (ns_spec' = ns_spec) as -> by congruence.
  apply within_Ret in Hin as (d & sub & sub' & -> & Hsub & Hm & ->).
  apply within_Ret in Hin2 as (d2 & sub2 & sub2' & Hd2 & Hsub2 & Hm2 & ->).
  injection Hd2 as <-. rewrite lookup_insert_eq in Hsub2. injection Hsub2 as <-.
  rewrite (inject_user_context_twice _ _ _ _ Hm Hm2). by rewrite insert_insert_eq.
Qed.

(** What a completed call of [apply_settings_to_container] has done. *)
Lemma apply_settings_to_container_Ret ns ps c ps1 c1 :
  apply_settings_to_container ns (Heap ps c) = (Ret tt, Heap ps1 c1) →
  injected ns ps1 ∧
  ∃ ns_spec ps_spec,
    Py.getitem ns "spec" = Ret ns_spec ∧
    within "spec" (inject_user_context ns_spec) ps = (Ret tt, ps1) ∧
    Py.getitem ps1 "spec" = Ret ps_spec ∧
    for_each container_fields (override ps_spec) c = (Ret tt, c1).
Proof.
  unfold apply_settings_to_container. intros Hrun.
  destruct (settings_to_container_cases ns ps c)
    as [(e & ps' & Hcase)|(ns_spec & ps' & spec1 & Hns & Hin & Hsp1 & Hcase)];
    rewrite Hcase in Hrun; [done|].
  destruct (for_each container_fields (override spec1) c) as [r c'] eqn:Hall.
  simplify_eq. split; [by exists ns_spec, ps|]. by exists ns_spec, spec1.
Qed.

Lemma no_envFrom_contains ps ps_spec :
  no_envFrom ps → Py.getitem ps "spec" = Ret ps_spec →
  (∃ d, ps_spec = JDict d) →
  Py.contains ps_spec (JStr "envFrom") = Ret false.
Proof.
  intros Hno Hspec [d ->]. apply getitem_field_of in Hspec.
  specialize (Hno _ Hspec). simpl in *. by rewrite Hno.
Qed.

Lemma inject_Ret_dict ns_spec ps_spec spec1 :
  inject_user_context ns_spec ps_spec = (Ret tt, spec1) →
  ∃ d d1, ps_spec = JDict d ∧ spec1 = JDict d1 ∧ ∀ k, k ≠ "env" → d1 !! k = d !! k.
Proof.
  intros Hrun. unfold inject_user_context in Hrun. pose proof Hrun as Hrun'.
  step_reads Hrun' flag Hflag. destruct ps_spec as [| | | | |d]; try done.
  destruct (inject_user_context_writes ns_spec d _ _ _ Hrun (same_but_refl _ _))
    as (d1 & -> & Hd1).
  by exists d, d1.
Qed.

Lemma no_envFrom_injected ns_spec ps ps1 :
  within "spec" (inject_user_context ns_spec) ps = (Ret tt, ps1) →
  no_envFrom ps → no_envFrom ps1.
Proof.
  intros Hin Hno.
  apply within_Ret in Hin as (d & sub & sub' & -> & Hsub & Hm & ->).
  apply inject_Ret_dict in Hm as (ds & ds1 & -> & -> & Hk).
  intros ps_spec. simpl. rewrite lookup_insert_eq. intros [= <-]. simpl.
  rewrite Hk by done. by apply (Hno (JDict ds)).
Qed.

Lemma apply_settings_to_container_done ns ps c ps1 c1 :
  no_envFrom ps →
  apply_settings_to_container ns (Heap ps c) = (Ret tt, Heap ps1 c1) →
  container_done ns ps1 c1.
Proof.
  intros Hno Hrun [ps2 c2] Hrun2.
  apply apply_settings_to_container_Ret in Hrun
    as (Hinj & ns_spec & spec1 & Hns & Hin & Hsp1 & Hall).
  apply apply_settings_to_container_Ret in Hrun2
    as (_ & ns_spec2 & spec2 & Hns2 & Hin2 & Hsp2 & Hall2).
  assert (ns_spec2 = ns_spec) as -> by congruence.
  pose proof (injected_settled ns ps1 ns_spec Hinj Hns _ Hin2) as ->.
  assert (spec2 = spec1) as -> by congruence.
  f_equal. eapply container_fields_settled; [|done..].
  apply (no_envFrom_contains ps1); [exact (no_envFrom_injected _ _ _ Hin Hno)|done|].
  apply within_Ret in Hin as (d & sub & sub' & -> & Hsub & Hm & ->).
  apply inject_Ret_dict in Hm as (ds & ds1 & -> & -> & Hk).
  simpl in Hsp1. rewrite lookup_insert_eq in Hsp1. injection Hsp1 as <-. eauto.
Qed.

(** ** Containers of a pod *)

Lemma container_at_cell pod field i :
  container_at pod field i
  = match pod_cell pod "spec" field with
    | Some (JList cs) => cs !! i
    | _ => None
    end.
Proof.
  unfold container_at, pod_cell.
  destruct pod as [| | | | |d]; try done. simpl.
  destruct (d !! "spec") as [[| | | | |spec]|]; try done.
Qed.

Lemma with_container_cell pod field i c c1 part f :
  container_at pod field i = Some c →
  pod_cell (with_container pod field i c1) part f
  = if decide (part = "spec" ∧ f = field)
    then match pod_cell pod "spec" field with
         | Some (JList cs) => Some (JList (<[i := c1]> cs))
         | _ => None
         end
    else pod_cell pod part f.
Proof.
  intros Hc. apply container_at_Some in Hc as (d & spec & cs & -> & Hspec & Hcs & Hi).
  unfold with_container, pod_cell. simpl. rewrite Hspec, Hcs. simpl.
  destruct (decide (part = "spec" ∧ f = field)) as [[-> ->]|Hne].
  - rewrite lookup_insert_eq. simpl. by rewrite lookup_insert_eq, Hcs.
  - destruct (decide (part = "spec")) as [->|Hp].
    + rewrite lookup_insert_eq, Hspec. simpl.
      rewrite lookup_insert_ne; [done|]. intros <-. by apply Hne.
    + by rewrite lookup_insert_ne.
Qed.

Lemma with_container_same pod field i c :
  container_at pod field i = Some c → with_container pod field i c = pod.
Proof.
  intros Hc. apply container_at_Some in Hc as (d & spec & cs & -> & Hspec & Hcs & Hi).
  unfold with_container. rewrite Hspec, Hcs.
  by rewrite (list_insert_id _ _ _ Hi), (insert_id _ _ _ Hcs), (insert_id _ _ _ Hspec).
Qed.

Lemma at_container_Ret field i (m : M heap unit) h h' :
  at_container field i m h = (Ret tt, h') →
  (container_at (target h) field i = None ∧ h' = h) ∨
  (∃ c ps1 c1, container_at (target h) field i = Some c ∧
     m (Heap (pod_setting h) c) = (Ret tt, Heap ps1 c1) ∧
     h' = Heap ps1 (with_container (target h) field i c1)).
Proof.
  unfold at_container. intros Hr.
  destruct (container_at (target h) field i) as [c|]; [|left; by simplify_eq].
  destruct (m (Heap (pod_setting h) c)) as [r [ps1 c1]] eqn:Hm. simplify_eq.
  right. by exists c, ps1, c1.
Qed.

(** ** The name of a container stays *)

Lemma keeps_setitem_get f g default r0 x :
  g ≠ f → keeps (fun obj => Py.get obj g default = r0) (setitem f x).
Proof.
  intros Hne. apply keeps_updates. intros s s' Hs <-.
  destruct s as [| | | | |d]; simpl in Hs; try done. injection Hs as <-.
  simpl. by rewrite lookup_insert_ne.
Qed.

Ltac get_tac :=
  repeat first
    [ apply keeps_setitem_get; done | apply keeps_lift | apply keeps_reads
    | apply keeps_ret | apply keeps_bind; [|intros ?] ].

Lemma container_fields_keep_name ps_spec r0 :
  keeps (fun obj => Py.get obj "name" (JStr "") = r0)
    (for_each container_fields (override ps_spec)).
Proof.
  apply keeps_for_each. intros [f st] Hin. unfold override. apply keeps_when_in.
  unfold container_fields, fields_before_envFrom in Hin. simpl in Hin.
  repeat (apply elem_of_cons in Hin as [[= -> ->]|Hin]);
    [..|by apply elem_of_nil in Hin]; simpl;
    unfold replace_with_get, replace_with_item, key_merge, replace_or_append,
      extend_field; get_tac.
Qed.

Lemma apply_settings_to_container_name ns ps c ps1 c1 :
  apply_settings_to_container ns (Heap ps c) = (Ret tt, Heap ps1 c1) →
  Py.get c1 "name" (JStr "") = Py.get c "name" (JStr "").
Proof.
  intros Hrun.
  apply apply_settings_to_container_Ret in Hrun as (_ & ns_spec & spec1 & _ & _ & _ & Hall).
  by apply (container_fields_keep_name spec1 _ _ _ _ Hall).
Qed.

Lemma container_names_insert cs i c c1 :
  cs !! i = Some c →
  Py.get c1 "name" (JStr "") = Py.get c "name" (JStr "") →
  container_names (JList (<[i := c1]> cs)) = container_names (JList cs).
Proof.
  intros Hi Hname. unfold container_names. simpl. f_equal.
  rewrite list_fmap_insert, Hname. apply list_insert_id.
  by rewrite list_lookup_fmap, Hi.
Qed.

(** ** The loop over the selected containers *)

Lemma container_loop_facts ns field sel ps pod ps' pod' :
  NoDup sel → no_envFrom ps →
  container_loop ns field sel (Heap ps pod) = (Ret tt, Heap ps' pod') →
  no_envFrom ps' ∧
  (injected ns ps → ps' = ps) ∧
  (∀ part f, ¬ (part = "spec" ∧ f = field) → pod_cell pod' part f = pod_cell pod part f) ∧
  container_names (containers_of pod' field) = container_names (containers_of pod field) ∧
  (∀ j, j ∉ sel → container_at pod' field j = container_at pod field j) ∧
  (∀ i c', i ∈ sel → container_at pod' field i = Some c' →
           injected ns ps' ∧ container_done ns ps' c').
Proof.
  unfold container_loop. revert ps pod.
  induction sel as [|i sel IH]; intros ps pod Hnd Hno Hrun; simpl in Hrun.
  { apply ret_run in Hrun as [_ [= <- <-]].
    split_and!; try done. intros i c' Hi. by apply elem_of_nil in Hi. }
  apply NoDup_cons in Hnd as [Hi Hnd].
  apply bind_Ret in Hrun as ([] & [psX podX] & Hstep & Hrest).
  apply at_container_Ret in Hstep
    as [[Hnone [= -> ->]]|(c & ps1 & c1 & Hc & Hcall & [= -> ->])]; simpl in *.
  - (* no container at [i] *)
    destruct (IH _ _ Hnd Hno Hrest) as (Hno' & Hps & Hcell & Hnames & Hidx & Hdone).
    split_and!; try done.
    + intros j Hj. apply Hidx. intros Hin. apply Hj. by right.
    + intros k c' Hk Hc'. apply elem_of_cons in Hk as [->|Hin]; [|by eapply Hdone].
      rewrite (Hidx _ Hi), Hnone in Hc'. done.
  - (* the container at [i] *)
    pose proof (apply_settings_to_container_Ret _ _ _ _ _ Hcall)
      as (Hinj & ns_spec & spec1 & Hns & Hin & Hsp1 & Hall).
    assert (no_envFrom ps1) as Hno1 by (by eapply no_envFrom_injected).
    destruct (IH _ _ Hnd Hno1 Hrest) as (Hno' & Hps & Hcell & Hnames & Hidx & Hdone).
    specialize (Hps Hinj). subst ps'.
    pose proof (container_at_Some _ _ _ _ Hc) as (d & spec & cs & Hpod & Hspec & Hcs & Hci).
    assert (pod_cell pod "spec" field = Some (JList cs)) as Hcell0.
    { subst pod. unfold pod_cell. simpl. by rewrite Hspec. }
    split_and!; try done.
    + intros Hinj0. exact (injected_settled ns ps ns_spec Hinj0 Hns _ Hin).
    + intros part f Hne. rewrite Hcell by done.
      rewrite (with_container_cell _ _ _ _ _ _ _ Hc). by rewrite decide_False.
    + rewrite Hnames. unfold containers_of.
      rewrite (with_container_cell _ _ _ _ _ _ _ Hc), decide_True by done.
      rewrite Hcell0. simpl. apply (container_names_insert _ _ c); [done|].
      by eapply apply_settings_to_container_name.
    + intros j Hj. rewrite Hidx by (intros Hin'; apply Hj; by right).
      rewrite !container_at_cell.
      rewrite (with_container_cell _ _ _ _ _ _ _ Hc), decide_True by done.
      rewrite Hcell0. apply list_lookup_insert_ne. intros ->. apply Hj. left.
    + intros k c' Hk Hc'. apply elem_of_cons in Hk as [->|Hin']; [|by eapply Hdone].
      split; [done|].
      rewrite (Hidx _ Hi) in Hc'. rewrite container_at_cell in Hc'.
      rewrite (with_container_cell _ _ _ _ _ _ _ Hc), decide_True in Hc' by done.
      rewrite Hcell0 in Hc'.
      rewrite list_lookup_insert_eq in Hc' by (by eapply lookup_lt_Some).
      injection Hc' as <-.
      exact (apply_settings_to_container_done ns ps c ps1 c1 Hno Hcall).
Qed.

Lemma container_loop_settled ns field sel ps pod :
  (∀ i c, i ∈ sel → container_at pod field i = Some c → container_done ns ps c) →
  settled (container_loop ns field sel) (Heap ps pod).
Proof.
  unfold container_loop. induction sel as [|i sel IH]; intros Hdone h' Hrun; simpl in Hrun.
  - by apply ret_run in Hrun as [_ ->].
  - apply bind_Ret in Hrun as ([] & hX & Hstep & Hrest).
    assert (hX = Heap ps pod) as ->.
    { apply at_container_Ret in Hstep
        as [[_ ->]|(c & ps1 & c1 & Hc & Hcall & ->)]; [done|]. simpl in *.
      pose proof (Hdone i c (ltac:(left)) Hc _ Hcall) as [= -> ->].
      by rewrite with_container_same. }
    apply IH; [|done]. intros j c Hj. apply Hdone. by right.
Qed.

(** ** The selection of the containers *)

Lemma positions_from_names (keep : json → outcome bool) (keep' : outcome json → outcome bool)
    (name : json → outcome json) i cs :
  (∀ c, keep c = keep' (name c)) →
  positions_from i keep cs = positions_from i keep' (name <$> cs).
Proof.
  intros Hk. revert i. induction cs as [|c cs IH]; intros i; simpl; [done|].
  by rewrite Hk, IH.
Qed.

Lemma positions_from_bounds {A} (keep : A → outcome bool) i l sel :
  positions_from i keep l = Ret sel → NoDup sel ∧ ∀ j, j ∈ sel → (i ≤ j)%nat.
Proof.
  revert i sel. induction l as [|x l IH]; intros i sel Hsel; simpl in Hsel.
  - injection Hsel as <-. split; [constructor|]. intros j Hj. by apply elem_of_nil in Hj.
  - apply obind_Ret in Hsel as (b & Hb & Hsel).
    apply obind_Ret in Hsel as (r & Hr & Hsel). injection Hsel as <-.
    destruct (IH _ _ Hr) as [Hnd Hge]. destruct b; [|split; [done|]].
    + split.
      * apply NoDup_cons. split; [|done]. intros Hi. apply Hge in Hi. lia.
      * intros j Hj. apply elem_of_cons in Hj as [->|Hj]; [lia|]. apply Hge in Hj. lia.
    + intros j Hj. apply Hge in Hj. lia.
Qed.

Lemma filter_pod_containers_names `{Libraries} containers containers' pod pod' selector :
  ¬ selects_by_path selector →
  container_names containers' = container_names containers →
  filter_pod_containers containers' pod' selector
  = filter_pod_containers containers pod selector.
Proof.
  intros Hpath Hnames. unfold filter_pod_containers.
  destruct (Py.contains selector (JStr "regex")) as [[|]|e] eqn:Hregex; simpl; [| |done].
  - destruct (Py.getitem selector "regex") as [regex|e]; simpl; [|done].
    destruct (re_compile _) as [matches|e]; simpl; [|done].
    unfold container_names in Hnames.
    destruct (Py.iter containers) as [cs|e], (Py.iter containers') as [cs'|e'];
      simpl in *; try done.
    + injection Hnames as Hnames.
      rewrite (positions_from_names _
                 (fun o => let? name := o in matches name)
                 (fun c => Py.get c "name" (JStr "")) _ cs) by done.
      rewrite (positions_from_names _
                 (fun o => let? name := o in matches name)
                 (fun c => Py.get c "name" (JStr "")) _ cs') by done.
      by rewrite Hnames.
    + by injection Hnames as ->.
  - destruct (Py.contains selector (JStr "jsonpath")) as [[|]|e] eqn:Hjp; simpl;
      [|done..].
    destruct Hpath. by split.
Qed.

Lemma filter_pod_containers_NoDup `{Libraries} containers pod selector sel :
  filter_pod_containers containers pod selector = Ret sel → NoDup sel.
Proof.
  unfold filter_pod_containers. intros Hsel.
  apply obind_Ret in Hsel as (has & _ & Hsel). destruct has.
  - apply obind_Ret in Hsel as (regex & _ & Hsel).
    apply obind_Ret in Hsel as (matches & _ & Hsel).
    apply obind_Ret in Hsel as (cs & _ & Hsel).
    by apply positions_from_bounds in Hsel as [? _].
  - apply obind_Ret in Hsel as (has & _ & Hsel). destruct has.
    + apply obind_Ret in Hsel as (path & _ & Hsel).
      apply obind_Ret in Hsel as (find & _ & Hsel).
      apply obind_Ret in Hsel as (cs & _ & Hsel).
      by apply positions_from_bounds in Hsel as [? _].
    + injection Hsel as <-. constructor.
Qed.

Lemma containers_of_get pod pod_spec field containers :
  Py.getitem pod "spec" = Ret pod_spec →
  Py.get pod_spec field (JList []) = Ret containers →
  containers = containers_of pod field.
Proof.
  intros Hspec Hget. apply getitem_field_of in Hspec.
  unfold containers_of, pod_cell. rewrite Hspec.
  destruct pod_spec as [| | | | |d]; try done. simpl in *. injection Hget as <-.
  by destruct (d !! field).
Qed.

Lemma apply_to_selected_Ret `{Libraries} ns field whole ps pod ps' pod' :
  apply_to_selected ns field whole (Heap ps pod) = (Ret tt, Heap ps' pod') →
  ∃ pod_spec selector sel,
    Py.getitem pod "spec" = Ret pod_spec ∧
    selector_of ps = Ret selector ∧
    filter_pod_containers (containers_of pod field)
      (if whole then pod else pod_spec) selector = Ret sel ∧
    container_loop ns field sel (Heap ps pod) = (Ret tt, Heap ps' pod').
Proof.
  unfold apply_to_selected. intros Hrun.
  step_reads Hrun pod_spec Hpod. step_lift Hrun containers Hcs.
  step_reads Hrun arg Harg. step_reads Hrun ps_spec Hps. step_lift Hrun selector Hsel.
  step_lift Hrun sel Hfilter. simpl in *. injection Harg as <-.
  exists pod_spec, selector, sel. split; [done|]. split.
  { unfold selector_of. by rewrite Hps. }
  by rewrite <- (containers_of_get _ _ _ _ Hpod Hcs).
Qed.

Lemma apply_to_selected_settled `{Libraries} ns field (whole : bool) ps pod arg
    selector sel ps2 pod2 :
  selector_of ps = Ret selector →
  ¬ selects_by_path selector →
  filter_pod_containers (containers_of pod field) arg selector = Ret sel →
  selector_of ps2 = Ret selector →
  container_names (containers_of pod2 field) = container_names (containers_of pod field) →
  (∀ i c, i ∈ sel → container_at pod2 field i = Some c → container_done ns ps2 c) →
  settled (apply_to_selected ns field whole) (Heap ps2 pod2).
Proof.
  intros Hsel Hpath Hfilter Hsel2 Hnames Hdone [ps2' pod2'] Hrun2.
  apply apply_to_selected_Ret in Hrun2
    as (pod_spec2 & selector2 & sel2 & Hpod2 & Hsel2' & Hfilter2 & Hloop2).
  assert (selector2 = selector) as -> by congruence.
  rewrite (filter_pod_containers_names (containers_of pod field) _ arg
             (if whole then pod2 else pod_spec2) selector Hpath Hnames) in Hfilter2.
  assert (sel2 = sel) as -> by congruence.
  by apply (container_loop_settled ns field sel ps2 pod2 Hdone).
Qed.

(** ** The statements on the pod *)

Lemma keeps_within_cell_other part part' f' v (m : M json unit) :
  part' ≠ part → keeps (fun pod => pod_cell pod part' f' = v) (within part m).
Proof.
  intros Hne pod r pod' Hr <-. unfold pod_cell.
  by rewrite (keeps_within_other part part' (field_of pod part') m Hne pod r pod' Hr eq_refl).
Qed.

Lemma keeps_within_cell_field part f' v (m : M json unit) :
  (∀ w, keeps (fun sub => field_of sub f' = w) m) →
  keeps (fun pod => pod_cell pod part f' = v) (within part m).
Proof.
  intros Hm pod r pod' Hr <-. unfold within in Hr. unfold pod_cell.
  destruct pod as [| | | | |d]; try by simplify_eq.
  destruct (d !! part) as [sub|] eqn:Hsub; [|by simplify_eq].
  destruct (m sub) as [r1 sub'] eqn:Hrun. simplify_eq. simpl.
  rewrite lookup_insert_eq, Hsub. by apply (Hm _ _ _ _ Hrun).
Qed.

Lemma settles_within part f (m : M json unit) :
  settles (fun sub => field_of sub f) m →
  settles (fun pod => pod_cell pod part f) (within part m).
Proof.
  intros Hm pod pod' Hrun pod2 Hcell pod2' Hrun2.
  apply within_Ret in Hrun as (d & sub & sub' & -> & Hsub & Hsubrun & ->).
  apply within_Ret in Hrun2 as (d2 & sub2 & sub2' & -> & Hsub2 & Hsubrun2 & ->).
  unfold pod_cell in Hcell. simpl in Hcell. rewrite lookup_insert_eq, Hsub2 in Hcell.
  rewrite (Hm _ _ Hsubrun _ Hcell _ Hsubrun2). by rewrite insert_id.
Qed.

Lemma pod_fields_leave :
  Forall (fun pfs : string * (string * strategy) => leaves_other_fields pfs.2.2) pod_fields.
Proof.
  repeat constructor; simpl;
    auto using replace_with_get_leaves, key_merge_leaves, replace_or_append_leaves.
Qed.

Lemma pod_fields_settle ps_spec pfs :
  pfs ∈ pod_fields →
  settles (fun pod => pod_cell pod pfs.1 pfs.2.1) (pod_override ps_spec pfs).
Proof.
  intros Hin. unfold pod_override. apply settles_when_in, settles_within.
  unfold pod_fields in Hin.
  repeat (apply elem_of_cons in Hin as [->|Hin]); [..|by apply elem_of_nil in Hin];
    simpl;
    first [ apply replace_with_get_settles | apply key_merge_settles
          | apply replace_or_append_settles ].
Qed.

Lemma pod_fields_frame ps_spec x y v :
  x ∈ pod_fields → y ∈ pod_fields → (x.1, x.2.1) ≠ (y.1, y.2.1) →
  keeps (fun pod => pod_cell pod y.1 y.2.1 = v) (pod_override ps_spec x).
Proof.
  intros Hx Hy Hne. unfold pod_override. apply keeps_when_in.
  destruct (decide (y.1 = x.1)) as [Heq|Hpart].
  - rewrite Heq. apply keeps_within_cell_field. intros w.
    pose proof pod_fields_leave as Hl. rewrite Forall_forall in Hl.
    apply (Hl x Hx). intros Hf. apply Hne. by rewrite Heq, Hf.
  - by apply keeps_within_cell_other.
Qed.

(** After the statements on the pod, they are settled on every pod with
    the same fields. *)
Lemma pod_fields_settled ps_spec pod podA pod2 :
  for_each pod_fields (pod_override ps_spec) pod = (Ret tt, podA) →
  (∀ pfs, pfs ∈ pod_fields → pod_cell pod2 pfs.1 pfs.2.1 = pod_cell podA pfs.1 pfs.2.1) →
  settled (for_each pod_fields (pod_override ps_spec)) pod2.
Proof.
  intros Hrun Hcells.
  apply (block_settles_from
           (fun pfs : string * (string * strategy) => (pfs.1, pfs.2.1))
           (fun k pod => pod_cell pod k.1 k.2) (pod_override ps_spec) pod_fields)
    with pod podA; try done.
  - intros x y v Hx Hy Hne. by apply pod_fields_frame.
  - intros x Hx. by apply pod_fields_settle.
  - compute_done.
Qed.

(** The statements on the pod read nothing of the field [env] of the
    pod-setting. *)
Lemma for_each_ext {S A} (l : list A) (body body' : A → M S unit) s :
  (∀ x s, x ∈ l → body x s = body' x s) → for_each l body s = for_each l body' s.
Proof.
  revert s. induction l as [|x l IH]; intros s Hext; simpl; [done|].
  unfold bind. rewrite Hext by left. destruct (body' x s) as [[[]|e] s1]; [|done].
  apply IH. intros y s' Hy. apply Hext. by right.
Qed.

Lemma pod_override_ext (s0 s1 : gmap string json) pfs pod :
  delete "env" s1 = delete "env" s0 → pfs ∈ pod_fields →
  pod_override (JDict s1) pfs pod = pod_override (JDict s0) pfs pod.
Proof.
  intros Hdel Hin.
  assert (∀ k, k ≠ "env" → s1 !! k = s0 !! k) as Hk.
  { intros k Hne. by rewrite <- (lookup_delete_ne s1 "env" k), Hdel, lookup_delete_ne. }
  unfold pod_fields in Hin.
  repeat (apply elem_of_cons in Hin as [->|Hin]); [..|by apply elem_of_nil in Hin];
    unfold pod_override, when_in, replace_with_get, key_merge, replace_or_append,
      extend_field, name_not_incoming; simpl;
    by rewrite Hk.
Qed.

(** Two pod-settings are the same but for the field [env] of their spec. *)
Lemma without_spec_env_inv ps ps' :
  without_spec_env ps' = without_spec_env ps →
  ps' = ps ∨
  ∃ d d' s0 s1, ps = JDict d ∧ ps' = JDict d' ∧
    d !! "spec" = Some (JDict s0) ∧ d' !! "spec" = Some (JDict s1) ∧
    delete "env" s1 = delete "env" s0.
Proof.
  unfold without_spec_env. intros Heq.
  destruct ps as [| | | | |d], ps' as [| | | | |d']; try (by left);
    try (destruct (d !! "spec") as [[]|]; by simplify_eq);
    try (destruct (d' !! "spec") as [[]|]; by simplify_eq).
  destruct (d !! "spec") as [sub|] eqn:Hsub, (d' !! "spec") as [sub'|] eqn:Hsub'.
  - destruct sub as [| | | | |s0], sub' as [| | | | |s1]; try (by left; simplify_eq);
      try (exfalso; injection Heq as Heq;
           first [ rewrite <- Heq, lookup_insert_eq in Hsub
                 | rewrite Heq, lookup_insert_eq in Hsub' ]; done).
    right. exists d, d', s0, s1. split_and!; try done.
    injection Heq as Heq.
    assert (<["spec" := JDict (delete "env" s1)]> d' !! "spec"
            = <["spec" := JDict (delete "env" s0)]> d !! "spec") as Hl by (by rewrite Heq).
    rewrite !lookup_insert_eq in Hl. by simplify_eq.
  - destruct sub as [| | | | |s0]; try (by left; simplify_eq).
    exfalso. injection Heq as Heq. rewrite Heq, lookup_insert_eq in Hsub'. done.
  - destruct sub' as [| | | | |s1]; try (by left; simplify_eq).
    exfalso. injection Heq as Heq. rewrite <- Heq, lookup_insert_eq in Hsub. done.
  - left. by simplify_eq.
Qed.

Lemma selector_of_without_env ps ps' :
  without_spec_env ps' = without_spec_env ps → selector_of ps' = selector_of ps.
Proof.
  intros Heq. apply without_spec_env_inv in Heq
    as [->|(d & d' & s0 & s1 & -> & -> & Hs0 & Hs1 & Hdel)]; [done|].
  unfold selector_of. simpl. rewrite Hs0, Hs1. simpl.
  by rewrite <- (lookup_delete_ne s1 "env" "containerSelector"), Hdel, lookup_delete_ne.
Qed.

Lemma pod_fields_without_env ps ps' spec spec' pod :
  without_spec_env ps' = without_spec_env ps →
  Py.getitem ps "spec" = Ret spec → Py.getitem ps' "spec" = Ret spec' →
  for_each pod_fields (pod_override spec') pod = for_each pod_fields (pod_override spec) pod.
Proof.
  intros Heq Hspec Hspec'. apply without_spec_env_inv in Heq
    as [->|(d & d' & s0 & s1 & -> & -> & Hs0 & Hs1 & Hdel)].
  { by assert (spec' = spec) as -> by congruence. }
  simpl in Hspec, Hspec'. rewrite Hs0 in Hspec. rewrite Hs1 in Hspec'. simplify_eq.
  apply for_each_ext. intros x s Hx. by apply pod_override_ext.
Qed.

Lemma on_target_Ret (m : M json unit) ps pod h :
  on_target m (Heap ps pod) = (Ret tt, h) →
  ∃ pod', m pod = (Ret tt, pod') ∧ h = Heap ps pod'.
Proof.
  unfold on_target. simpl. destruct (m pod) as [r pod'] eqn:Hm. intros [= -> <-].
  by exists pod'.
Qed.

(** What a completed call of [apply_settings_to_pod] has done. *)
Lemma apply_settings_to_pod_Ret `{Libraries} ns ps pod h1 :
  apply_settings_to_pod ns (Heap ps pod) = (Ret tt, h1) →
  ∃ ps_spec podA hB,
    Py.getitem ps "spec" = Ret ps_spec ∧
    for_each pod_fields (pod_override ps_spec) pod = (Ret tt, podA) ∧
    apply_to_selected ns "initContainers" false (Heap ps podA) = (Ret tt, hB) ∧
    apply_to_selected ns "containers" true hB = (Ret tt, h1).
Proof.
  unfold apply_settings_to_pod. intros Hrun.
  step_reads Hrun ps_spec Hps. step_reads Hrun pod_spec Hpod.
  apply bind_Ret in Hrun as ([] & hA & HA & Hrun).
  apply on_target_Ret in HA as (podA & HA & ->).
  apply bind_Ret in Hrun as ([] & hB & HB & Hrun).
  by exists ps_spec, podA, hB.
Qed.

Lemma selected_setting_env `{Libraries} ns field whole ps pod ps' pod' :
  apply_to_selected ns field whole (Heap ps pod) = (Ret tt, Heap ps' pod') →
  without_spec_env ps' = without_spec_env ps.
Proof.
  intros Hrun.
  refine (apply_to_selected_keeps
            (fun ps' => without_spec_env ps' = without_spec_env ps) ns _ field whole
            _ _ _ Hrun _); [|done].
  intros ns_spec s r0 s' Hr Hs. erewrite inject_run_env by done. done.
Qed.

Lemma containers_of_cell pod pod' field :
  pod_cell pod' "spec" field = pod_cell pod "spec" field →
  containers_of pod' field = containers_of pod field.
Proof. unfold containers_of. by intros ->. Qed.

(** ** Applying a pod-setting twice *)

(** C4 (amended).  When the pod-setting has no [envFrom] field and its
    container selector is not a path expression (it is a regular
    expression, or selects nothing), a second completed call of
    [apply_settings_to_pod] on the result of a first completed call changes
    neither the pod nor the pod-setting. *)
Theorem apply_settings_to_pod_twice `{Libraries} ns ps pod h1 h2 :
  no_envFrom ps →
  (∀ selector, selector_of ps = Ret selector → ¬ selects_by_path selector) →
  apply_settings_to_pod ns (Heap ps pod) = (Ret tt, h1) →
  apply_settings_to_pod ns h1 = (Ret tt, h2) →
  h2 = h1.
Proof.
  intros Hno Hpath Hrun1 Hrun2.
  apply apply_settings_to_pod_Ret in Hrun1
    as (spec0 & podA & [psB podB] & Hspec0 & HA & HI & HC).
  destruct h1 as [ps1 pod1].
  (* the first application *)
  pose proof (selected_setting_env _ _ _ _ _ _ _ HI) as HenvB.
  pose proof (selected_setting_env _ _ _ _ _ _ _ HC) as Henv1.
  apply apply_to_selected_Ret in HI
    as (pod_specA & selI & selsI & HpodA & HselI & HfilterI & HloopI).
  apply apply_to_selected_Ret in HC
    as (pod_specB & selC & selsC & HpodB & HselC & HfilterC & HloopC).
  pose proof (container_loop_facts _ _ _ _ _ _ _
                (filter_pod_containers_NoDup _ _ _ _ HfilterI) Hno HloopI)
    as (HnoB & HpsB & HcellI & HnamesI & HidxI & HdoneI).
  pose proof (container_loop_facts _ _ _ _ _ _ _
                (filter_pod_containers_NoDup _ _ _ _ HfilterC) HnoB HloopC)
    as (Hno1 & Hps1 & HcellC & HnamesC & HidxC & HdoneC).
  assert (selector_of psB = selector_of ps) as HsB by (by apply selector_of_without_env).
  assert (selector_of ps1 = selector_of psB) as Hs1 by (by apply selector_of_without_env).
  assert (selC = selI) as -> by congruence.
  assert (without_spec_env ps1 = without_spec_env ps) as Henv by congruence.
  (* the second application *)
  apply apply_settings_to_pod_Ret in Hrun2
    as (spec1 & podA2 & hB2 & Hspec1 & HA2 & HI2 & HC2).
  rewrite (pod_fields_without_env ps ps1 spec0 spec1 pod1 Henv Hspec0 Hspec1) in HA2.
  assert (podA2 = pod1) as ->.
  { apply (pod_fields_settled spec0 pod podA pod1 HA); [|done].
    intros pfs Hin. rewrite HcellC, HcellI; [done|..];
      unfold pod_fields in Hin;
      repeat (apply elem_of_cons in Hin as [->|Hin]); try (by apply elem_of_nil in Hin);
      simpl; by intros [_ ?]. }
  assert (pod_cell pod1 "spec" "initContainers" = pod_cell podB "spec" "initContainers")
    as Hinit by (apply HcellC; by intros [_ ?]).
  assert (hB2 = Heap ps1 pod1) as ->.
  { apply (apply_to_selected_settled ns "initContainers" false ps podA _ selI selsI
             ps1 pod1 HselI (Hpath _ HselI) HfilterI).
    - congruence.
    - by rewrite (containers_of_cell _ _ _ Hinit).
    - intros i c Hi Hc. rewrite container_at_cell, Hinit, <- container_at_cell in Hc.
      destruct (HdoneI i c Hi Hc) as [Hinj Hdone]. by rewrite (Hps1 Hinj).
    - done. }
  apply (apply_to_selected_settled ns "containers" true psB podB _ selI selsC
           ps1 pod1 HselC (Hpath _ HselI) HfilterC).
  - congruence.
  - done.
  - intros i c Hi Hc. by destruct (HdoneC i c Hi Hc).
  - done.
Qed.

Lemma apply_settings_to_pod_twice_witness :
  apply_settings_to_pod (H := Examples.stand_in) Examples.ns_team_a
    (Heap Examples.setting_user Examples.pod_web)
  = (Ret tt, Heap Examples.setting_user_applied
               (Examples.pod_web_with
                  [("image", JStr "img");
                   ("env", JList [Examples.named "FOO" "1";
                                  Examples.named "USERNAME" "alice";
                                  Examples.named "USEREMAIL" "a@x.com"])])) ∧
  (apply_settings_to_pod (H := Examples.stand_in) Examples.ns_team_a
     (apply_settings_to_pod (H := Examples.stand_in) Examples.ns_team_a
        (Heap Examples.setting_user Examples.pod_web)).2).2
  = (apply_settings_to_pod (H := Examples.stand_in) Examples.ns_team_a
       (Heap Examples.setting_user Examples.pod_web)).2.
Proof.
  split; [vm_compute; reflexivity|].
  apply (apply_settings_to_pod_twice (H := Examples.stand_in) Examples.ns_team_a
           Examples.setting_user Examples.pod_web).
  - intros ps_spec Hspec. vm_compute in Hspec. injection Hspec as <-. reflexivity.
  - intros selector Hsel. vm_compute in Hsel. injection Hsel as <-.
    intros [Hregex _]. vm_compute in Hregex. discriminate Hregex.
  - vm_compute. reflexivity.
  - vm_compute. reflexivity.
Defined.

(** C4 as stated fails: the [envFrom] statement extends the list of the
    container with the sources of the pod-setting at every application.
    The pod-setting selects the pod, both applications complete, and the
    second leaves the source twice in the container. *)
Lemma apply_settings_to_pod_extends_envFrom_again :
  filter_pod_settings [Examples.setting_envFrom] (JStr "team-a")
    (Examples.pod_web_with [("image", JStr "img"); ("envFrom", JList [])])
  = Ret [0%nat] ∧
  apply_settings_to_pod (H := Examples.stand_in) Examples.ns_team_a
    (Heap Examples.setting_envFrom
       (Examples.pod_web_with [("image", JStr "img"); ("envFrom", JList [])]))
  = (Ret tt,
     Heap Examples.setting_envFrom
       (Examples.pod_web_with
          [("image", JStr "img:2"); ("env", JList [Examples.named "FOO" "1"]);
           ("envFrom", JList [Examples.config_map])])) ∧
  apply_settings_to_pod (H := Examples.stand_in) Examples.ns_team_a
    (Heap Examples.setting_envFrom
       (Examples.pod_web_with
          [("image", JStr "img:2"); ("env", JList [Examples.named "FOO" "1"]);
           ("envFrom", JList [Examples.config_map])]))
  = (Ret tt,
     Heap Examples.setting_envFrom
       (Examples.pod_web_with
          [("image", JStr "img:2"); ("env", JList [Examples.named "FOO" "1"]);
           ("envFrom", JList [Examples.config_map; Examples.config_map])])) ∧
  Examples.pod_web_with
    [("image", JStr "img:2"); ("env", JList [Examples.named "FOO" "1"]);
     ("envFrom", JList [Examples.config_map; Examples.config_map])]
  ≠ Examples.pod_web_with
      [("image", JStr "img:2"); ("env", JList [Examples.named "FOO" "1"]);
       ("envFrom", JList [Examples.config_map])].
Proof.
  split_and!; try (vm_compute; reflexivity).
  intros Heq. vm_compute in Heq. discriminate Heq.
Qed.

(** * Further properties of the admission module *)

(** ** Positions kept by a filter *)

Lemma positions_from_elem {A} (keep : A → outcome bool) k l sel :
  positions_from k keep l = Ret sel →
  ∀ i, i ∈ sel ↔ ∃ j x, i = (k + j)%nat ∧ l !! j = Some x ∧ keep x = Ret true.
Proof.
  revert k sel. induction l as [|x l IH]; intros k sel Hsel i; simpl in Hsel.
  - injection Hsel as <-. split.
    + intros Hi. by apply elem_of_nil in Hi.
    + by intros (j & y & _ & Hj & _).
  - apply obind_Ret in Hsel as (b & Hb & Hsel).
    apply obind_Ret in Hsel as (r & Hr & Hsel). injection Hsel as <-.
    specialize (IH _ _ Hr i).
    assert (i ∈ r ↔ ∃ j y, i = (k + S j)%nat ∧ l !! j = Some y ∧ keep y = Ret true) as IH'.
    { rewrite IH. split; intros (j & y & -> & Hj & Hy); exists j, y; split_and!; (done || lia). }
    split.
    + intros Hi. destruct b.
      * apply elem_of_cons in Hi as [->|Hi].
        -- exists 0%nat, x. split_and!; [lia|done|done].
        -- apply IH' in Hi as (j & y & -> & Hj & Hy). by exists (S j), y.
      * apply IH' in Hi as (j & y & -> & Hj & Hy). by exists (S j), y.
    + intros (j & y & -> & Hj & Hy). destruct j as [|j]; simpl in Hj.
      * injection Hj as <-. rewrite Hy in Hb. injection Hb as <-.
        rewrite Nat.add_0_r. left.
      * assert ((k + S j)%nat ∈ r) as Hin by (apply IH'; by exists j, y).
        destruct b; [by right|done].
Qed.

Lemma positions_from_complete {A} (keep : A → outcome bool) k l sel :
  positions_from k keep l = Ret sel → ∀ x, x ∈ l → ∃ b, keep x = Ret b.
Proof.
  revert k sel. induction l as [|x l IH]; intros k sel Hsel y Hy; simpl in Hsel.
  - by apply elem_of_nil in Hy.
  - apply obind_Ret in Hsel as (b & Hb & Hsel).
    apply obind_Ret in Hsel as (r & Hr & Hsel).
    apply elem_of_cons in Hy as [->|Hy]; [by exists b|by eapply IH].
Qed.

Lemma positions_from_sorted {A} (keep : A → outcome bool) k l sel :
  positions_from k keep l = Ret sel →
  StronglySorted lt sel ∧ Forall (fun i => (k ≤ i < k + length l)%nat) sel.
Proof.
  revert k sel. induction l as [|x l IH]; intros k sel Hsel; simpl in Hsel.
  - injection Hsel as <-. split; constructor.
  - apply obind_Ret in Hsel as (b & Hb & Hsel).
    apply obind_Ret in Hsel as (r & Hr & Hsel). injection Hsel as <-.
    destruct (IH _ _ Hr) as [Hs Hb'].
    assert (Forall (fun i => (k ≤ i < k + length (x :: l))%nat) r) as Hr'.
    { eapply Forall_impl; [done|]. simpl. intros; lia. }
    destruct b; [|done]. split.
    + constructor; [done|]. eapply Forall_impl; [exact Hb'|]. simpl. intros; lia.
    + constructor; [simpl; lia|done].
Qed.

Lemma positions_from_raises {A} (keep : A → outcome bool) k l1 x l2 sel e :
  positions_from k keep l1 = Ret sel → keep x = Raise e →
  positions_from k keep (l1 ++ x :: l2) = Raise e.
Proof.
  revert k sel. induction l1 as [|y l1 IH]; intros k sel Hsel Hx; simpl in *.
  - by rewrite Hx.
  - apply obind_Ret in Hsel as (b & Hb & Hsel).
    apply obind_Ret in Hsel as (r & Hr & Hsel).
    rewrite Hb. simpl. by rewrite (IH _ _ Hr Hx).
Qed.

(** X1.  When the filter completes, the pod-settings it returns are those of
    the namespace, and no other: the labels of the pod and the selectors
    play no part. *)
Theorem filter_pod_settings_by_namespace pod_settings namespace pod sel :
  filter_pod_settings pod_settings namespace pod = Ret sel →
  ∀ i, i ∈ sel ↔ ∃ ps, pod_settings !! i = Some ps ∧ in_namespace namespace ps.
Proof.
  unfold filter_pod_settings. intros Hsel i.
  rewrite (positions_from_elem _ _ _ _ Hsel i). split.
  - intros (j & ps & -> & Hj & Hkeep). exists ps. split; [done|].
    apply pod_setting_appended_by_namespace in Hkeep as (m & n & Hm & Hn & Heq).
    by exists m, n.
  - intros (ps & Hi & m & n & Hm & Hn & Heq). exists i, ps. split_and!; [done|done|].
    destruct (positions_from_complete _ _ _ _ Hsel ps) as [b Hb].
    { by eapply list_elem_of_lookup_2. }
    rewrite Hb. f_equal.
    apply pod_setting_appended_by_namespace in Hb as (m' & n' & Hm' & Hn' & ->).
    congruence.
Qed.

(** X2.  The pod-settings returned are in the order of the list given, each
    once. *)
Theorem filter_pod_settings_in_order pod_settings namespace pod sel :
  filter_pod_settings pod_settings namespace pod = Ret sel →
  StronglySorted lt sel ∧ Forall (fun i => is_Some (pod_settings !! i)) sel.
Proof.
  unfold filter_pod_settings. intros Hsel.
  destruct (positions_from_sorted _ _ _ _ Hsel) as [Hs Hb]. split; [done|].
  eapply Forall_impl; [exact Hb|]. simpl. intros i Hi.
  apply lookup_lt_is_Some. lia.
Qed.

(** X3.  A pod-setting of the namespace whose [spec] cannot be read makes the
    filter raise, whatever the pod-settings after it: the pod-settings
    before it that the filter had kept are lost with it. *)
Theorem filter_pod_settings_unreadable_spec before ps after namespace pod sel
    pod_metadata pod_labels e :
  filter_pod_settings before namespace pod = Ret sel →
  in_namespace namespace ps →
  Py.getitem pod "metadata" = Ret pod_metadata →
  Py.get pod_metadata "labels" (JDict ∅) = Ret pod_labels →
  Py.getitem ps "spec" = Raise e →
  filter_pod_settings (before ++ ps :: after) namespace pod = Raise e.
Proof.
  unfold filter_pod_settings. intros Hsel (m & n & Hm & Hn & Heq) Hpm Hpl Hspec.
  apply (positions_from_raises _ _ _ _ _ _ _ Hsel).
  unfold pod_setting_appended. rewrite Hm. simpl. rewrite Hn. simpl.
  rewrite Heq. simpl. rewrite Hpm. simpl. rewrite Hpl. simpl. by rewrite Hspec.
Qed.

(** X4.  The containers selected are containers of the list given, in its
    order, each once. *)
Theorem filter_pod_containers_in_order `{Libraries} containers pod selector sel :
  filter_pod_containers containers pod selector = Ret sel →
  StronglySorted lt sel ∧
  ∀ i, i ∈ sel → ∃ cs c, Py.iter containers = Ret cs ∧ cs !! i = Some c.
Proof.
  unfold filter_pod_containers. intros Hsel.
  apply obind_Ret in Hsel as (has & _ & Hsel). destruct has.
  - apply obind_Ret in Hsel as (regex & _ & Hsel).
    apply obind_Ret in Hsel as (matches & _ & Hsel).
    apply obind_Ret in Hsel as (cs & Hcs & Hsel).
    destruct (positions_from_sorted _ _ _ _ Hsel) as [Hs Hb]. split; [done|].
    intros i Hi. rewrite Forall_forall in Hb. specialize (Hb i Hi).
    destruct (lookup_lt_is_Some_2 cs i) as [c Hc]; [lia|]. by exists cs, c.
  - apply obind_Ret in Hsel as (has & _ & Hsel). destruct has.
    + apply obind_Ret in Hsel as (path & _ & Hsel).
      apply obind_Ret in Hsel as (find & _ & Hsel).
      apply obind_Ret in Hsel as (cs & Hcs & Hsel).
      destruct (positions_from_sorted _ _ _ _ Hsel) as [Hs Hb]. split; [done|].
      intros i Hi. rewrite Forall_forall in Hb. specialize (Hb i Hi).
      destruct (lookup_lt_is_Some_2 cs i) as [c Hc]; [lia|]. by exists cs, c.
    + injection Hsel as <-. split; [constructor|]. intros i Hi.
      by apply elem_of_nil in Hi.
Qed.

(** X5.  With a [regex] key, a container is selected exactly when the compiled
    pattern matches its name, a container without name being matched as
    the empty name: a [jsonpath] key beside it and the pod play no part. *)
Theorem filter_pod_containers_by_name `{Libraries} (cs : list json) pod
    (selector : gmap string json) regex matches sel :
  selector !! "regex" = Some regex →
  re_compile (if Py.eq regex (JStr "*") then JStr ".*" else regex) = Ret matches →
  filter_pod_containers (JList cs) pod (JDict selector) = Ret sel →
  ∀ i, i ∈ sel ↔
       ∃ c name, cs !! i = Some c ∧ Py.get c "name" (JStr "") = Ret name ∧
                 matches name = Ret true.
Proof.
  intros Hregex Hcompile Hsel i. unfold filter_pod_containers in Hsel. simpl in Hsel.
  rewrite Hregex in Hsel. simpl in Hsel.
  rewrite Hcompile in Hsel. simpl in Hsel.
  rewrite (positions_from_elem _ _ _ _ Hsel i). split.
  - intros (j & c & -> & Hj & Hkeep).
    apply obind_Ret in Hkeep as (name & Hname & Hm). by exists c, name.
  - intros (c & name & Hc & Hname & Hm). exists i, c. split_and!; [done|done|].
    by rewrite Hname.
Qed.

(** X6.  With a [jsonpath] key and no [regex] key, a container is selected
    exactly when its name (the empty name when it has none) is one of the
    values the path finds in the pod. *)
Theorem filter_pod_containers_by_path `{Libraries} (cs : list json) pod
    (selector : gmap string json) path find values sel :
  selector !! "regex" = None →
  selector !! "jsonpath" = Some path →
  jsonpath_parse path = Ret find →
  find pod = Ret values →
  filter_pod_containers (JList cs) pod (JDict selector) = Ret sel →
  ∀ i, i ∈ sel ↔
       ∃ c name, cs !! i = Some c ∧ Py.get c "name" (JStr "") = Ret name ∧
                 Py.mem name values = true.
Proof.
  intros Hregex Hpath Hparse Hfind Hsel i. unfold filter_pod_containers in Hsel.
  simpl in Hsel. rewrite Hregex, Hpath in Hsel. simpl in Hsel.
  rewrite Hparse in Hsel. simpl in Hsel.
  rewrite (positions_from_elem _ _ _ _ Hsel i). split.
  - intros (j & c & -> & Hj & Hkeep).
    apply obind_Ret in Hkeep as (name & Hname & Hm). rewrite Hfind in Hm. simpl in Hm.
    injection Hm as Hm. by exists c, name.
  - intros (c & name & Hc & Hname & Hm). exists i, c. split_and!; [done|done|].
    rewrite Hname. simpl. rewrite Hfind. simpl. by rewrite Hm.
Qed.

(** ** A statement of a block, seen from the end of the block *)

Lemma for_each_own_cell {S X K V} (key : X → K) (cell : K → S → V)
    (body : X → M S unit) (l : list X) x s s1 :
  (∀ a b v, a ∈ l → b ∈ l → key a ≠ key b →
            keeps (fun s => cell (key b) s = v) (body a)) →
  NoDup (key <$> l) → x ∈ l →
  for_each l body s = (Ret tt, s1) →
  ∃ o o', cell (key x) o = cell (key x) s ∧ body x o = (Ret tt, o') ∧
          cell (key x) s1 = cell (key x) o'.
Proof.
  intros Hframe Hnd Hx Hrun.
  apply list_elem_of_split in Hx as (l1 & l2 & ->).
  rewrite for_each_app in Hrun. apply bind_Ret in Hrun as ([] & o & H1 & Hrun).
  simpl in Hrun. apply bind_Ret in Hrun as ([] & o' & Hx & H2).
  rewrite fmap_app, fmap_cons in Hnd.
  apply NoDup_app in Hnd as (_ & Hdisj & Hnd). apply NoDup_cons in Hnd as [Hx2 _].
  assert (x ∈ l1 ++ x :: l2) as Hin by (apply elem_of_app; right; left).
  exists o, o'. split_and!; [|done|].
  - refine (block_frame key cell body (l1 ++ x :: l2) Hframe l1 x _ _ Hin _ _ _ _ H1 eq_refl).
    + intros y Hy. apply elem_of_app. by left.
    + intros Hk. by apply (Hdisj _ Hk); left.
  - refine (block_frame key cell body (l1 ++ x :: l2) Hframe l2 x _ _ Hin _ _ _ _ H2 eq_refl).
    + intros y Hy. apply elem_of_app. right. by right.
    + done.
Qed.

Lemma container_fields_frame ps_spec (a b : string * strategy) v :
  a ∈ container_fields → b ∈ container_fields → a.1 ≠ b.1 →
  keeps (fun obj => field_of obj b.1 = v) (override ps_spec a).
Proof.
  intros Ha _ Hne. unfold override. apply keeps_when_in.
  pose proof container_fields_leave as Hl. rewrite Forall_forall in Hl.
  apply (Hl a Ha). by intros Heq.
Qed.

Lemma container_fields_NoDup : NoDup (fst <$> container_fields).
Proof. compute_done. Qed.

(** The statement of a field, seen from a completed run of the merge
    statements on a container: it ran on a container with the field as it
    was at first and left the field as it is at the end. *)
Lemma container_field_statement ps_spec c c1 fs :
  fs ∈ container_fields →
  for_each container_fields (override ps_spec) c = (Ret tt, c1) →
  ∃ o o', field_of o fs.1 = field_of c fs.1 ∧ override ps_spec fs o = (Ret tt, o') ∧
          field_of c1 fs.1 = field_of o' fs.1.
Proof.
  intros Hin Hrun.
  exact (for_each_own_cell fst (fun k obj => field_of obj k) (override ps_spec)
           container_fields fs c c1 (container_fields_frame ps_spec)
           container_fields_NoDup Hin Hrun).
Qed.

Lemma override_Ret ps_spec fs v o o' :
  field_of ps_spec fs.1 = Some v →
  override ps_spec fs o = (Ret tt, o') →
  fs.2 fs.1 ps_spec o = (Ret tt, o').
Proof.
  intros Hv Hrun. unfold override, when_in in Hrun. step_lift Hrun has Hhas.
  destruct ps_spec as [| | | | |d]; try done. simpl in Hv, Hhas.
  rewrite Hv in Hhas. rewrite bool_decide_eq_true_2 in Hhas by (by eexists).
  by injection Hhas as <-.
Qed.

(** ** What a completed call leaves in the container *)

(** The spec of the pod-setting after the [injectUserContext] block has
    the fields of the spec before it, [env] apart. *)
Lemma injected_spec_field ns_spec ps ps1 spec spec1 f :
  within "spec" (inject_user_context ns_spec) ps = (Ret tt, ps1) →
  Py.getitem ps "spec" = Ret spec → Py.getitem ps1 "spec" = Ret spec1 →
  f ≠ "env" → field_of spec1 f = field_of spec f.
Proof.
  intros Hin Hspec Hspec1 Hne.
  apply within_Ret in Hin as (d & sub & sub' & -> & Hsub & Hm & ->).
  simpl in Hspec, Hspec1. rewrite Hsub in Hspec. rewrite lookup_insert_eq in Hspec1.
  simplify_eq. apply inject_Ret_dict in Hm as (ds & ds1 & -> & -> & Hk). simpl.
  by apply Hk.
Qed.

(** X7.  A field the pod-setting replaces ([image], [imagePullPolicy],
    [command], [args]) has in the container, after a completed call, the
    value it has in the pod-setting. *)
Theorem apply_settings_to_container_replaces ns ps c ps1 c1 ps_spec f v :
  f ∈ ["image"; "imagePullPolicy"; "command"; "args"] →
  Py.getitem ps "spec" = Ret ps_spec →
  field_of ps_spec f = Some v →
  apply_settings_to_container ns (Heap ps c) = (Ret tt, Heap ps1 c1) →
  field_of c1 f = Some v.
Proof.
  intros Hf Hspec Hv Hrun.
  apply apply_settings_to_container_Ret in Hrun
    as (_ & ns_spec & spec1 & Hns & Hin & Hspec1 & Hall).
  assert (f ≠ "env") as Hne.
  { intros ->. repeat (apply elem_of_cons in Hf as [[=]|Hf]). by apply elem_of_nil in Hf. }
  rewrite <- (injected_spec_field _ _ _ _ _ f Hin Hspec Hspec1 Hne) in Hv.
  assert (∃ st, (f, st) ∈ container_fields ∧
                ∀ o o', st f spec1 o = (Ret tt, o') → field_of o' f = Some v)
    as (st & Hst & Hres).
  { repeat (apply elem_of_cons in Hf as [->|Hf]); [..|by apply elem_of_nil in Hf];
      [ exists replace_with_get | exists replace_with_get
      | exists replace_with_item | exists replace_with_item ];
      (split; [unfold container_fields, fields_before_envFrom; simpl; repeat first [by left | right]|]); intros o o' Ho;
      unfold replace_with_get, replace_with_item in Ho;
      step_lift Ho w Hw; apply setitem_Ret in Ho;
      rewrite (field_of_setitem _ _ _ _ Ho); f_equal;
      first [ exact (get_of_field _ _ _ _ Hv _ Hw)
            | exact (getitem_of_field _ _ _ Hv _ Hw) ]. }
  destruct (container_field_statement _ _ _ _ Hst Hall) as (o & o' & _ & Ho & Hend).
  simpl in Hend. rewrite Hend. apply (Hres o o'). exact (override_Ret spec1 (f, st) v o o' Hv Ho).
Qed.

Lemma get_default obj f d v :
  Py.get obj f d = Ret v → v = default d (field_of obj f).
Proof.
  destruct obj as [| | | | |m]; simpl; try done. intros [= <-]. by destruct (m !! f).
Qed.

Lemma replace_or_append_Ret f ps_spec o o' incoming :
  field_of ps_spec f = Some (JList incoming) →
  replace_or_append f ps_spec o = (Ret tt, o') →
  ∃ old kept,
    Py.iter (default (JList []) (field_of o f)) = Ret old ∧
    ofilterM (name_not_incoming f ps_spec) old = Ret kept ∧
    field_of o' f = Some (JList (kept ++ incoming)).
Proof.
  intros Hin Hrun. unfold replace_or_append in Hrun.
  step_reads Hrun oldv Hold. step_lift Hrun old Hiter. step_lift Hrun kept Hkept.
  step_setitem Hrun o1 Hset. unfold extend_field in Hrun.
  step_reads Hrun l Hl. step_lift Hrun inc Hinc. step_lift Hrun l' Hl'.
  apply setitem_Ret in Hrun.
  apply get_default in Hold. subst oldv.
  apply get_default in Hinc. rewrite Hin in Hinc. simpl in Hinc. subst inc.
  apply getitem_field_of in Hl. rewrite (field_of_setitem _ _ _ _ Hset) in Hl.
  injection Hl as <-. simpl in Hl'. injection Hl' as <-.
  exists old, kept. split_and!; [done|done|]. exact (field_of_setitem _ _ _ _ Hrun).
Qed.

Lemma ofilterM_filter {A} (f : A → outcome bool) (g : A → bool) l kept :
  ofilterM f l = Ret kept →
  (∀ x b, x ∈ l → f x = Ret b → b = g x) →
  kept = List.filter g l.
Proof.
  revert kept. induction l as [|x l IH]; intros kept Hk Hg; simpl in Hk.
  - by injection Hk as <-.
  - apply obind_Ret in Hk as (b & Hb & Hk).
    apply obind_Ret in Hk as (ys & Hys & Hk). injection Hk as <-.
    simpl. rewrite <- (Hg x b (ltac:(left)) Hb).
    rewrite <- (IH ys Hys); [done|]. intros y c Hy. apply Hg. by right.
Qed.

Lemma name_not_incoming_name_not_in f ps_spec incoming e b :
  field_of ps_spec f = Some (JList incoming) →
  name_not_incoming f ps_spec e = Ret b →
  b = name_not_in (names_of incoming) e.
Proof.
  intros Hin Hkeep. unfold name_not_incoming in Hkeep. unfold name_not_in.
  apply obind_Ret in Hkeep as (name & Hname & Hkeep). rewrite Hname.
  apply obind_Ret in Hkeep as (inc & Hinc & Hkeep).
  apply get_default in Hinc. rewrite Hin in Hinc. simpl in Hinc. subst inc.
  simpl in Hkeep. apply obind_Ret in Hkeep as (names & Hnames & Hkeep).
  apply omapM_names in Hnames as <-. by injection Hkeep.
Qed.

Lemma not_user_context_name_not_in e b :
  not_user_context e = Ret b →
  b = name_not_in [JStr "USERNAME"; JStr "USEREMAIL"] e.
Proof.
  unfold not_user_context, name_not_in. intros Hk.
  apply obind_Ret in Hk as (name & Hname & Hk). rewrite Hname. by injection Hk.
Qed.

(** X8.  A name-keyed list the pod-setting gives ([env], [volumeMounts])
    is, after a completed call, the list of the container filtered to the
    entries whose name is not the name of an entry of the pod-setting (each
    kept as often as it was there, in the same order), followed by all the
    entries of the pod-setting as the [injectUserContext] block left them. *)
Theorem apply_settings_to_container_name_keyed ns ps c ps1 c1 ps_spec f incoming :
  f ∈ ["env"; "volumeMounts"] →
  apply_settings_to_container ns (Heap ps c) = (Ret tt, Heap ps1 c1) →
  Py.getitem ps1 "spec" = Ret ps_spec →
  field_of ps_spec f = Some (JList incoming) →
  ∃ old,
    Py.iter (default (JList []) (field_of c f)) = Ret old ∧
    field_of c1 f
    = Some (JList (List.filter (name_not_in (names_of incoming)) old ++ incoming)).
Proof.
  intros Hf Hrun Hspec Hin.
  apply apply_settings_to_container_Ret in Hrun
    as (_ & ns_spec & spec1 & Hns & _ & Hspec1 & Hall).
  assert (spec1 = ps_spec) as -> by congruence.
  assert ((f, replace_or_append) ∈ container_fields) as Hst.
  { repeat (apply elem_of_cons in Hf as [->|Hf]); [..|by apply elem_of_nil in Hf];
      unfold container_fields, fields_before_envFrom; simpl;
      repeat first [by left | right]. }
  destruct (container_field_statement _ _ _ _ Hst Hall) as (o & o' & Hbefore & Ho & Hend).
  simpl in Hbefore, Hend.
  apply (override_Ret ps_spec (f, replace_or_append) _ o o' Hin) in Ho. simpl in Ho.
  apply (replace_or_append_Ret _ _ _ _ _ Hin) in Ho as (old & kept & Hold & Hkept & Hres).
  rewrite Hbefore in Hold. exists old. split; [done|].
  rewrite Hend, Hres. do 3 f_equal.
  apply (ofilterM_filter _ _ _ _ Hkept). intros e b _ Hb.
  by eapply name_not_incoming_name_not_in.
Qed.

Lemma key_merge_Ret f ps_spec o o' (new : gmap string json) :
  field_of ps_spec f = Some (JDict new) →
  key_merge f ps_spec o = (Ret tt, o') →
  ∃ old, default (JDict ∅) (field_of o f) = JDict old ∧
         field_of o' f = Some (JDict (new ∪ old)).
Proof.
  intros Hnew Hrun. unfold key_merge in Hrun.
  step_reads Hrun oldv Hold. step_lift Hrun unpacked Hun.
  step_lift Hrun newv Hnewv. step_lift Hrun merged Hm.
  apply setitem_Ret in Hrun.
  apply get_default in Hold. apply get_default in Hnewv. rewrite Hnew in Hnewv.
  simpl in Hnewv. subst newv. destruct oldv as [| | | | |old]; try done.
  simpl in Hm. injection Hm as <-. exists old. split; [done|].
  exact (field_of_setitem _ _ _ _ Hrun).
Qed.

(** X9.  The [lifecycle] of the container after a completed call has the keys
    of both, with the value of the pod-setting where both have the key:
    the merge is one level deep. *)
Theorem apply_settings_to_container_lifecycle ns ps c ps1 c1 ps_spec
    (new : gmap string json) :
  Py.getitem ps "spec" = Ret ps_spec →
  field_of ps_spec "lifecycle" = Some (JDict new) →
  apply_settings_to_container ns (Heap ps c) = (Ret tt, Heap ps1 c1) →
  ∃ old merged,
    default (JDict ∅) (field_of c "lifecycle") = JDict old ∧
    field_of c1 "lifecycle" = Some (JDict merged) ∧
    ∀ k, merged !! k = match new !! k with Some v => Some v | None => old !! k end.
Proof.
  intros Hspec Hnew Hrun.
  apply apply_settings_to_container_Ret in Hrun
    as (_ & ns_spec & spec1 & Hns & Hin & Hspec1 & Hall).
  rewrite <- (injected_spec_field _ _ _ _ _ "lifecycle" Hin Hspec Hspec1) in Hnew by done.
  assert (("lifecycle", key_merge) ∈ container_fields) as Hst.
  { unfold container_fields, fields_before_envFrom; simpl; repeat first [by left | right]. }
  destruct (container_field_statement _ _ _ _ Hst Hall) as (o & o' & Hbefore & Ho & Hend).
  simpl in Hbefore, Hend.
  apply (override_Ret spec1 ("lifecycle", key_merge) _ o o' Hnew) in Ho. simpl in Ho.
  apply (key_merge_Ret _ _ _ _ _ Hnew) in Ho as (old & Hold & Hres).
  rewrite Hbefore in Hold. exists old, (new ∪ old). split_and!; [done|congruence|].
  intros k. rewrite lookup_union. by destruct (new !! k), (old !! k).
Qed.

(** X10.  A field of the container that is none of the eight the pod-setting
    can give is as it was, whatever the outcome of the call. *)
Theorem apply_settings_to_container_other_fields ns ps c r h f :
  f ∉ fst <$> container_fields →
  apply_settings_to_container ns (Heap ps c) = (r, h) →
  field_of (target h) f = field_of c f.
Proof.
  intros Hf Hrun.
  destruct (settings_to_container_cases ns ps c)
    as [(e & ps' & Hcase)|(ns_spec & ps' & spec1 & Hns & Hin & Hsp1 & Hcase)];
    unfold apply_settings_to_container in Hrun; rewrite Hcase in Hrun.
  { by injection Hrun as <- <-. }
  destruct (for_each container_fields (override spec1) c) as [r1 c'] eqn:Hall.
  injection Hrun as <- <-. simpl.
  refine (keeps_for_each (fun obj => field_of obj f = field_of c f) container_fields
            (override spec1) _ _ _ _ Hall eq_refl).
  intros fs Hfs. unfold override. apply keeps_when_in.
  pose proof container_fields_leave as Hl. rewrite Forall_forall in Hl.
  apply (Hl fs Hfs). intros ->. apply Hf. by apply list_elem_of_fmap_2.
Qed.

Lemma inject_user_context_Ret ns_spec (spec : gmap string json) spec1 flag :
  spec !! "injectUserContext" = Some flag → Py.truthy flag = true →
  inject_user_context ns_spec (JDict spec) = (Ret tt, spec1) →
  ∃ user email old kept,
    Py.getitem ns_spec "user" = Ret user ∧ Py.getitem ns_spec "email" = Ret email ∧
    Py.iter (default (JList []) (spec !! "env")) = Ret old ∧
    ofilterM not_user_context old = Ret kept ∧
    spec1 = JDict (<["env" := JList (kept ++ [env_entry "USERNAME" user;
                                              env_entry "USEREMAIL" email])]> spec).
Proof.
  intros Hflag Hon Hrun. unfold inject_user_context in Hrun.
  step_reads Hrun flag' Hflag'. simpl in Hflag'. rewrite Hflag in Hflag'.
  injection Hflag' as <-. rewrite Hon in Hrun.
  step_reads Hrun env Henv. step_lift Hrun es Hes. step_lift Hrun kept Hkept.
  step_setitem Hrun o1 Hset1. step_reads Hrun l Hl.
  step_lift Hrun user Huser. step_lift Hrun email Hemail. step_lift Hrun l' Hl'.
  apply setitem_Ret in Hrun. simpl in Hset1. injection Hset1 as <-.
  simpl in Hl. rewrite lookup_insert_eq in Hl. injection Hl as <-.
  simpl in Hl'. injection Hl' as <-. simpl in Hrun. injection Hrun as <-.
  rewrite insert_insert_eq.
  apply get_default in Henv. simpl in Henv. subst env.
  by exists user, email, es, kept.
Qed.

(** X11.  With [injectUserContext], a completed call leaves in the [env]
    of the pod-setting the list it had filtered to the entries whose name
    is neither [USERNAME] nor [USEREMAIL] (each kept as often as it was
    there, in the same order), followed by one [USERNAME] and one
    [USEREMAIL] entry with the user and the email of the
    namespace-setting. *)
Theorem apply_settings_to_container_user_context ns ps c ps1 c1 ns_spec ps_spec :
  injects_user_context ps = true →
  Py.getitem ns "spec" = Ret ns_spec →
  Py.getitem ps "spec" = Ret ps_spec →
  apply_settings_to_container ns (Heap ps c) = (Ret tt, Heap ps1 c1) →
  ∃ user email old spec1,
    Py.getitem ns_spec "user" = Ret user ∧ Py.getitem ns_spec "email" = Ret email ∧
    Py.iter (default (JList []) (field_of ps_spec "env")) = Ret old ∧
    Py.getitem ps1 "spec" = Ret spec1 ∧
    field_of spec1 "env"
    = Some (JList (List.filter (name_not_in [JStr "USERNAME"; JStr "USEREMAIL"]) old
                   ++ [env_entry "USERNAME" user; env_entry "USEREMAIL" email])).
Proof.
  intros Hon Hns Hspec Hrun.
  apply apply_settings_to_container_Ret in Hrun
    as (_ & ns_spec' & spec1 & Hns' & Hin & Hspec1 & _).
  assert (ns_spec' = ns_spec) as -> by congruence.
  apply within_Ret in Hin as (d & sub & sub' & -> & Hsub & Hm & ->).
  unfold injects_user_context in Hon. simpl in Hon, Hspec, Hspec1.
  rewrite Hsub in Hon, Hspec. injection Hspec as <-.
  rewrite lookup_insert_eq in Hspec1. injection Hspec1 as <-.
  destruct sub as [| | | | |spec]; try done. simpl in Hon.
  destruct (spec !! "injectUserContext") as [flag|] eqn:Hflag; [|done].
  destruct (inject_user_context_Ret _ _ _ _ Hflag Hon Hm)
    as (user & email & old & kept & Huser & Hemail & Hold & Hkept & ->).
  assert (kept = List.filter (name_not_in [JStr "USERNAME"; JStr "USEREMAIL"]) old) as ->.
  { apply (ofilterM_filter _ _ _ _ Hkept). intros e b _ Hb.
    by apply not_user_context_name_not_in. }
  exists user, email, old, (JDict (<["env" := JList (List.filter
      (name_not_in [JStr "USERNAME"; JStr "USEREMAIL"]) old ++
      [env_entry "USERNAME" user; env_entry "USEREMAIL" email])]> spec)).
  split_and!; try done.
  - simpl. by rewrite lookup_insert_eq.
  - simpl. by rewrite lookup_insert_eq.
Qed.

(** X12.  With [injectUserContext] and a namespace-setting whose [user] cannot
    be read, the call raises after it has rewritten the [env] of the
    pod-setting without the [USERNAME] and [USEREMAIL] entries; the
    container is not changed. *)
Theorem apply_settings_to_container_user_unreadable ns (d spec : gmap string json) c
    ns_spec flag old kept e :
  d !! "spec" = Some (JDict spec) →
  spec !! "injectUserContext" = Some flag → Py.truthy flag = true →
  Py.getitem ns "spec" = Ret ns_spec →
  Py.iter (default (JList []) (spec !! "env")) = Ret old →
  ofilterM not_user_context old = Ret kept →
  Py.getitem ns_spec "user" = Raise e →
  apply_settings_to_container ns (Heap (JDict d) c)
  = (Raise e, Heap (JDict (<["spec" := JDict (<["env" := JList kept]> spec)]> d)) c).
Proof.
  intros Hspec Hflag Hon Hns Hold Hkept Huser.
  unfold apply_settings_to_container, settings_to_container, bind, lift, reads,
    on_setting, within, inject_user_context, bind, lift, reads, setitem, updates.
  cbn [pod_setting target]. rewrite Hns. simpl. rewrite Hspec. simpl.
  rewrite Hflag, Hon.
  assert (Py.get (JDict spec) "env" (JList []) = Ret (default (JList []) (spec !! "env")))
    as -> by (simpl; by destruct (spec !! "env")).
  rewrite Hold, Hkept. simpl. rewrite lookup_insert_eq. by rewrite Huser.
Qed.

(** ** What a call on a pod keeps, whatever its outcome *)

Lemma apply_to_selected_keeps_on `{Libraries} (P : heap → Prop) ns field whole :
  (∀ i, keeps P (at_container field i (apply_settings_to_container ns))) →
  keeps P (apply_to_selected ns field whole).
Proof.
  intros Hat. unfold apply_to_selected.
  do 4 (apply keeps_bind; [first [apply keeps_reads|apply keeps_lift]|]; intros ?).
  apply keeps_bind; [apply keeps_lift|]. intros ?.
  apply keeps_bind; [apply keeps_lift|]. intros sel.
  apply keeps_for_each. intros i _. apply Hat.
Qed.

Lemma apply_settings_to_pod_keeps_target `{Libraries} (Q : json → Prop) ns :
  (∀ ps_spec pfs, pfs ∈ pod_fields → keeps Q (pod_override ps_spec pfs)) →
  (∀ field i, field ∈ ["initContainers"; "containers"] →
     keeps (fun h => Q (target h)) (at_container field i (apply_settings_to_container ns))) →
  keeps (fun h => Q (target h)) (apply_settings_to_pod ns).
Proof.
  intros Hblock Hat. unfold apply_settings_to_pod.
  apply keeps_bind; [apply keeps_reads|]. intros ps_spec.
  apply keeps_bind; [apply keeps_reads|]. intros _.
  apply keeps_bind.
  { apply keeps_on_target, keeps_for_each. intros pfs Hin. by apply Hblock. }
  intros _. apply keeps_bind.
  - apply apply_to_selected_keeps_on. intros i. apply Hat. left.
  - intros _. apply apply_to_selected_keeps_on. intros i. apply Hat. right. left.
Qed.

(** A call on a container of the pod, seen from the pod: [R] relates the
    container before and after. *)
Lemma at_container_keeps_target (Q : json → Prop) (R : json → json → Prop)
    field i (m : M heap unit) :
  (∀ ps c r h, m (Heap ps c) = (r, h) → R c (target h)) →
  (∀ pod c c1, container_at pod field i = Some c → R c c1 → Q pod →
               Q (with_container pod field i c1)) →
  keeps (fun h => Q (target h)) (at_container field i m).
Proof.
  intros Hm Hw h r h' Hr HQ. unfold at_container in Hr.
  destruct (container_at (target h) field i) as [c|] eqn:Hc; [|by simplify_eq].
  destruct (m (Heap (pod_setting h) c)) as [r1 h1] eqn:Hrun. simplify_eq. simpl.
  apply (Hw _ c); [done| |done]. exact (Hm _ _ _ _ Hrun).
Qed.

Lemma with_container_field pod field i c1 k :
  k ≠ "spec" → field_of (with_container pod field i c1) k = field_of pod k.
Proof.
  intros Hne. unfold with_container.
  destruct pod as [| | | | |d]; try done.
  destruct (d !! "spec") as [[| | | | |spec]|]; try done.
  destruct (spec !! field) as [[| | | |cs|]|]; try done.
  simpl. by rewrite lookup_insert_ne.
Qed.

Lemma pod_override_cell ps_spec pfs part f v :
  pfs ∈ pod_fields → (part, f) ≠ (pfs.1, pfs.2.1) →
  keeps (fun pod => pod_cell pod part f = v) (pod_override ps_spec pfs).
Proof.
  intros Hx Hne. unfold pod_override. apply keeps_when_in.
  destruct (decide (part = pfs.1)) as [Heq|Hpart].
  - rewrite Heq. apply keeps_within_cell_field. intros w.
    pose proof pod_fields_leave as Hl. rewrite Forall_forall in Hl.
    apply (Hl pfs Hx). intros Hf. apply Hne. by rewrite Heq, Hf.
  - by apply keeps_within_cell_other.
Qed.

Lemma pod_fields_parts pfs :
  pfs ∈ pod_fields → pfs.1 = "metadata" ∨ pfs.1 = "spec".
Proof.
  unfold pod_fields. intros Hin.
  repeat (apply elem_of_cons in Hin as [->|Hin]); try (by apply elem_of_nil in Hin);
    simpl; auto.
Qed.

Lemma pod_override_field ps_spec pfs k v :
  pfs ∈ pod_fields → k ∉ ["metadata"; "spec"] →
  keeps (fun pod => field_of pod k = v) (pod_override ps_spec pfs).
Proof.
  intros Hx Hk. unfold pod_override. apply keeps_when_in, keeps_within_other.
  intros ->. apply Hk. destruct (pod_fields_parts _ Hx) as [-> | ->]; [left|right; left].
Qed.

(** X13.  A call of [apply_settings_to_pod] assigns the fields of [pod_written]
    and nothing else of the pod, whatever its outcome: the other keys of
    the pod, of its metadata and of its spec are as they were. *)
Theorem apply_settings_to_pod_other_parts `{Libraries} ns ps pod r h :
  apply_settings_to_pod ns (Heap ps pod) = (r, h) →
  (∀ k, k ∉ ["metadata"; "spec"] → field_of (target h) k = field_of pod k) ∧
  (∀ part f, (part, f) ∉ pod_written →
             pod_cell (target h) part f = pod_cell pod part f).
Proof.
  intros Hrun. split.
  - intros k Hk.
    refine (apply_settings_to_pod_keeps_target (fun t => field_of t k = field_of pod k)
              ns _ _ _ _ _ Hrun eq_refl).
    + intros ps_spec pfs Hin. by apply pod_override_field.
    + intros field i _.
      apply (at_container_keeps_target (fun t => field_of t k = field_of pod k)
               (fun _ _ => True)); [done|].
      intros p c c1 _ _ <-. apply with_container_field. intros ->. apply Hk. right; left.
  - intros part f Hw.
    refine (apply_settings_to_pod_keeps_target
              (fun t => pod_cell t part f = pod_cell pod part f) ns _ _ _ _ _ Hrun eq_refl).
    + intros ps_spec pfs Hin. apply pod_override_cell; [done|].
      intros Heq. apply Hw. unfold pod_written. apply elem_of_app. left.
      rewrite Heq. by apply (list_elem_of_fmap_2 (fun pfs : string * (string * strategy) => (pfs.1, pfs.2.1))).
    + intros field i Hfield.
      apply (at_container_keeps_target (fun t => pod_cell t part f = pod_cell pod part f)
               (fun _ _ => True)); [done|].
      intros p c c1 Hc _ <-. rewrite (with_container_cell _ _ _ _ _ _ _ Hc).
      rewrite decide_False; [done|]. intros [-> ->]. apply Hw.
      unfold pod_written. apply elem_of_app. right.
      apply elem_of_cons in Hfield as [->|Hfield]; [left|].
      apply elem_of_cons in Hfield as [->|Hfield]; [right; left|].
      by apply elem_of_nil in Hfield.
Qed.

(** ** The containers of the pod *)

Lemma apply_settings_to_container_keeps_name ns ps c r h :
  apply_settings_to_container ns (Heap ps c) = (r, h) →
  Py.get (target h) "name" (JStr "") = Py.get c "name" (JStr "").
Proof.
  intros Hrun.
  destruct (settings_to_container_cases ns ps c)
    as [(e & ps' & Hcase)|(ns_spec & ps' & spec1 & Hns & Hin & Hsp1 & Hcase)];
    unfold apply_settings_to_container in Hrun; rewrite Hcase in Hrun.
  { by injection Hrun as <- <-. }
  destruct (for_each container_fields (override spec1) c) as [r1 c'] eqn:Hall.
  injection Hrun as <- <-. simpl.
  by apply (container_fields_keep_name spec1 _ _ _ _ Hall).
Qed.

Lemma at_container_names ns field field' i v :
  keeps (fun h => container_names (containers_of (target h) field') = v)
    (at_container field i (apply_settings_to_container ns)).
Proof.
  apply (at_container_keeps_target
           (fun pod => container_names (containers_of pod field') = v)
           (fun c c1 => Py.get c1 "name" (JStr "") = Py.get c "name" (JStr ""))).
  - intros ps c r h Hrun. by eapply apply_settings_to_container_keeps_name.
  - intros pod c c1 Hc Hname <-. unfold containers_of.
    rewrite (with_container_cell _ _ _ _ _ _ _ Hc).
    destruct (decide ("spec" = "spec" ∧ field' = field)) as [[_ ->]|Hne]; [|done].
    pose proof (container_at_Some _ _ _ _ Hc) as (d & spec & cs & Hpod & Hspec & Hcs & Hci).
    assert (pod_cell pod "spec" field = Some (JList cs)) as ->.
    { subst pod. unfold pod_cell. simpl. by rewrite Hspec. }
    simpl. by apply (container_names_insert _ _ c).
Qed.

(** X14.  A call of [apply_settings_to_pod] adds no container, removes none and
    renames none, whatever its outcome: the lists [containers] and
    [initContainers] have the names they had, in the same order. *)
Theorem apply_settings_to_pod_keeps_containers `{Libraries} ns ps pod r h field :
  field ∈ ["initContainers"; "containers"] →
  apply_settings_to_pod ns (Heap ps pod) = (r, h) →
  container_names (containers_of (target h) field)
  = container_names (containers_of pod field).
Proof.
  intros Hfield Hrun.
  refine (apply_settings_to_pod_keeps_target
            (fun t => container_names (containers_of t field)
                      = container_names (containers_of pod field))
            ns _ _ _ _ _ Hrun eq_refl).
  - intros ps_spec pfs Hin pod0 r0 pod1 Hr0 <-. unfold containers_of.
    assert (("spec", field) ≠ (pfs.1, pfs.2.1)) as Hne; [|
      by rewrite (pod_override_cell ps_spec pfs "spec" field _ Hin Hne pod0 r0 pod1 Hr0 eq_refl)].
    unfold pod_fields in Hin.
    repeat (apply elem_of_cons in Hfield as [->|Hfield]); try (by apply elem_of_nil in Hfield);
      repeat (apply elem_of_cons in Hin as [->|Hin]); try (by apply elem_of_nil in Hin);
      simpl; by intros [= ].
  - intros field0 i _. apply at_container_names.
Qed.

(** Take the first statement off a run, whatever its outcome. *)
Ltac run_lift H x Hx :=
  let e := fresh "e" in
  apply bind_run in H as [(x & ? & Hx & H)|(e & Hx & ->)];
  [apply lift_run in Hx as [Hx ->]; symmetry in Hx
  |apply lift_run in Hx as [_ ->]].

Ltac run_reads H x Hx :=
  let e := fresh "e" in
  apply bind_run in H as [(x & ? & Hx & H)|(e & Hx & ->)];
  [apply reads_run in Hx as [Hx ->]; symmetry in Hx
  |apply reads_run in Hx as [_ ->]].

Lemma apply_to_selected_nothing `{Libraries} ns field whole h selector r h' :
  selector_of (pod_setting h) = Ret selector →
  Py.contains selector (JStr "regex") = Ret false →
  Py.contains selector (JStr "jsonpath") = Ret false →
  apply_to_selected ns field whole h = (r, h') → h' = h.
Proof.
  intros Hsel Hregex Hpath Hrun. unfold apply_to_selected in Hrun.
  run_reads Hrun pod_spec Hpod; [|done].
  run_lift Hrun containers Hcs; [|done].
  run_reads Hrun arg Harg; [|done].
  run_reads Hrun ps_spec Hps; [|done].
  run_lift Hrun selector' Hsel'; [|done].
  assert (selector' = selector) as ->.
  { unfold selector_of in Hsel. rewrite Hps in Hsel. simpl in Hsel. congruence. }
  run_lift Hrun sel Hfilter; [|done].
  unfold filter_pod_containers in Hfilter. rewrite Hregex in Hfilter. simpl in Hfilter.
  rewrite Hpath in Hfilter. simpl in Hfilter. injection Hfilter as <-.
  simpl in Hrun. by apply ret_run in Hrun as [_ ->].
Qed.

(** X15.  A pod-setting whose container selector has neither a [regex] nor a
    [jsonpath] key (none at all, for one) reaches no container: whatever
    the outcome of the call, the [containers] and the [initContainers] of
    the pod are as they were, and so is the pod-setting. *)
Theorem apply_settings_to_pod_selects_nothing `{Libraries} ns ps pod selector r h :
  selector_of ps = Ret selector →
  Py.contains selector (JStr "regex") = Ret false →
  Py.contains selector (JStr "jsonpath") = Ret false →
  apply_settings_to_pod ns (Heap ps pod) = (r, h) →
  pod_setting h = ps ∧
  ∀ field, field ∈ ["initContainers"; "containers"] →
           pod_cell (target h) "spec" field = pod_cell pod "spec" field.
Proof.
  intros Hsel Hregex Hpath Hrun. unfold apply_settings_to_pod in Hrun.
  run_reads Hrun ps_spec Hps; [|done].
  run_reads Hrun pod_spec Hpod; [|done].
  assert (∀ r1 h1, on_target (for_each pod_fields (pod_override ps_spec)) (Heap ps pod)
                   = (r1, h1) →
                   pod_setting h1 = ps ∧
                   ∀ field, field ∈ ["initContainers"; "containers"] →
                            pod_cell (target h1) "spec" field = pod_cell pod "spec" field)
    as Hblock.
  { intros r1 h1 Hr1. unfold on_target in Hr1. cbn [target pod_setting] in Hr1.
    destruct (for_each pod_fields (pod_override ps_spec) pod) as [r2 t] eqn:Ht.
    injection Hr1 as <- <-. split; [done|]. intros field Hfield. simpl.
    refine (keeps_for_each (fun t => pod_cell t "spec" field = pod_cell pod "spec" field)
              pod_fields (pod_override ps_spec) _ _ _ _ Ht eq_refl).
    intros pfs Hin. apply pod_override_cell; [done|].
    unfold pod_fields in Hin.
    repeat (apply elem_of_cons in Hfield as [->|Hfield]); try (by apply elem_of_nil in Hfield);
      repeat (apply elem_of_cons in Hin as [->|Hin]); try (by apply elem_of_nil in Hin);
      simpl; by intros [= ]. }
  apply bind_run in Hrun as [([] & hA & HA & Hrun)|(e & HA & ->)];
    [|exact (Hblock _ _ HA)].
  destruct (Hblock _ _ HA) as [HpsA HcellA].
  apply bind_run in Hrun as [([] & hB & HB & Hrun)|(e & HB & ->)].
  - apply (apply_to_selected_nothing _ _ _ hA selector) in HB; [|by rewrite HpsA|done|done].
    subst hB.
    apply (apply_to_selected_nothing _ _ _ hA selector) in Hrun; [|by rewrite HpsA|done|done].
    by subst h.
  - apply (apply_to_selected_nothing _ _ _ hA selector) in HB; [|by rewrite HpsA|done|done].
    by subst h.
Qed.

(** ** What a completed call leaves in the pod *)

Lemma apply_to_selected_cell `{Libraries} ns field whole part f v :
  (part, f) ≠ ("spec", field) →
  keeps (fun h => pod_cell (target h) part f = v) (apply_to_selected ns field whole).
Proof.
  intros Hne. apply apply_to_selected_keeps_on. intros i.
  apply (at_container_keeps_target (fun t => pod_cell t part f = v) (fun _ _ => True));
    [done|].
  intros p c c1 Hc _ <-. rewrite (with_container_cell _ _ _ _ _ _ _ Hc).
  rewrite decide_False; [done|]. by intros [-> ->].
Qed.

Lemma pod_fields_NoDup :
  NoDup ((fun pfs : string * (string * strategy) => (pfs.1, pfs.2.1)) <$> pod_fields).
Proof. compute_done. Qed.

(** The statement of a field, seen from a completed call on a pod: it ran
    on the object of the pod that holds the field, with the field as it
    was at first, and left the field as it is at the end. *)
Lemma pod_field_statement `{Libraries} ns ps pod ps1 pod1 ps_spec pfs v :
  pfs ∈ pod_fields →
  Py.getitem ps "spec" = Ret ps_spec →
  field_of ps_spec pfs.2.1 = Some v →
  apply_settings_to_pod ns (Heap ps pod) = (Ret tt, Heap ps1 pod1) →
  ∃ sub sub', field_of sub pfs.2.1 = pod_cell pod pfs.1 pfs.2.1 ∧
              pfs.2.2 pfs.2.1 ps_spec sub = (Ret tt, sub') ∧
              pod_cell pod1 pfs.1 pfs.2.1 = field_of sub' pfs.2.1.
Proof.
  intros Hin Hspec Hv Hrun.
  apply apply_settings_to_pod_Ret in Hrun
    as (spec0 & podA & [psB podB] & Hspec0 & HA & HI & HC).
  assert (spec0 = ps_spec) as -> by congruence.
  destruct (for_each_own_cell
              (fun pfs : string * (string * strategy) => (pfs.1, pfs.2.1))
              (fun k pod => pod_cell pod k.1 k.2) (pod_override ps_spec)
              pod_fields pfs pod podA) as (o & o' & Hbefore & Ho & Hend); try done.
  { intros a b w Ha Hb Hne. by apply pod_fields_frame. }
  { apply pod_fields_NoDup. }
  cbn beta iota delta [fst snd] in Hbefore, Hend.
  unfold pod_override, when_in in Ho. step_lift Ho has Hhas.
  assert (has = true) as ->.
  { destruct ps_spec as [| | | | |d]; try done. simpl in Hv, Hhas.
    injection Hhas as <-. apply bool_decide_eq_true_2. by exists v. }
  apply within_Ret in Ho as (d & sub & sub' & -> & Hsub & Hm & ->).
  exists sub, sub'. split_and!; [|done|].
  - etrans; [|exact Hbefore]. unfold pod_cell. simpl. by rewrite Hsub.
  - assert ((pfs.1, pfs.2.1) ≠ ("spec", "initContainers") ∧
            (pfs.1, pfs.2.1) ≠ ("spec", "containers")) as [Hn1 Hn2].
    { unfold pod_fields in Hin.
      repeat (apply elem_of_cons in Hin as [->|Hin]); try (by apply elem_of_nil in Hin);
        simpl; by split. }
    pose proof (apply_to_selected_cell ns "containers" true pfs.1 pfs.2.1 _ Hn2 _ _ _ HC eq_refl)
      as E2.
    pose proof (apply_to_selected_cell ns "initContainers" false pfs.1 pfs.2.1 _ Hn1 _ _ _ HI
                  eq_refl) as E1.
    cbn [target] in E1, E2.
    etrans; [exact E2|]. etrans; [exact E1|]. etrans; [exact Hend|]. unfold pod_cell. simpl. by rewrite lookup_insert_eq.
Qed.

(** X16.  The [labels] and [annotations] of the metadata and the [nodeSelector]
    and [securityContext] of the spec have, after a completed call, the
    keys of the pod and of the pod-setting, with the value of the
    pod-setting where both have the key: the merge is one level deep. *)
Theorem apply_settings_to_pod_key_merged `{Libraries} ns ps pod ps1 pod1 ps_spec
    part f (new : gmap string json) :
  (part, f) ∈ [("metadata", "labels"); ("metadata", "annotations");
               ("spec", "nodeSelector"); ("spec", "securityContext")] →
  Py.getitem ps "spec" = Ret ps_spec →
  field_of ps_spec f = Some (JDict new) →
  apply_settings_to_pod ns (Heap ps pod) = (Ret tt, Heap ps1 pod1) →
  ∃ old merged,
    default (JDict ∅) (pod_cell pod part f) = JDict old ∧
    pod_cell pod1 part f = Some (JDict merged) ∧
    ∀ k, merged !! k = match new !! k with Some v => Some v | None => old !! k end.
Proof.
  intros Hf Hspec Hnew Hrun.
  assert ((part, (f, key_merge)) ∈ pod_fields) as Hin.
  { unfold pod_fields.
    repeat (apply elem_of_cons in Hf as [[= -> ->]|Hf]); [..|by apply elem_of_nil in Hf];
      repeat first [by left | right]. }
  destruct (pod_field_statement ns ps pod ps1 pod1 ps_spec _ _ Hin Hspec Hnew Hrun)
    as (sub & sub' & Hbefore & Hm & Hend). simpl in Hbefore, Hm, Hend.
  apply (key_merge_Ret _ _ _ _ _ Hnew) in Hm as (old & Hold & Hres).
  rewrite Hbefore in Hold. exists old, (new ∪ old). split_and!; [done|congruence|].
  intros k. rewrite lookup_union. by destruct (new !! k), (old !! k).
Qed.

(** X17.  The [volumes] of the pod are, after a completed call, the list
    the pod had filtered to the volumes whose name is not the name of a
    volume of the pod-setting (each kept as often as it was there, in the
    same order), followed by all the volumes of the pod-setting. *)
Theorem apply_settings_to_pod_volumes `{Libraries} ns ps pod ps1 pod1 ps_spec incoming :
  Py.getitem ps "spec" = Ret ps_spec →
  field_of ps_spec "volumes" = Some (JList incoming) →
  apply_settings_to_pod ns (Heap ps pod) = (Ret tt, Heap ps1 pod1) →
  ∃ old,
    Py.iter (default (JList []) (pod_cell pod "spec" "volumes")) = Ret old ∧
    pod_cell pod1 "spec" "volumes"
    = Some (JList (List.filter (name_not_in (names_of incoming)) old ++ incoming)).
Proof.
  intros Hspec Hin Hrun.
  assert (("spec", ("volumes", replace_or_append)) ∈ pod_fields) as Hst.
  { unfold pod_fields. repeat first [by left | right]. }
  destruct (pod_field_statement ns ps pod ps1 pod1 ps_spec _ _ Hst Hspec Hin Hrun)
    as (sub & sub' & Hbefore & Hm & Hend). simpl in Hbefore, Hm, Hend.
  apply (replace_or_append_Ret _ _ _ _ _ Hin) in Hm as (old & kept & Hold & Hkept & Hres).
  rewrite Hbefore in Hold. exists old. split; [done|].
  rewrite Hend, Hres. do 3 f_equal.
  apply (ofilterM_filter _ _ _ _ Hkept). intros e b _ Hb.
  by eapply name_not_incoming_name_not_in.
Qed.

(** X18.  The [serviceAccountName] of the pod is, after a completed call, the
    one of the pod-setting that gives one. *)
Theorem apply_settings_to_pod_service_account `{Libraries} ns ps pod ps1 pod1 ps_spec v :
  Py.getitem ps "spec" = Ret ps_spec →
  field_of ps_spec "serviceAccountName" = Some v →
  apply_settings_to_pod ns (Heap ps pod) = (Ret tt, Heap ps1 pod1) →
  pod_cell pod1 "spec" "serviceAccountName" = Some v.
Proof.
  intros Hspec Hv Hrun.
  assert (("spec", ("serviceAccountName", replace_with_get)) ∈ pod_fields) as Hst.
  { unfold pod_fields. left. }
  destruct (pod_field_statement ns ps pod ps1 pod1 ps_spec _ _ Hst Hspec Hv Hrun)
    as (sub & sub' & _ & Hm & Hend). simpl in Hm, Hend.
  unfold replace_with_get in Hm. step_lift Hm w Hw. apply setitem_Ret in Hm.
  rewrite Hend, (field_of_setitem _ _ _ _ Hm). f_equal.
  exact (get_of_field _ _ _ _ Hv _ Hw).
Qed.

(** ** The loop over the selected pod-settings *)

(** X19.  The loop writes back the pod-settings it visits, and no other: the
    list keeps its length, and a pod-setting that is not selected is the
    object it was. *)
Theorem apply_pod_settings_unselected `{Libraries} ns sel l pod :
  let l' := (apply_pod_settings ns sel l pod).2.1 in
  length l' = length l ∧ ∀ j, j ∉ sel → l' !! j = l !! j.
Proof.
  revert l pod. induction sel as [|i sel IH]; intros l pod; simpl; [done|].
  destruct (l !! i) as [ps|] eqn:Hi.
  - destruct (apply_settings_to_pod ns (Heap ps pod)) as [[[]|e] h] eqn:Hrun; simpl.
    + destruct (IH (<[i := pod_setting h]> l) (target h)) as [IH1 IH2]. split.
      * by rewrite IH1, length_insert.
      * intros j Hj. rewrite IH2 by (intros Hin; apply Hj; by right).
        apply list_lookup_insert_ne. intros ->. apply Hj. left.
    + split; [by rewrite length_insert|]. intros j Hj.
      apply list_lookup_insert_ne. intros ->. apply Hj. left.
  - destruct (IH l pod) as [IH1 IH2]. split; [done|].
    intros j Hj. apply IH2. intros Hin. apply Hj. by right.
Qed.

(** ** The request handler and the control plane *)

(** X20.  Once the process holds a pod-setting list, a request is answered
    from it: what the control plane would list plays no part, no list call
    is made, and the process still holds a list afterwards. *)
Theorem process_request_serves_from_cache `{Libraries} c items items' nsd request p l :
  ORBIT_SYSTEM_POD_SETTINGS p = Some l →
  process_request (Cluster c items nsd) request p
  = process_request (Cluster c items' nsd) request p ∧
  ∀ r p', process_request (Cluster c items nsd) request p = (r, p') →
          is_Some (ORBIT_SYSTEM_POD_SETTINGS p') ∧
          ∃ new, calls p' = new ++ calls p ∧ ListPodSettings ∉ new.
Proof.
  intros Hheld. destruct p as [held cs lg]. simpl in Hheld. subst held. split.
  - unfold process_request, bind, lift, reads, get_client, get_pod_settings,
      get_namespace_setting, record_call, set_pod_settings, bind, lift, ret. simpl.
    destruct (Py.get request "dryRun" (JBool false)) as [dry|e]; [|done].
    destruct (Py.truthy dry); [done|].
    destruct (Py.getitem request "object") as [pod|e]; [|done].
    by destruct c as [[]|e].
  - intros r p'.
    unfold process_request, bind, lift, reads, get_client, get_pod_settings,
      get_namespace_setting, record_call, set_pod_settings, logger_exception,
      bind, lift, ret. simpl.
    destruct (Py.get request "dryRun" (JBool false)) as [dry|e]; simpl.
    2:{ intros [= <- <-]. split; [by eexists|]. exists []. split; [done|]. apply not_elem_of_nil. }
    destruct (Py.truthy dry).
    { destruct (Py.getitem request "uid"); intros [= <- <-];
        (split; [by eexists|]); exists []; (split; [done|]); apply not_elem_of_nil. }
    destruct (Py.getitem request "object") as [pod|e]; simpl.
    2:{ intros [= <- <-]. split; [by eexists|]. exists []. split; [done|]. apply not_elem_of_nil. }
    assert (ListPodSettings ∉ [GetClient]) as Hc1.
    { intros Hin. apply elem_of_cons in Hin as [[=]|Hin]. by apply elem_of_nil in Hin. }
    destruct c as [[]|e]; simpl.
    2:{ intros [= <- <-]. split; [by eexists|]. by exists [GetClient]. }
    destruct (Py.getitem request "namespace") as [name|e]; simpl.
    2:{ intros [= <- <-]. split; [by eexists|]. by exists [GetClient]. }
    assert (ListPodSettings ∉ [GetNamespaceSetting ORBIT_SYSTEM_NAMESPACE name; GetClient])
      as Hc2.
    { intros Hin. apply elem_of_cons in Hin as [[=]|Hin].
      apply elem_of_cons in Hin as [[=]|Hin]. by apply elem_of_nil in Hin. }
    assert (∀ (r0 : outcome json) l0,
               (r0, Process (Some l0)
                      (GetNamespaceSetting ORBIT_SYSTEM_NAMESPACE name :: GetClient :: cs) lg)
               = (r, p') →
               is_Some (ORBIT_SYSTEM_POD_SETTINGS p') ∧
               ∃ new, calls p' = new ++ cs ∧ ListPodSettings ∉ new) as Hdone.
    { intros r0 l0 [= <- <-]. split; [by eexists|].
      by exists [GetNamespaceSetting ORBIT_SYSTEM_NAMESPACE name; GetClient]. }
    destruct (nsd ORBIT_SYSTEM_NAMESPACE name) as [ns|e]; simpl.
    2:{ destruct e; simpl; try apply Hdone.
        destruct (Py.getitem request "uid"); apply Hdone. }
    destruct (Py.getitem ns "spec") as [ns_spec|e]; simpl; [|apply Hdone].
    destruct (Py.getitem ns_spec "team") as [team|e]; simpl; [|apply Hdone].
    destruct (filter_pod_settings l team pod) as [sel|e]; simpl; [|apply Hdone].
    destruct (apply_pod_settings ns sel l pod) as [[e|] [l' pod']]; simpl;
      destruct (Py.getitem request "uid"); simpl; intros [= <- <-];
      (split; [by eexists|]);
      by exists [GetNamespaceSetting ORBIT_SYSTEM_NAMESPACE name; GetClient].
Qed.

Ltac unfold_request :=
  unfold process_request, bind, lift, reads, get_client, get_pod_settings,
    get_namespace_setting, record_call, set_pod_settings, logger_exception,
    bind, lift, ret; simpl.

Lemma not_dry_run_get (r : gmap string json) :
  not_dry_run r →
  Py.truthy (match r !! "dryRun" with Some x => x | None => JBool false end) = false.
Proof. unfold not_dry_run. by destruct (r !! "dryRun"). Qed.

(** X21.  An exception of the filter is not caught: it leaves the handler, with
    the pod-setting list held and nothing logged. *)
Theorem process_request_filter_failure `{Libraries}
    k (r : gmap string json) pod name ns ns_spec team l p e :
  not_dry_run r →
  r !! "object" = Some pod →
  r !! "namespace" = Some name →
  client k = Ret tt →
  settings_listed k p l →
  namespace_setting_doc k ORBIT_SYSTEM_NAMESPACE name = Ret ns →
  Py.getitem ns "spec" = Ret ns_spec →
  Py.getitem ns_spec "team" = Ret team →
  filter_pod_settings l team pod = Raise e →
  process_request k (JDict r) p
  = (Raise e, Process (Some l) (calls_of_lookup p name) (logged p)).
Proof.
  unfold settings_listed, calls_of_lookup.
  intros Hdry Hpod Hname Hclient Hlist Hns Hspec Hteam Hsel.
  apply not_dry_run_get in Hdry. unfold_request.
  rewrite Hdry, Hpod, Hclient.
  destruct p as [[held|] cs lg]; simpl in *; subst; rewrite ?Hlist, Hname; simpl;
    rewrite Hns; simpl; rewrite Hspec, Hteam, Hsel; reflexivity.
Qed.

(** X22.  When listing the pod-settings fails, the exception leaves the handler
    and the process holds no list: the next request lists again. *)
Theorem process_request_list_failure `{Libraries}
    k (r : gmap string json) pod p e :
  not_dry_run r →
  r !! "object" = Some pod →
  client k = Ret tt →
  ORBIT_SYSTEM_POD_SETTINGS p = None →
  pod_setting_items k = Raise e →
  process_request k (JDict r) p
  = (Raise e, Process None (ListPodSettings :: GetClient :: calls p) (logged p)).
Proof.
  intros Hdry Hpod Hclient Hnone Hlist.
  apply not_dry_run_get in Hdry. unfold_request.
  rewrite Hdry, Hpod, Hclient. destruct p as [held cs lg]. simpl in *. subst held.
  by rewrite Hlist.
Qed.

(** X23.  The [uid] of a request that is not a dry run is read last: without
    it, the pod-settings are listed and applied and an exception of the
    loop is logged before the [KeyError] leaves the handler. *)
Theorem process_request_uid_read_last `{Libraries}
    k (r : gmap string json) pod name ns ns_spec team l sel p :
  not_dry_run r →
  r !! "uid" = None →
  r !! "object" = Some pod →
  r !! "namespace" = Some name →
  client k = Ret tt →
  settings_listed k p l →
  namespace_setting_doc k ORBIT_SYSTEM_NAMESPACE name = Ret ns →
  Py.getitem ns "spec" = Ret ns_spec →
  Py.getitem ns_spec "team" = Ret team →
  filter_pod_settings l team pod = Ret sel →
  process_request k (JDict r) p
  = let '(raised, (l', pod')) := apply_pod_settings ns sel l pod in
    (Raise (KeyError "uid"),
     Process (Some l') (calls_of_lookup p name)
       (match raised with Some e => e :: logged p | None => logged p end)).
Proof.
  unfold settings_listed, calls_of_lookup.
  intros Hdry Huid Hpod Hname Hclient Hlist Hns Hspec Hteam Hsel.
  apply not_dry_run_get in Hdry. unfold_request.
  rewrite Hdry, Hpod, Hclient.
  destruct p as [[held|] cs lg]; simpl in *; subst; rewrite ?Hlist, Hname; simpl;
    rewrite Hns; simpl; rewrite Hspec, Hteam, Hsel;
    destruct (apply_pod_settings ns sel l pod) as [[e|] [l' pod']]; simpl;
    rewrite Huid; reflexivity.
Qed.

(** X24.  A request logs at most one exception, whatever its outcome. *)
Theorem process_request_logs_at_most_one `{Libraries} k request p r p' :
  process_request k request p = (r, p') →
  logged p' = logged p ∨ ∃ e, logged p' = e :: logged p.
Proof.
  destruct p as [held cs lg]. destruct k as [c items nsd]. unfold_request.
  destruct (Py.get request "dryRun" (JBool false)) as [dry|e]; simpl.
  2:{ intros [= <- <-]. by left. }
  destruct (Py.truthy dry).
  { destruct (Py.getitem request "uid"); intros [= <- <-]; by left. }
  destruct (Py.getitem request "object") as [pod|e]; simpl.
  2:{ intros [= <- <-]. by left. }
  destruct c as [[]|e]; simpl.
  2:{ intros [= <- <-]. by left. }
  destruct held as [l|]; simpl.
  - destruct (Py.getitem request "namespace") as [name|e]; simpl.
    2:{ intros [= <- <-]. by left. }
    destruct (nsd ORBIT_SYSTEM_NAMESPACE name) as [ns|e]; simpl.
    2:{ destruct e; simpl; try (intros [= <- <-]; by left).
        destruct (Py.getitem request "uid"); intros [= <- <-]; by left. }
    destruct (Py.getitem ns "spec") as [ns_spec|e]; simpl; [|intros [= <- <-]; by left].
    destruct (Py.getitem ns_spec "team") as [team|e]; simpl; [|intros [= <- <-]; by left].
    destruct (filter_pod_settings l team pod) as [sel|e]; simpl; [|intros [= <- <-]; by left].
    destruct (apply_pod_settings ns sel l pod) as [[e|] [l' pod']]; simpl;
      destruct (Py.getitem request "uid"); simpl; intros [= <- <-]; eauto.
  - destruct items as [l|e]; simpl.
    2:{ intros [= <- <-]. by left. }
    destruct (Py.getitem request "namespace") as [name|e]; simpl.
    2:{ intros [= <- <-]. by left. }
    destruct (nsd ORBIT_SYSTEM_NAMESPACE name) as [ns|e]; simpl.
    2:{ destruct e; simpl; try (intros [= <- <-]; by left).
        destruct (Py.getitem request "uid"); intros [= <- <-]; by left. }
    destruct (Py.getitem ns "spec") as [ns_spec|e]; simpl; [|intros [= <- <-]; by left].
    destruct (Py.getitem ns_spec "team") as [team|e]; simpl; [|intros [= <- <-]; by left].
    destruct (filter_pod_settings l team pod) as [sel|e]; simpl; [|intros [= <- <-]; by left].
    destruct (apply_pod_settings ns sel l pod) as [[e|] [l' pod']]; simpl;
      destruct (Py.getitem request "uid"); simpl; intros [= <- <-]; eauto.
Qed.

(** ** The properties on the documents of the examples *)

Lemma filter_pod_settings_by_namespace_witness :
  ∃ ps, [Examples.setting_ml; Examples.setting_other; Examples.setting_in] !! 2%nat
        = Some ps ∧ in_namespace (JStr "team-a") ps.
Proof.
  refine (proj1 (filter_pod_settings_by_namespace
                   [Examples.setting_ml; Examples.setting_other; Examples.setting_in]
                   (JStr "team-a") Examples.pod_web [0; 2]%nat _ 2%nat) _);
    [vm_compute; reflexivity|right; left].
Defined.

Lemma filter_pod_settings_in_order_witness :
  StronglySorted lt [0; 2]%nat ∧
  Forall (fun i => is_Some ([Examples.setting_ml; Examples.setting_other;
                             Examples.setting_in] !! i)) [0; 2]%nat.
Proof.
  apply (filter_pod_settings_in_order
           [Examples.setting_ml; Examples.setting_other; Examples.setting_in]
           (JStr "team-a") Examples.pod_web).
  vm_compute. reflexivity.
Defined.

Lemma filter_pod_settings_unreadable_spec_witness :
  filter_pod_settings
    ([Examples.setting_ml] ++ Examples.setting_no_spec :: [Examples.setting_in])
    (JStr "team-a") Examples.pod_web
  = Raise (KeyError "spec").
Proof.
  apply (filter_pod_settings_unreadable_spec [Examples.setting_ml]
           Examples.setting_no_spec [Examples.setting_in] (JStr "team-a")
           Examples.pod_web [0%nat]
           (Examples.obj [("name", JStr "p");
                          ("labels", Examples.obj [("app", JStr "web")])])
           (Examples.obj [("app", JStr "web")]));
    try (vm_compute; reflexivity).
  exists (Examples.obj [("namespace", JStr "team-a"); ("name", JStr "empty")]),
    (JStr "team-a").
  split_and!; vm_compute; reflexivity.
Defined.

Lemma filter_pod_containers_in_order_witness :
  StronglySorted lt [0; 1; 2]%nat ∧
  ∀ i, i ∈ [0; 1; 2]%nat →
       ∃ cs c, Py.iter (JList Examples.containers_three) = Ret cs ∧ cs !! i = Some c.
Proof.
  apply (filter_pod_containers_in_order (H := Examples.stand_in)
           (JList Examples.containers_three) Examples.pod_web
           (Examples.obj [("regex", JStr "*"); ("jsonpath", JStr "$")])).
  vm_compute. reflexivity.
Defined.

Lemma filter_pod_containers_by_name_witness :
  ∃ c name, Examples.containers_three !! 0%nat = Some c ∧
            Py.get c "name" (JStr "") = Ret name ∧
            Examples.literal_match "ma" name = Ret true.
Proof.
  refine (proj1 (filter_pod_containers_by_name (H := Examples.stand_in)
                   Examples.containers_three Examples.pod_web
                   (list_to_map [("regex", JStr "ma"); ("jsonpath", JStr "$")])
                   (JStr "ma") (Examples.literal_match "ma") [0%nat] _ _ _ 0%nat) _);
    [vm_compute; reflexivity..|left].
Defined.

Lemma filter_pod_containers_by_path_witness :
  ∃ c name, Examples.containers_three !! 2%nat = Some c ∧
            Py.get c "name" (JStr "") = Ret name ∧
            Py.mem name [JStr "side"; JStr ""] = true.
Proof.
  refine (proj1 (filter_pod_containers_by_path
                   (H := Examples.finds [JStr "side"; JStr ""])
                   Examples.containers_three Examples.pod_web
                   (list_to_map [("jsonpath", JStr "$")])
                   (JStr "$") (fun _ => Ret [JStr "side"; JStr ""])
                   [JStr "side"; JStr ""] [1; 2]%nat _ _ _ _ _ 2%nat) _);
    [vm_compute; reflexivity..|right; left].
Defined.

Lemma apply_settings_to_container_replaces_witness :
  field_of (target (apply_settings_to_container Examples.ns_team_a
                      (Heap Examples.setting_full Examples.container_full)).2)
    "command"
  = Some (JList [JStr "run"]).
Proof.
  apply (apply_settings_to_container_replaces Examples.ns_team_a
           Examples.setting_full Examples.container_full
           (pod_setting (apply_settings_to_container Examples.ns_team_a
                           (Heap Examples.setting_full Examples.container_full)).2)
           _
           (default JNull (field_of Examples.setting_full "spec")) "command").
  - right. right. left.
  - vm_compute. reflexivity.
  - vm_compute. reflexivity.
  - vm_compute. reflexivity.
Defined.

Lemma apply_settings_to_container_name_keyed_witness :
  ∃ old,
    Py.iter (default (JList []) (field_of Examples.container_full "env")) = Ret old ∧
    field_of (target (apply_settings_to_container Examples.ns_team_a
                        (Heap Examples.setting_full Examples.container_full)).2) "env"
    = Some (JList (List.filter
                     (name_not_in
                        (names_of [Examples.named "FOO" "1";
                                   env_entry "USERNAME" (JStr "alice");
                                   env_entry "USEREMAIL" (JStr "a@x.com")]))
                     old
                   ++ [Examples.named "FOO" "1";
                       env_entry "USERNAME" (JStr "alice");
                       env_entry "USEREMAIL" (JStr "a@x.com")])).
Proof.
  apply (apply_settings_to_container_name_keyed Examples.ns_team_a
           Examples.setting_full Examples.container_full
           (pod_setting (apply_settings_to_container Examples.ns_team_a
                           (Heap Examples.setting_full Examples.container_full)).2)
           _
           (default JNull
              (field_of (pod_setting (apply_settings_to_container Examples.ns_team_a
                           (Heap Examples.setting_full Examples.container_full)).2)
                 "spec"))).
  - left.
  - vm_compute. reflexivity.
  - vm_compute. reflexivity.
  - vm_compute. reflexivity.
Defined.

Lemma apply_settings_to_container_lifecycle_witness :
  ∃ old merged,
    default (JDict ∅) (field_of Examples.container_full "lifecycle") = JDict old ∧
    field_of (target (apply_settings_to_container Examples.ns_team_a
                        (Heap Examples.setting_full Examples.container_full)).2)
      "lifecycle"
    = Some (JDict merged) ∧
    ∀ k, merged !! k
         = match (list_to_map [("preStop", Examples.obj [("exec", JStr "new")])]
                  : gmap string json) !! k with
           | Some v => Some v
           | None => old !! k
           end.
Proof.
  apply (apply_settings_to_container_lifecycle Examples.ns_team_a
           Examples.setting_full Examples.container_full
           (pod_setting (apply_settings_to_container Examples.ns_team_a
                           (Heap Examples.setting_full Examples.container_full)).2)
           _
           (default JNull (field_of Examples.setting_full "spec"))).
  - vm_compute. reflexivity.
  - vm_compute. reflexivity.
  - vm_compute. reflexivity.
Defined.

Lemma apply_settings_to_container_other_fields_witness :
  field_of (target (apply_settings_to_container Examples.ns_team_a
                      (Heap Examples.setting_full Examples.container_full)).2) "ports"
  = field_of Examples.container_full "ports".
Proof.
  apply (apply_settings_to_container_other_fields Examples.ns_team_a
           Examples.setting_full Examples.container_full
           (apply_settings_to_container Examples.ns_team_a
              (Heap Examples.setting_full Examples.container_full)).1).
  - intros Hin. vm_compute in Hin.
    repeat (apply elem_of_cons in Hin as [Hin|Hin]; [discriminate Hin|]).
    by apply elem_of_nil in Hin.
  - by destruct (apply_settings_to_container Examples.ns_team_a
                   (Heap Examples.setting_full Examples.container_full)).
Defined.

Lemma apply_settings_to_container_user_context_witness :
  ∃ user email old spec1,
    Py.getitem (Examples.obj [("team", JStr "team-a"); ("user", JStr "alice");
                              ("email", JStr "a@x.com")]) "user" = Ret user ∧
    Py.getitem (Examples.obj [("team", JStr "team-a"); ("user", JStr "alice");
                              ("email", JStr "a@x.com")]) "email" = Ret email ∧
    Py.iter (default (JList [])
               (field_of (default JNull (field_of Examples.setting_full "spec")) "env"))
    = Ret old ∧
    Py.getitem (pod_setting (apply_settings_to_container Examples.ns_team_a
                               (Heap Examples.setting_full Examples.container_full)).2)
      "spec" = Ret spec1 ∧
    field_of spec1 "env"
    = Some (JList (List.filter (name_not_in [JStr "USERNAME"; JStr "USEREMAIL"]) old
                   ++ [env_entry "USERNAME" user; env_entry "USEREMAIL" email])).
Proof.
  apply (apply_settings_to_container_user_context Examples.ns_team_a
           Examples.setting_full Examples.container_full _
           (target (apply_settings_to_container Examples.ns_team_a
                      (Heap Examples.setting_full Examples.container_full)).2)).
  - vm_compute. reflexivity.
  - vm_compute. reflexivity.
  - vm_compute. reflexivity.
  - vm_compute. reflexivity.
Defined.

Lemma apply_settings_to_container_user_unreadable_witness :
  apply_settings_to_container Examples.ns_no_user
    (Heap Examples.setting_user_applied (JDict Examples.container_main))
  = (Raise (KeyError "user"),
     Heap (JDict (<["spec" :=
                    JDict (<["env" := JList [Examples.named "FOO" "1"]]>
                             (list_to_map
                                [("podSelector",
                                  Examples.obj
                                    [("matchLabels", Examples.obj [("app", JStr "web")])]);
                                 ("containerSelector",
                                  Examples.obj [("regex", JStr "*")]);
                                 ("env", JList [Examples.named "FOO" "1";
                                                Examples.named "USERNAME" "alice";
                                                Examples.named "USEREMAIL" "a@x.com"]);
                                 ("injectUserContext", JBool true)]))]>
                    (list_to_map
                       [("metadata",
                         Examples.obj [("namespace", JStr "team-a"); ("name", JStr "user")]);
                        ("spec",
                         Examples.obj
                           [("podSelector",
                             Examples.obj
                               [("matchLabels", Examples.obj [("app", JStr "web")])]);
                            ("containerSelector", Examples.obj [("regex", JStr "*")]);
                            ("env", JList [Examples.named "FOO" "1";
                                           Examples.named "USERNAME" "alice";
                                           Examples.named "USEREMAIL" "a@x.com"]);
                            ("injectUserContext", JBool true)])])))
       (JDict Examples.container_main)).
Proof.
  apply (apply_settings_to_container_user_unreadable Examples.ns_no_user _ _
           (JDict Examples.container_main)
           (Examples.obj [("team", JStr "team-a")]) (JBool true)
           [Examples.named "FOO" "1"; Examples.named "USERNAME" "alice";
            Examples.named "USEREMAIL" "a@x.com"]);
    vm_compute; reflexivity.
Defined.

Lemma apply_settings_to_pod_other_parts_witness :
  (∀ k, k ∉ ["metadata"; "spec"] →
        field_of (target (apply_settings_to_pod (H := Examples.stand_in)
                            Examples.ns_team_a
                            (Heap Examples.setting_full Examples.pod_full)).2) k
        = field_of Examples.pod_full k) ∧
  (∀ part f, (part, f) ∉ pod_written →
             pod_cell (target (apply_settings_to_pod (H := Examples.stand_in)
                                 Examples.ns_team_a
                                 (Heap Examples.setting_full Examples.pod_full)).2)
               part f
             = pod_cell Examples.pod_full part f).
Proof.
  apply (apply_settings_to_pod_other_parts (H := Examples.stand_in) Examples.ns_team_a
           Examples.setting_full Examples.pod_full
           (apply_settings_to_pod (H := Examples.stand_in) Examples.ns_team_a
              (Heap Examples.setting_full Examples.pod_full)).1).
  by destruct (apply_settings_to_pod (H := Examples.stand_in) Examples.ns_team_a
                 (Heap Examples.setting_full Examples.pod_full)).
Defined.

Lemma apply_settings_to_pod_keeps_containers_witness :
  container_names
    (containers_of (target (apply_settings_to_pod (H := Examples.stand_in)
                              Examples.ns_team_a
                              (Heap Examples.setting_full Examples.pod_full)).2)
       "containers")
  = container_names (containers_of Examples.pod_full "containers").
Proof.
  apply (apply_settings_to_pod_keeps_containers (H := Examples.stand_in)
           Examples.ns_team_a Examples.setting_full Examples.pod_full
           (apply_settings_to_pod (H := Examples.stand_in) Examples.ns_team_a
              (Heap Examples.setting_full Examples.pod_full)).1).
  - right. left.
  - by destruct (apply_settings_to_pod (H := Examples.stand_in) Examples.ns_team_a
                   (Heap Examples.setting_full Examples.pod_full)).
Defined.

Lemma apply_settings_to_pod_selects_nothing_witness :
  pod_setting (apply_settings_to_pod (H := Examples.stand_in) Examples.ns_team_a
                 (Heap Examples.setting_label Examples.pod_full)).2
  = Examples.setting_label ∧
  ∀ field, field ∈ ["initContainers"; "containers"] →
           pod_cell (target (apply_settings_to_pod (H := Examples.stand_in)
                               Examples.ns_team_a
                               (Heap Examples.setting_label Examples.pod_full)).2)
             "spec" field
           = pod_cell Examples.pod_full "spec" field.
Proof.
  apply (apply_settings_to_pod_selects_nothing (H := Examples.stand_in)
           Examples.ns_team_a Examples.setting_label Examples.pod_full (JDict ∅)
           (apply_settings_to_pod (H := Examples.stand_in) Examples.ns_team_a
              (Heap Examples.setting_label Examples.pod_full)).1).
  - vm_compute. reflexivity.
  - vm_compute. reflexivity.
  - vm_compute. reflexivity.
  - by destruct (apply_settings_to_pod (H := Examples.stand_in) Examples.ns_team_a
                   (Heap Examples.setting_label Examples.pod_full)).
Defined.

Lemma apply_settings_to_pod_key_merged_witness :
  ∃ old merged,
    default (JDict ∅) (pod_cell Examples.pod_full "metadata" "labels") = JDict old ∧
    pod_cell (target (apply_settings_to_pod (H := Examples.stand_in) Examples.ns_team_a
                        (Heap Examples.setting_full Examples.pod_full)).2)
      "metadata" "labels"
    = Some (JDict merged) ∧
    ∀ k, merged !! k
         = match (list_to_map [("injected", JStr "true")] : gmap string json) !! k with
           | Some v => Some v
           | None => old !! k
           end.
Proof.
  apply (apply_settings_to_pod_key_merged (H := Examples.stand_in) Examples.ns_team_a
           Examples.setting_full Examples.pod_full
           (pod_setting (apply_settings_to_pod (H := Examples.stand_in)
                           Examples.ns_team_a
                           (Heap Examples.setting_full Examples.pod_full)).2)
           _
           (default JNull (field_of Examples.setting_full "spec"))).
  - left.
  - vm_compute. reflexivity.
  - vm_compute. reflexivity.
  - vm_compute. reflexivity.
Defined.

Lemma apply_settings_to_pod_volumes_witness :
  ∃ old,
    Py.iter (default (JList []) (pod_cell Examples.pod_full "spec" "volumes")) = Ret old ∧
    pod_cell (target (apply_settings_to_pod (H := Examples.stand_in) Examples.ns_team_a
                        (Heap Examples.setting_full Examples.pod_full)).2)
      "spec" "volumes"
    = Some (JList (List.filter
                     (name_not_in
                        (names_of [Examples.obj [("name", JStr "data");
                                                 ("emptyDir", Examples.obj [])]]))
                     old
                   ++ [Examples.obj [("name", JStr "data");
                                     ("emptyDir", Examples.obj [])]])).
Proof.
  apply (apply_settings_to_pod_volumes (H := Examples.stand_in) Examples.ns_team_a
           Examples.setting_full Examples.pod_full
           (pod_setting (apply_settings_to_pod (H := Examples.stand_in)
                           Examples.ns_team_a
                           (Heap Examples.setting_full Examples.pod_full)).2)
           _
           (default JNull (field_of Examples.setting_full "spec"))).
  - vm_compute. reflexivity.
  - vm_compute. reflexivity.
  - vm_compute. reflexivity.
Defined.

Lemma process_request_serves_from_cache_witness :
  process_request (H := Examples.stand_in)
    (Cluster (Ret tt) (Ret [Examples.setting_label])
       (fun _ _ => Ret Examples.ns_team_a))
    (JDict Examples.request_web) (Process (Some []) [] [])
  = process_request (H := Examples.stand_in)
      (Cluster (Ret tt) (Raise (ApiError "500")) (fun _ _ => Ret Examples.ns_team_a))
      (JDict Examples.request_web) (Process (Some []) [] []).
Proof.
  apply (proj1 (process_request_serves_from_cache (H := Examples.stand_in)
                  (Ret tt) (Ret [Examples.setting_label]) (Raise (ApiError "500"))
                  (fun _ _ => Ret Examples.ns_team_a)
                  (JDict Examples.request_web) (Process (Some []) [] []) []
                  eq_refl)).
Defined.

Lemma process_request_filter_failure_witness :
  process_request (H := Examples.stand_in)
    (Examples.cluster_of [Examples.setting_no_spec])
    (JDict Examples.request_web) Examples.fresh
  = (Raise (KeyError "spec"),
     Process (Some [Examples.setting_no_spec])
       [GetNamespaceSetting ORBIT_SYSTEM_NAMESPACE (JStr "team-a");
        ListPodSettings; GetClient] []).
Proof.
  apply (process_request_filter_failure (H := Examples.stand_in)
           (Examples.cluster_of [Examples.setting_no_spec]) Examples.request_web
           Examples.pod_web (JStr "team-a") Examples.ns_team_a
           (Examples.obj [("team", JStr "team-a"); ("user", JStr "alice");
                          ("email", JStr "a@x.com")])
           (JStr "team-a") [Examples.setting_no_spec] Examples.fresh);
    vm_compute; reflexivity.
Defined.

Lemma process_request_list_failure_witness :
  process_request (H := Examples.stand_in) Examples.cluster_unlisted
    (JDict Examples.request_web) Examples.fresh
  = (Raise (ApiError "500"), Process None [ListPodSettings; GetClient] []).
Proof.
  apply (process_request_list_failure (H := Examples.stand_in) Examples.cluster_unlisted
           Examples.request_web Examples.pod_web Examples.fresh);
    vm_compute; reflexivity.
Defined.

Lemma process_request_uid_read_last_witness :
  process_request (H := Examples.stand_in)
    (Examples.cluster_of [Examples.setting_envFrom; Examples.setting_label])
    (JDict Examples.request_no_uid) Examples.fresh
  = (Raise (KeyError "uid"),
     Process (Some [Examples.setting_envFrom; Examples.setting_label])
       [GetNamespaceSetting ORBIT_SYSTEM_NAMESPACE (JStr "team-a");
        ListPodSettings; GetClient]
       [KeyError "envFrom"]).
Proof.
  apply (process_request_uid_read_last (H := Examples.stand_in)
           (Examples.cluster_of [Examples.setting_envFrom; Examples.setting_label])
           Examples.request_no_uid Examples.pod_web (JStr "team-a") Examples.ns_team_a
           (Examples.obj [("team", JStr "team-a"); ("user", JStr "alice");
                          ("email", JStr "a@x.com")])
           (JStr "team-a") [Examples.setting_envFrom; Examples.setting_label]
           [0; 1]%nat Examples.fresh);
    vm_compute; reflexivity.
Defined.

Lemma process_request_logs_at_most_one_witness :
  logged (process_request (H := Examples.stand_in)
            (Examples.cluster_of [Examples.setting_envFrom; Examples.setting_label])
            (JDict Examples.request_web) Examples.fresh).2
  = logged Examples.fresh ∨
  ∃ e, logged (process_request (H := Examples.stand_in)
                 (Examples.cluster_of [Examples.setting_envFrom; Examples.setting_label])
                 (JDict Examples.request_web) Examples.fresh).2
       = e :: logged Examples.fresh.
Proof.
  apply (process_request_logs_at_most_one (H := Examples.stand_in)
           (Examples.cluster_of [Examples.setting_envFrom; Examples.setting_label])
           (JDict Examples.request_web) Examples.fresh
           (process_request (H := Examples.stand_in)
              (Examples.cluster_of [Examples.setting_envFrom; Examples.setting_label])
              (JDict Examples.request_web) Examples.fresh).1).
  by destruct (process_request (H := Examples.stand_in)
                 (Examples.cluster_of [Examples.setting_envFrom; Examples.setting_label])
                 (JDict Examples.request_web) Examples.fresh).
Defined.

Lemma apply_settings_to_pod_service_account_witness :
  pod_cell (target (apply_settings_to_pod (H := Examples.stand_in) Examples.ns_team_a
                      (Heap Examples.setting_full Examples.pod_full)).2)
    "spec" "serviceAccountName"
  = Some (JStr "sa").
Proof.
  apply (apply_settings_to_pod_service_account (H := Examples.stand_in) Examples.ns_team_a
           Examples.setting_full Examples.pod_full
           (pod_setting (apply_settings_to_pod (H := Examples.stand_in)
                           Examples.ns_team_a
                           (Heap Examples.setting_full Examples.pod_full)).2)
           _
           (default JNull (field_of Examples.setting_full "spec"))).
  - vm_compute. reflexivity.
  - vm_compute. reflexivity.
  - vm_compute. reflexivity.
Defined.

Lemma extend_field_Ret f ps_spec o o' incoming :
  field_of ps_spec f = Some (JList incoming) →
  extend_field f ps_spec o = (Ret tt, o') →
  ∃ old, field_of o f = Some (JList old) ∧
         field_of o' f = Some (JList (old ++ incoming)).
Proof.
  intros Hin Hrun. unfold extend_field in Hrun.
  step_reads Hrun l Hl. step_lift Hrun inc Hinc. step_lift Hrun l' Hl'.
  apply setitem_Ret in Hrun.
  apply get_default in Hinc. rewrite Hin in Hinc. simpl in Hinc. subst inc.
  apply getitem_field_of in Hl. destruct l as [| | | |old|]; try done.
  simpl in Hl'. injection Hl' as <-. exists old. split; [done|].
  exact (field_of_setitem _ _ _ _ Hrun).
Qed.

(** X25.  After a completed call with a pod-setting that lists [envFrom]
    sources, the [envFrom] of the container is the list it had followed by
    all the sources of the pod-setting: nothing is removed, and a source
    the container had already is there once more. *)
Theorem apply_settings_to_container_envFrom ns ps c ps1 c1 ps_spec incoming :
  Py.getitem ps "spec" = Ret ps_spec →
  field_of ps_spec "envFrom" = Some (JList incoming) →
  apply_settings_to_container ns (Heap ps c) = (Ret tt, Heap ps1 c1) →
  ∃ old, field_of c "envFrom" = Some (JList old) ∧
         field_of c1 "envFrom" = Some (JList (old ++ incoming)).
Proof.
  intros Hspec Hin Hrun.
  apply apply_settings_to_container_Ret in Hrun
    as (_ & ns_spec & spec1 & Hns & Hinj & Hspec1 & Hall).
  rewrite <- (injected_spec_field _ _ _ _ _ "envFrom" Hinj Hspec Hspec1) in Hin by done.
  assert (("envFrom", extend_field) ∈ container_fields) as Hst.
  { unfold container_fields, fields_before_envFrom; simpl; repeat first [by left | right]. }
  destruct (container_field_statement _ _ _ _ Hst Hall) as (o & o' & Hbefore & Ho & Hend).
  simpl in Hbefore, Hend.
  apply (override_Ret spec1 ("envFrom", extend_field) _ o o' Hin) in Ho. simpl in Ho.
  apply (extend_field_Ret _ _ _ _ _ Hin) in Ho as (old & Hold & Hres).
  exists old. split; congruence.
Qed.

Lemma apply_settings_to_container_envFrom_witness :
  ∃ old,
    field_of (Examples.obj [("name", JStr "main"); ("envFrom", JList [Examples.config_map])])
      "envFrom" = Some (JList old) ∧
    field_of (target (apply_settings_to_container Examples.ns_team_a
                        (Heap Examples.setting_envFrom
                           (Examples.obj [("name", JStr "main");
                                          ("envFrom", JList [Examples.config_map])]))).2)
      "envFrom"
    = Some (JList (old ++ [Examples.config_map])).
Proof.
  apply (apply_settings_to_container_envFrom Examples.ns_team_a Examples.setting_envFrom
           (Examples.obj [("name", JStr "main"); ("envFrom", JList [Examples.config_map])])
           (pod_setting (apply_settings_to_container Examples.ns_team_a
                           (Heap Examples.setting_envFrom
                              (Examples.obj [("name", JStr "main");
                                             ("envFrom", JList [Examples.config_map])]))).2)
           _ (JDict Examples.spec_envFrom)).
  - vm_compute. reflexivity.
  - vm_compute. reflexivity.
  - vm_compute. reflexivity.
Defined.
